(** * The human-in-the-loop agent loop of [agent_panel.py]

    A shallow embedding of the state kept in Streamlit's session state, of
    the functions that mutate it ([restart_agent], [run_step],
    [execute_pending_tools], [reject_pending_tools], [edit_pending_tools],
    [rewind_and_edit]) and of the controller [agent_panel] that runs once
    per script rerun, followed by the properties of the run state that the
    design document states.

    Python mutates the session lists in place and an uncaught exception
    aborts the rerun while keeping every mutation made so far; the
    embedding therefore threads the state through a state-and-exception
    monad whose result always carries the state reached.

    The file has four parts: the model ([AgentPanel]), a sample world
    with sample sessions ([Sample]), the properties, proved for every
    world ([Properties]), and the properties and their failures on the
    sample sessions ([OnSample]). *)

From stdpp Require Import base option list strings sorting relations.
From Stdlib Require Import Lia.

Local Open Scope string_scope.
Set Warnings "-register-all".

(** ** Values *)

(** What [json.loads] returns: [None], booleans, numbers (kept as their
    literal text; the code never inspects them), strings, lists, dicts. *)
Inductive json : Type :=
| JNull
| JBool (b : bool)
| JNum (literal : string)
| JStr (s : string)
| JArr (items : list json)
| JObj (fields : list (string * json)).

(** The exceptions that the modelled code can raise. *)
Inductive exn : Type :=
| JSONDecodeError
| KeyError (key : string)
| TypeError
| AttributeError
| IndexError
| UnboundLocalError (var : string)
| ModelCallError.

(** The result of running a piece of code: a value, or an exception. *)
Inductive outcome (A : Type) : Type :=
| Ok (a : A)
| Raised (e : exn).
Arguments Ok {A} a.
Arguments Raised {A} e.

(** [d[k]] on a dict of string keys. *)
Fixpoint dict_get (k : string) (fields : list (string * json)) : option json :=
  match fields with
  | [] => None
  | (k', v) :: rest => if String.eqb k k' then Some v else dict_get k rest
  end.

(** [args[k]] on whatever [json.loads] returned: only a dict can be
    indexed by a string, and the key has to be present. *)
Definition getitem (args : json) (k : string) : outcome json :=
  match args with
  | JObj fields =>
      match dict_get k fields with
      | Some v => Ok v
      | None => Raised (KeyError k)
      end
  | _ => Raised TypeError
  end.

(** Truth value of a Python [str]. *)
Definition truthy (s : string) : bool := negb (String.eqb s "").

(** ** Data model *)

(** [tc.function] of a tool call: [name] and the raw [arguments] text. *)
Record function_call : Type := {
  fn_name : string;
  fn_arguments : string;
}.

(** One requested tool invocation ([tc.id], [tc.function]). *)
Record tool_call : Type := {
  tc_id : string;
  tc_function : function_call;
}.

(** The assistant message of a model response. [tool_calls] is [None] or a
    list in the client library. *)
Record chat_message : Type := {
  content : option string;
  tool_calls : option (list tool_call);
}.

Inductive role : Type := system | user | assistant.

(** An entry of [agent_messages]: a [{"role", "content"}] dict, a
    [{"role": "tool", "content", "tool_call_id"}] dict, or the message
    object taken from the pending slot (the slot's content is appended as
    it is, so an empty slot would append [None]). *)
Inductive message : Type :=
| Turn (r : role) (text : string)
| ToolTurn (text : string) (tool_call_id : string)
| Proposal (pending_msg : option chat_message).

(** An entry of [agent_events]; the constructor is the dict's ["type"]. *)
Inductive event : Type :=
| Thought (thought : string)
| Answer (thought : string) (answer : option string)
| Action (name : string) (code : json) (result : string) (_rewind_point : nat)
| Chart (name : string) (spec_str : json) (result : string) (_rewind_point : nat)
| Rejected (name : string) (feedback : string)
| Edited (prompt : string).

Inductive phase : Type :=
| idle | thinking | acting
| awaiting_approval | awaiting_edit | awaiting_feedback
| done.

(** The structured decision of the thinking step (class [Reasoning]). *)
Record Reasoning : Type := {
  reason : string;
  use_tool : bool;
  answer : option string;
}.

(** [e["_rewind_point"]]: only action and chart events have the key. *)
Definition rewind_point_of (e : event) : option nat :=
  match e with
  | Action _ _ _ rp | Chart _ _ _ rp => Some rp
  | _ => None
  end.

(** The rewind points found in an event log, in log order. *)
Definition rewind_points (events : list event) : list nat :=
  omap rewind_point_of events.




(** ** The world outside the file

    Everything below is parametric in what lives outside [agent_panel.py]:
    the tool schemas and the data frame, [json.loads], and the helpers
    imported from [movie_tool] and [chart_tool]. *)

Class World : Type := {
  tool_schema : Type;
  dataframe : Type;
  chart_spec : Type;
  (** [json.loads]: [None] stands for [JSONDecodeError]. *)
  json_loads : string -> option json;
  (** [movie_tool.get_tools] and [chart_tool.get_chart_tool]. *)
  get_tools : dataframe -> list tool_schema;
  get_chart_tool : tool_schema;
  (** [movie_tool.query_movie_db(code, df)]: returns the observation text;
      the tool reports its own failures inside that text. *)
  query_movie_db : json -> option dataframe -> string;
  (** [chart_tool.validate_chart(spec_str)]: returns [(spec, result)]; the
      first component is [None] exactly when the Python value is not
      truthy, which is how the code tells a failed validation. *)
  validate_chart : json -> option chart_spec * string;
}.

(** ** The run state and the monad of the script *)

Section AgentPanel.

Context `{World}.

(** The keys of [DEFAULT_STATE]. *)
Record AgentState : Type := {
  agent_phase : phase;
  agent_events : list event;
  agent_messages : list message;
  agent_tools : list tool_schema;
  agent_df : option dataframe;
  agent_chart_specs : list chart_spec;
  agent_pending_message : option chat_message;
  agent_rewrite_event_index : option nat;
}.

Definition DEFAULT_STATE : AgentState := {|
  agent_phase := idle;
  agent_events := [];
  agent_messages := [];
  agent_tools := [];
  agent_df := None;
  agent_chart_specs := [];
  agent_pending_message := None;
  agent_rewrite_event_index := None;
|}.

(** [set_state(key, value)], one function per key. *)
Definition set_agent_phase (v : phase) (s : AgentState) : AgentState :=
  {| agent_phase := v; agent_events := agent_events s;
     agent_messages := agent_messages s; agent_tools := agent_tools s;
     agent_df := agent_df s; agent_chart_specs := agent_chart_specs s;
     agent_pending_message := agent_pending_message s;
     agent_rewrite_event_index := agent_rewrite_event_index s |}.

Definition set_agent_events (v : list event) (s : AgentState) : AgentState :=
  {| agent_phase := agent_phase s; agent_events := v;
     agent_messages := agent_messages s; agent_tools := agent_tools s;
     agent_df := agent_df s; agent_chart_specs := agent_chart_specs s;
     agent_pending_message := agent_pending_message s;
     agent_rewrite_event_index := agent_rewrite_event_index s |}.

Definition set_agent_messages (v : list message) (s : AgentState) : AgentState :=
  {| agent_phase := agent_phase s; agent_events := agent_events s;
     agent_messages := v; agent_tools := agent_tools s;
     agent_df := agent_df s; agent_chart_specs := agent_chart_specs s;
     agent_pending_message := agent_pending_message s;
     agent_rewrite_event_index := agent_rewrite_event_index s |}.

Definition set_agent_tools (v : list tool_schema) (s : AgentState) : AgentState :=
  {| agent_phase := agent_phase s; agent_events := agent_events s;
     agent_messages := agent_messages s; agent_tools := v;
     agent_df := agent_df s; agent_chart_specs := agent_chart_specs s;
     agent_pending_message := agent_pending_message s;
     agent_rewrite_event_index := agent_rewrite_event_index s |}.

Definition set_agent_df (v : option dataframe) (s : AgentState) : AgentState :=
  {| agent_phase := agent_phase s; agent_events := agent_events s;
     agent_messages := agent_messages s; agent_tools := agent_tools s;
     agent_df := v; agent_chart_specs := agent_chart_specs s;
     agent_pending_message := agent_pending_message s;
     agent_rewrite_event_index := agent_rewrite_event_index s |}.

Definition set_agent_chart_specs (v : list chart_spec) (s : AgentState) : AgentState :=
  {| agent_phase := agent_phase s; agent_events := agent_events s;
     agent_messages := agent_messages s; agent_tools := agent_tools s;
     agent_df := agent_df s; agent_chart_specs := v;
     agent_pending_message := agent_pending_message s;
     agent_rewrite_event_index := agent_rewrite_event_index s |}.

Definition set_agent_pending_message (v : option chat_message) (s : AgentState)
  : AgentState :=
  {| agent_phase := agent_phase s; agent_events := agent_events s;
     agent_messages := agent_messages s; agent_tools := agent_tools s;
     agent_df := agent_df s; agent_chart_specs := agent_chart_specs s;
     agent_pending_message := v;
     agent_rewrite_event_index := agent_rewrite_event_index s |}.

Definition set_agent_rewrite_event_index (v : option nat) (s : AgentState)
  : AgentState :=
  {| agent_phase := agent_phase s; agent_events := agent_events s;
     agent_messages := agent_messages s; agent_tools := agent_tools s;
     agent_df := agent_df s; agent_chart_specs := agent_chart_specs s;
     agent_pending_message := agent_pending_message s;
     agent_rewrite_event_index := v |}.

(** A computation over the session state: it returns a value or raises,
    and in both cases leaves a state behind. *)
Definition M (A : Type) : Type := AgentState -> outcome A * AgentState.

Definition ret {A} (a : A) : M A := fun s => (Ok a, s).

Definition bind {A B} (c : M A) (k : A -> M B) : M B :=
  fun s =>
    match c s with
    | (Ok a, s') => k a s'
    | (Raised e, s') => (Raised e, s')
    end.

Definition raise {A} (e : exn) : M A := fun s => (Raised e, s).

(** [get_state(key)] *)
Definition get_state {A} (key : AgentState -> A) : M A := fun s => (Ok (key s), s).

(** [set_state(key, value)], and the in-place list appends. *)
Definition set_state {A} (setter : A -> AgentState -> AgentState) (v : A) : M unit :=
  fun s => (Ok tt, setter v s).

Definition append_message (m : message) : M unit :=
  fun s => (Ok tt, set_agent_messages (agent_messages s ++ [m]) s).

Definition append_event (e : event) : M unit :=
  fun s => (Ok tt, set_agent_events (agent_events s ++ [e]) s).

Definition append_chart_spec (c : chart_spec) : M unit :=
  fun s => (Ok tt, set_agent_chart_specs (agent_chart_specs s ++ [c]) s).

(** A pure step that may raise. *)
Definition lift {A} (o : outcome A) : M A := fun s => (o, s).

Notation "x <- c ;; k" := (bind c (fun x => k))
  (at level 100, c at next level, right associativity).
Notation "c ;; k" := (bind c (fun _ => k))
  (at level 100, right associativity).

(** State left behind, and value returned. *)
Definition exec {A} (c : M A) (s : AgentState) : AgentState := snd (c s).
Definition eval {A} (c : M A) (s : AgentState) : outcome A := fst (c s).

(** ** Logic *)

(** The model client, as far as [run_step] uses it:
    [client.chat.completions.parse(messages, response_format=Reasoning)]
    up to [.choices[0].message.parsed], and
    [client.chat.completions.create(messages, tools)] up to
    [.choices[0].message]. Either call may raise. *)
Record Client : Type := {
  parse : list message -> outcome Reasoning;
  create : list message -> list tool_schema -> outcome chat_message;
}.

Definition system_content_base : string :=
  "You are a data analyst with access to a tool that executes Python code on a movie database.".

Definition system_content_chart : string :=
  " After computing the data, create a chart using a Vega-Lite specification.".

Definition restart_agent (user_question : string) (filtered_df : dataframe)
    (show_chart : bool) : M unit :=
  set_state set_agent_phase thinking ;;
  set_state set_agent_events [] ;;
  set_state set_agent_chart_specs [] ;;
  set_state set_agent_pending_message None ;;
  let tools := get_tools filtered_df in
  let system_content := system_content_base in
  let tools := if show_chart then (tools ++ [get_chart_tool])%list else tools in
  let system_content :=
    if show_chart then system_content ++ system_content_chart
    else system_content in
  set_state set_agent_messages
    [Turn system system_content; Turn user user_question] ;;
  set_state set_agent_tools tools ;;
  set_state set_agent_df (Some filtered_df).

(** [if not msg.tool_calls]: [None] and the empty list are both falsy. *)
Definition has_tool_calls (msg : chat_message) : bool :=
  match tool_calls msg with
  | Some (_ :: _) => true
  | _ => false
  end.

Definition run_step (client : Client) : M unit :=
  phase <- get_state agent_phase ;;
  messages <- get_state agent_messages ;;
  match phase with
  | thinking =>
      reasoning <- lift (parse client messages) ;;
      append_message (Turn assistant (reason reasoning)) ;;
      if use_tool reasoning then
        append_event (Thought (reason reasoning)) ;;
        set_state set_agent_phase acting
      else
        append_event (Answer (reason reasoning) (answer reasoning)) ;;
        set_state set_agent_phase done
  | acting =>
      tools <- get_state agent_tools ;;
      msg <- lift (create client messages tools) ;;
      if negb (has_tool_calls msg) then
        set_state set_agent_phase done
      else
        set_state set_agent_pending_message (Some msg) ;;
        set_state set_agent_phase awaiting_approval
  | _ => ret tt
  end.

(** [json.loads(tc.function.arguments)] *)
Definition loads_arguments (tc : tool_call) : outcome json :=
  match json_loads (fn_arguments (tc_function tc)) with
  | Some args => Ok args
  | None => Raised JSONDecodeError
  end.

(** [for tc in pending_msg.tool_calls]: the list that the loop walks.
    Reading [.tool_calls] of [None] and iterating [None] both raise. *)
Definition iter_tool_calls (pending_msg : option chat_message)
  : outcome (list tool_call) :=
  match pending_msg with
  | None => Raised AttributeError
  | Some msg =>
      match tool_calls msg with
      | None => Raised TypeError
      | Some tcs => Ok tcs
      end
  end.

(** The body of the loop of [execute_pending_tools], run for one call.
    The local variable [result] is assigned in the two named branches
    only, and it survives from one iteration to the next; [None] is the
    unbound variable. The body returns the value [result] has at its end. *)
Definition execute_call (rewind_point : nat) (df : option dataframe)
    (tc : tool_call) (result : option string) : M (option string) :=
  args <- lift (loads_arguments tc) ;;
  let name := fn_name (tc_function tc) in
  result <-
    (if String.eqb name "QueryMovieDB" then
       code <- lift (getitem args "code") ;;
       let result := query_movie_db code df in
       append_event (Action name code result rewind_point) ;;
       ret (Some result)
     else if String.eqb name "CreateChart" then
       spec_str <- lift (getitem args "vega_lite_spec") ;;
       let '(spec, result) := validate_chart spec_str in
       match spec with
       | Some spec => append_chart_spec spec
       | None => ret tt
       end ;;
       append_event (Chart name spec_str result rewind_point) ;;
       ret (Some result)
     else ret result) ;;
  match result with
  | Some r => append_message (ToolTurn r (tc_id tc))
  | None => raise (UnboundLocalError "result")
  end ;;
  ret result.

Fixpoint execute_loop (rewind_point : nat) (df : option dataframe)
    (tcs : list tool_call) (result : option string) : M unit :=
  match tcs with
  | [] => ret tt
  | tc :: rest =>
      result <- execute_call rewind_point df tc result ;;
      execute_loop rewind_point df rest result
  end.

Definition execute_pending_tools : M unit :=
  messages <- get_state agent_messages ;;
  df <- get_state agent_df ;;
  pending_msg <- get_state agent_pending_message ;;
  let rewind_point := length messages in
  append_message (Proposal pending_msg) ;;
  tcs <- lift (iter_tool_calls pending_msg) ;;
  execute_loop rewind_point df tcs None ;;
  set_state set_agent_pending_message None ;;
  set_state set_agent_phase thinking.

Definition rejection_msg (feedback : string) : string :=
  let rejection_msg := "User rejected this action." in
  if truthy feedback then rejection_msg ++ " User feedback: " ++ feedback
  else rejection_msg ++ " Try a different approach.".

Fixpoint reject_loop (feedback : string) (tcs : list tool_call) : M unit :=
  match tcs with
  | [] => ret tt
  | tc :: rest =>
      append_event (Rejected (fn_name (tc_function tc)) feedback) ;;
      append_message (ToolTurn (rejection_msg feedback) (tc_id tc)) ;;
      reject_loop feedback rest
  end.

Definition reject_pending_tools (feedback : string) : M unit :=
  pending_msg <- get_state agent_pending_message ;;
  append_message (Proposal pending_msg) ;;
  tcs <- lift (iter_tool_calls pending_msg) ;;
  reject_loop feedback tcs ;;
  set_state set_agent_pending_message None ;;
  set_state set_agent_phase thinking.

Definition edit_msg (edit_prompt : string) : string :=
  "User wants changes to the proposed code: " ++ edit_prompt
  ++ ". Regenerate the tool call with these changes.".

Fixpoint edit_loop (edit_prompt : string) (tcs : list tool_call) : M unit :=
  match tcs with
  | [] => ret tt
  | tc :: rest =>
      append_message (ToolTurn (edit_msg edit_prompt) (tc_id tc)) ;;
      edit_loop edit_prompt rest
  end.

Definition edit_pending_tools (edit_prompt : string) : M unit :=
  pending_msg <- get_state agent_pending_message ;;
  append_message (Proposal pending_msg) ;;
  tcs <- lift (iter_tool_calls pending_msg) ;;
  edit_loop edit_prompt tcs ;;
  append_event (Edited edit_prompt) ;;
  set_state set_agent_pending_message None ;;
  set_state set_agent_phase acting.

Definition rewind_msg (edit_prompt : string) : string :=
  "User wants changes: " ++ edit_prompt ++ ". Regenerate the tool call.".

(** [e["spec_str"]] of the events whose type is ["chart"]. *)
Definition chart_spec_str (e : event) : option json :=
  match e with
  | Chart _ spec_str _ _ => Some spec_str
  | _ => None
  end.

(** The two comprehensions of [rewind_and_edit]: validate the spec text of
    every chart event again, then keep the truthy specs. *)
Definition recompute_chart_specs (events : list event) : list chart_spec :=
  let chart_specs :=
    map (fun spec_str => fst (validate_chart spec_str))
        (omap chart_spec_str events) in
  omap (fun s => s) chart_specs.

Definition rewind_and_edit (event_index : nat) (edit_prompt : string) : M unit :=
  events <- get_state agent_events ;;
  e <- lift (match events !! event_index with
             | Some e => Ok e
             | None => Raised IndexError
             end) ;;
  rewind_point <- lift (match rewind_point_of e with
                        | Some rp => Ok rp
                        | None => Raised (KeyError "_rewind_point")
                        end) ;;
  messages <- get_state agent_messages ;;
  set_state set_agent_messages (take rewind_point messages) ;;
  set_state set_agent_events (take event_index events) ;;
  events <- get_state agent_events ;;
  set_state set_agent_chart_specs (recompute_chart_specs events) ;;
  append_event (Edited edit_prompt) ;;
  append_message (Turn user (rewind_msg edit_prompt)) ;;
  set_state set_agent_rewrite_event_index None ;;
  set_state set_agent_phase acting.

(** ** Rendering

    Of the rendering code only what reaches the controller is modelled:
    the widget values it returns and the exceptions it can raise. *)

(** What the widgets return during one rerun of the script: the buttons
    ("Approve", "Edit", "Reject", "Submit Edit", "Cancel",
    "Submit Rejection", and the "Edit" button with key [rewind_<i>] next
    to event [i]) and the two text inputs. *)
Record Widgets : Type := {
  btn_approve : bool;
  btn_edit : bool;
  btn_reject : bool;
  btn_submit_edit : bool;
  btn_cancel : bool;
  btn_submit_rejection : bool;
  btn_rewind : nat -> bool;
  input_edit_prompt : string;
  input_reject_feedback : string;
}.

(** The dict [actions]: a field is [None] when the key is absent. *)
Record Actions : Type := {
  approved : option bool;
  edited : option bool;
  rejected : option bool;
  edit_submitted : option bool;
  edit_prompt : option string;
  edit_cancelled : option bool;
  submitted : option bool;
  feedback : option string;
  rewind_index : option nat;
}.

Definition no_actions : Actions := {|
  approved := None; edited := None; rejected := None;
  edit_submitted := None; edit_prompt := None; edit_cancelled := None;
  submitted := None; feedback := None; rewind_index := None;
|}.

(** [actions.get(key)] used as a condition. *)
Definition get_flag (v : option bool) : bool := default false v.
Definition get_text (v : option string) : bool :=
  match v with
  | Some s => truthy s
  | None => false
  end.

Definition _render_inline_edit (ui : Widgets) : Actions := {|
  approved := None; edited := None; rejected := None;
  edit_submitted := Some (btn_submit_edit ui);
  edit_prompt := Some (input_edit_prompt ui);
  edit_cancelled := Some (btn_cancel ui);
  submitted := None; feedback := None; rewind_index := None;
|}.

Definition is_action_or_chart (e : event) : bool :=
  match e with
  | Action _ _ _ _ | Chart _ _ _ _ => true
  | _ => false
  end.

(** The loop of [render_events], from index [i] on, with the two
    variables it assigns. *)
Fixpoint render_events_loop (ui : Widgets) (allow_rewind : bool)
    (inline_edit_index : option nat) (i : nat) (events : list event)
    (clicked_index : option nat) (inline_edit_actions : option Actions)
  : option nat * option Actions :=
  match events with
  | [] => (clicked_index, inline_edit_actions)
  | e :: rest =>
      let clicked_index :=
        if is_action_or_chart e && allow_rewind && btn_rewind ui i
        then Some i else clicked_index in
      let inline_edit_actions :=
        if is_action_or_chart e
           && match inline_edit_index with
              | Some j => Nat.eqb i j
              | None => false
              end
        then Some (_render_inline_edit ui) else inline_edit_actions in
      render_events_loop ui allow_rewind inline_edit_index (S i) rest
        clicked_index inline_edit_actions
  end.

Definition render_events (ui : Widgets) (allow_rewind : bool)
    (inline_edit_index : option nat) : M (option nat * option Actions) :=
  events <- get_state agent_events ;;
  ret (render_events_loop ui allow_rewind inline_edit_index 0 events None None).

(** The loop shared by [render_pending_approval] and
    [render_pending_edit]: it decodes the arguments of every call to show
    them. *)
Fixpoint render_tool_calls (tcs : list tool_call) : outcome unit :=
  match tcs with
  | [] => Ok tt
  | tc :: rest =>
      match loads_arguments tc with
      | Raised e => Raised e
      | Ok args =>
          let name := fn_name (tc_function tc) in
          let shown :=
            if String.eqb name "QueryMovieDB" then getitem args "code"
            else if String.eqb name "CreateChart"
                 then getitem args "vega_lite_spec"
                 else Ok JNull in
          match shown with
          | Raised e => Raised e
          | Ok _ => render_tool_calls rest
          end
      end
  end.

Definition render_pending_msg : M unit :=
  pending_msg <- get_state agent_pending_message ;;
  tcs <- lift (iter_tool_calls pending_msg) ;;
  lift (render_tool_calls tcs).

Definition render_pending_approval (ui : Widgets) : M (bool * bool * bool) :=
  render_pending_msg ;;
  ret (btn_approve ui, btn_edit ui, btn_reject ui).

Definition render_pending_feedback (ui : Widgets) : M (bool * string) :=
  ret (btn_submit_rejection ui, input_reject_feedback ui).

Definition render_pending_edit (ui : Widgets) : M (bool * string * bool) :=
  render_pending_msg ;;
  ret (btn_submit_edit ui, input_edit_prompt ui, btn_cancel ui).

Definition render_panel (ui : Widgets) : M Actions :=
  phase <- get_state agent_phase ;;
  match phase with
  | idle => ret no_actions
  | thinking | acting =>
      render_events ui false None ;;
      ret no_actions
  | awaiting_approval =>
      render_events ui false None ;;
      r <- render_pending_approval ui ;;
      let '(approved, edited, rejected) := r in
      ret {| approved := Some approved; edited := Some edited;
             rejected := Some rejected;
             edit_submitted := None; edit_prompt := None;
             edit_cancelled := None;
             submitted := None; feedback := None; rewind_index := None |}
  | awaiting_edit =>
      rewrite_index <- get_state agent_rewrite_event_index ;;
      match rewrite_index with
      | Some _ =>
          r <- render_events ui false rewrite_index ;;
          match snd r with
          | Some inline_actions => ret inline_actions
          | None => ret no_actions
          end
      | None =>
          render_events ui false None ;;
          r <- render_pending_edit ui ;;
          let '(submitted, edit_prompt, cancelled) := r in
          ret {| approved := None; edited := None; rejected := None;
                 edit_submitted := Some submitted;
                 edit_prompt := Some edit_prompt;
                 edit_cancelled := Some cancelled;
                 submitted := None; feedback := None; rewind_index := None |}
      end
  | awaiting_feedback =>
      render_events ui false None ;;
      r <- render_pending_feedback ui ;;
      let '(submitted, feedback) := r in
      ret {| approved := None; edited := None; rejected := None;
             edit_submitted := None; edit_prompt := None;
             edit_cancelled := None;
             submitted := Some submitted; feedback := Some feedback;
             rewind_index := None |}
  | done =>
      r <- render_events ui true None ;;
      ret {| approved := None; edited := None; rejected := None;
             edit_submitted := None; edit_prompt := None;
             edit_cancelled := None;
             submitted := None; feedback := None;
             rewind_index := fst r |}
  end.

(** [_get_latest_thought]: the loop over [reversed(events)], and the
    function. The approval and the edit form call it to show the agent's
    intent. *)
Fixpoint latest_thought_loop (reversed_events : list event) : option string :=
  match reversed_events with
  | [] => None
  | Thought thought :: _ => Some thought
  | _ :: rest => latest_thought_loop rest
  end.

Definition _get_latest_thought : M (option string) :=
  events <- get_state agent_events ;;
  ret (latest_thought_loop (rev events)).

(** ** Lifecycle *)

(** One rerun of the script. [st.rerun()] ends the run and is the last
    statement of every branch, so it leaves nothing to model. *)
Definition agent_panel (client : Client) (analyze_button : bool)
    (user_question : string) (filtered_df : dataframe) (show_chart : bool)
    (ui : Widgets) : M unit :=
  (if analyze_button && truthy user_question
   then restart_agent user_question filtered_df show_chart
   else ret tt) ;;
  actions <- render_panel ui ;;
  phase <- get_state agent_phase ;;
  match phase with
  | thinking | acting => run_step client
  | awaiting_approval =>
      if get_flag (approved actions) then execute_pending_tools
      else if get_flag (edited actions) then
        set_state set_agent_phase awaiting_edit
      else if get_flag (rejected actions) then
        set_state set_agent_phase awaiting_feedback
      else ret tt
  | awaiting_edit =>
      if get_flag (edit_cancelled actions) then
        pending_msg <- get_state agent_pending_message ;;
        if bool_decide (is_Some pending_msg) then
          set_state set_agent_phase awaiting_approval
        else
          set_state set_agent_rewrite_event_index None ;;
          set_state set_agent_phase done
      else if get_flag (edit_submitted actions)
              && get_text (edit_prompt actions) then
        pending_msg <- get_state agent_pending_message ;;
        rewrite_index <- get_state agent_rewrite_event_index ;;
        if bool_decide (is_Some pending_msg) then
          edit_pending_tools (default "" (edit_prompt actions))
        else
          match rewrite_index with
          | Some event_index =>
              rewind_and_edit event_index (default "" (edit_prompt actions))
          | None => ret tt
          end
      else ret tt
  | done =>
      match rewind_index actions with
      | Some i =>
          set_state set_agent_rewrite_event_index (Some i) ;;
          set_state set_agent_phase awaiting_edit
      | None => ret tt
      end
  | awaiting_feedback =>
      if get_flag (submitted actions) then
        reject_pending_tools (default "" (feedback actions))
      else ret tt
  | idle => ret tt
  end.

(** The input of one rerun. *)
Record Rerun : Type := {
  client : Client;
  analyze_button : bool;
  user_question : string;
  filtered_df : dataframe;
  show_chart : bool;
  ui : Widgets;
}.

Definition rerun (r : Rerun) : M unit :=
  agent_panel (client r) (analyze_button r) (user_question r)
    (filtered_df r) (show_chart r) (ui r).

(** The states of a session whose model client always meets [ok]: the
    defaults, and whatever a rerun leaves behind, whether it ended
    normally or with an exception. *)
Inductive reachable_with (ok : Client -> Prop) : AgentState -> Prop :=
| reachable_default : reachable_with ok DEFAULT_STATE
| reachable_rerun (r : Rerun) (s : AgentState) :
    ok (client r) ->
    reachable_with ok s -> reachable_with ok (exec (rerun r) s).

(** The states of a session, whatever the model answers. *)
Definition any_client (c : Client) : Prop := True.
Definition reachable : AgentState -> Prop := reachable_with any_client.

(** The model answers the acting step with at most one call, which is
    what [parallel_tool_calls=False] asks of it. *)
Definition proposes_one_call (c : Client) : Prop :=
  forall messages tools msg,
    create c messages tools = Ok msg ->
    has_tool_calls msg = true ->
    exists tc, tool_calls msg = Some [tc].

(** A session: reruns applied one after the other. *)
Definition session (rs : list Rerun) (s : AgentState) : AgentState :=
  fold_left (fun s r => exec (rerun r) s) rs s.

(** ** The transitions of the state machine

    The operations that a rerun can apply to the state, each under the
    condition the controller and the rendering put on it; the model
    client of a model step meets [ok]. *)
Inductive transition (ok : Client -> Prop) : AgentState -> AgentState -> Prop :=
| new_question q df sc s :
    transition ok s (exec (restart_agent q df sc) s)
| model_step c s :
    ok c ->
    agent_phase s = thinking \/ agent_phase s = acting ->
    transition ok s (exec (run_step c) s)
| approve s :
    agent_phase s = awaiting_approval ->
    eval render_pending_msg s = Ok tt ->
    transition ok s (exec execute_pending_tools s)
| choose_edit s :
    agent_phase s = awaiting_approval ->
    transition ok s (set_agent_phase awaiting_edit s)
| choose_reject s :
    agent_phase s = awaiting_approval ->
    transition ok s (set_agent_phase awaiting_feedback s)
| cancel_edit s :
    agent_phase s = awaiting_edit ->
    is_Some (agent_pending_message s) ->
    transition ok s (set_agent_phase awaiting_approval s)
| cancel_rewind s :
    agent_phase s = awaiting_edit ->
    agent_pending_message s = None ->
    transition ok s
      (set_agent_phase done (set_agent_rewrite_event_index None s))
| submit_edit p s :
    agent_phase s = awaiting_edit ->
    is_Some (agent_pending_message s) ->
    truthy p = true ->
    transition ok s (exec (edit_pending_tools p) s)
| submit_rewind i p s :
    agent_phase s = awaiting_edit ->
    agent_pending_message s = None ->
    agent_rewrite_event_index s = Some i ->
    truthy p = true ->
    transition ok s (exec (rewind_and_edit i p) s)
| select_rewind i e s :
    agent_phase s = done ->
    agent_events s !! i = Some e ->
    is_action_or_chart e = true ->
    transition ok s
      (set_agent_phase awaiting_edit
         (set_agent_rewrite_event_index (Some i) s))
| submit_feedback fb s :
    agent_phase s = awaiting_feedback ->
    transition ok s (exec (reject_pending_tools fb) s).

(** ** What the properties speak about *)

(** The event that an approved call leaves in the log when its tool is
    one of the two the code knows and its arguments decode: an action with
    the query's observation, or a chart with the validator's message. *)
Definition call_event (rewind_point : nat) (df : option dataframe)
    (tc : tool_call) : option event :=
  let name := fn_name (tc_function tc) in
  match json_loads (fn_arguments (tc_function tc)) with
  | Some (JObj fields) =>
      if String.eqb name "QueryMovieDB" then
        match dict_get "code" fields with
        | Some code =>
            Some (Action name code (query_movie_db code df) rewind_point)
        | None => None
        end
      else if String.eqb name "CreateChart" then
        match dict_get "vega_lite_spec" fields with
        | Some spec_str =>
            Some (Chart name spec_str (snd (validate_chart spec_str))
                    rewind_point)
        | None => None
        end
      else None
  | _ => None
  end.

(** The observation text that an action or chart event carries. *)
Definition event_result (e : event) : string :=
  match e with
  | Action _ _ result _ | Chart _ _ result _ => result
  | _ => ""
  end.

(** The chart list is the one derived from the event log. *)
Definition chart_list_derived (s : AgentState) : Prop :=
  agent_chart_specs s = recompute_chart_specs (agent_events s).

(** The proposals awaiting a decision. *)
Definition pending_proposals (s : AgentState) : list chat_message :=
  option_list (agent_pending_message s).

(** Which phases hold a proposal: none outside the three waiting phases,
    one in [awaiting_approval] and [awaiting_feedback], and in
    [awaiting_edit] either one or none (a rewind has no proposal). *)
Definition pending_by_phase (s : AgentState) : Prop :=
  match agent_phase s with
  | idle | thinking | acting | done => agent_pending_message s = None
  | awaiting_approval | awaiting_feedback =>
      exists msg, agent_pending_message s = Some msg
                  /\ has_tool_calls msg = true
  | awaiting_edit =>
      match agent_pending_message s with
      | Some msg => has_tool_calls msg = true
      | None => True
      end
  end.

(** Rewind points never decrease along the log and stay below the length
    of the transcript. *)
Definition rewind_points_ordered (s : AgentState) : Prop :=
  Sorted le (rewind_points (agent_events s))
  /\ Forall (fun rp => rp < length (agent_messages s))
       (rewind_points (agent_events s)).

(** The same with a strict order, and the bound as the design states it. *)
Definition rewind_points_strict (s : AgentState) : Prop :=
  Sorted lt (rewind_points (agent_events s))
  /\ Forall (fun rp => rp <= length (agent_messages s))
       (rewind_points (agent_events s)).

(** The answer of a decision is there and is not the empty text. *)
Definition answer_nonempty (r : Reasoning) : Prop :=
  exists a, answer r = Some a /\ a <> "".

Local Open Scope list_scope.

(** The fields that only a new question writes. *)
Definition same_setup (s s' : AgentState) : Prop :=
  agent_tools s' = agent_tools s /\ agent_df s' = agent_df s.

(** [s'] extends the logs of [s] by [turns], [evs] and [specs] and agrees
    with it on everything else. *)
Definition extends_by (turns : list message) (evs : list event)
    (specs : list chart_spec) (s s' : AgentState) : Prop :=
  agent_messages s' = agent_messages s ++ turns
  /\ agent_events s' = agent_events s ++ evs
  /\ agent_chart_specs s' = agent_chart_specs s ++ specs
  /\ agent_phase s' = agent_phase s
  /\ agent_pending_message s' = agent_pending_message s
  /\ agent_rewrite_event_index s' = agent_rewrite_event_index s
  /\ same_setup s s'.

(** The tool turns of a batch: one for each call, tagged with the call's
    identifier and carrying the observation of its event. *)
Definition tool_turns (tcs : list tool_call) (evs : list event) : list message :=
  zip_with (fun tc ev => ToolTurn (event_result ev) (tc_id tc)) tcs evs.

(** Every operation but a new question and a rewind only appends to the
    transcript and to the event log; the chart list receives what the new
    events derive, and a new event that carries a rewind point carries the
    length the transcript had before the operation, which added at least
    one turn. *)
Definition advances (s s' : AgentState) : Prop :=
  exists turns evs,
    agent_messages s' = agent_messages s ++ turns
    /\ agent_events s' = agent_events s ++ evs
    /\ agent_chart_specs s' = agent_chart_specs s ++ recompute_chart_specs evs
    /\ Forall (fun e => forall rp, rewind_point_of e = Some rp ->
                          rp = length (agent_messages s) /\ turns <> []) evs.

(** How an operation that consumes the proposal ends: normally, with the
    slot cleared and the phase moved on, or with an exception, the slot
    and the phase as they were. *)
Definition consumes (next : phase) {A} (c : M A) (s : AgentState) : Prop :=
  (exists a, eval c s = Ok a
             /\ agent_pending_message (exec c s) = None
             /\ agent_phase (exec c s) = next)
  \/ (exists e, eval c s = Raised e
              /\ agent_pending_message (exec c s) = agent_pending_message s
              /\ agent_phase (exec c s) = agent_phase s).

(** The state that a rewind to event [i], whose rewind point is [rp],
    leaves behind. *)
Definition rewound (i rp : nat) (p : string) (s : AgentState) : AgentState :=
  {| agent_phase := acting;
     agent_events := take i (agent_events s) ++ [Edited p];
     agent_messages := take rp (agent_messages s) ++ [Turn user (rewind_msg p)];
     agent_tools := agent_tools s;
     agent_df := agent_df s;
     agent_chart_specs := recompute_chart_specs (take i (agent_events s));
     agent_pending_message := agent_pending_message s;
     agent_rewrite_event_index := None |}.

(** The turns that a cut at [rewind_point] removes begin with one
    proposal followed by one tool turn for each of its calls, among them
    the turn that carries the observation of the event [ev]. *)
Definition removes_proposal_and_outputs (ev : event) (rewind_point : nat)
    (messages : list message) : Prop :=
  exists msg tcs outputs later,
    drop rewind_point messages = Proposal (Some msg) :: outputs ++ later
    /\ tool_calls msg = Some tcs
    /\ Forall2 (fun tc m => exists r, m = ToolTurn r (tc_id tc)) tcs outputs
    /\ exists tc, tc ∈ tcs /\ ToolTurn (event_result ev) (tc_id tc) ∈ outputs.

(** Every action and chart event of the log finds, at its rewind point,
    a proposal of one call and, right after it, the tool turn with the
    event's observation. *)
Definition proposals_in_place (s : AgentState) : Prop :=
  forall i ev rp,
    agent_events s !! i = Some ev ->
    rewind_point_of ev = Some rp ->
    exists msg tc,
      tool_calls msg = Some [tc]
      /\ agent_messages s !! rp = Some (Proposal (Some msg))
      /\ agent_messages s !! (S rp)
         = Some (ToolTurn (event_result ev) (tc_id tc)).

(** The pending proposal, when there is one, has one call. *)
Definition pending_one_call (s : AgentState) : Prop :=
  forall msg, agent_pending_message s = Some msg ->
              exists tc, tool_calls msg = Some [tc].

(** Growth of both logs by turns and by events that carry no rewind
    point. *)
Definition grows_plain (s s' : AgentState) : Prop :=
  exists turns evs,
    agent_messages s' = agent_messages s ++ turns
    /\ agent_events s' = agent_events s ++ evs
    /\ Forall (fun e => rewind_point_of e = None) evs.

(** The invariant of the sessions in which every proposal has one call. *)
Definition one_call_invariant (s : AgentState) : Prop :=
  pending_one_call s
  /\ proposals_in_place s
  /\ Sorted lt (rewind_points (agent_events s)).


(** The claim about the thinking step, as the design states it. *)
Definition thinking_step_as_stated (c : Client) (s : AgentState) : Prop :=
  forall r,
    agent_phase s = thinking ->
    parse c (agent_messages s) = Ok r ->
    let s' := exec (run_step c) s in
    agent_messages s' = agent_messages s ++ [Turn assistant (reason r)]
    /\ (use_tool r = false ->
        answer_nonempty r
        /\ agent_events s' = agent_events s ++ [Answer (reason r) (answer r)]
        /\ agent_phase s' = done)
    /\ (use_tool r = true ->
        agent_events s' = agent_events s ++ [Thought (reason r)]
        /\ agent_phase s' = acting).

(** The claim about a rewind, as the design states it: the cut at the
    rewind point of the chosen event removes that event's proposal and its
    tool outputs. *)
Definition rewind_removes_proposal (i : nat) (s : AgentState) : Prop :=
  forall ev rp,
    agent_events s !! i = Some ev ->
    rewind_point_of ev = Some rp ->
    removes_proposal_and_outputs ev rp (agent_messages s).



(** *** Further notions *)

(** The state that a new question leaves: a fresh run, and the rewind
    target as it was ([restart_agent] does not write it). *)
Definition fresh_run (user_question : string) (filtered_df : dataframe)
    (show_chart : bool) (rewrite_event_index : option nat) : AgentState :=
  {| agent_phase := thinking;
     agent_events := [];
     agent_messages :=
       [Turn system (if show_chart
                     then (system_content_base ++ system_content_chart)%string
                     else system_content_base);
        Turn user user_question];
     agent_tools := if show_chart then get_tools filtered_df ++ [get_chart_tool]
                    else get_tools filtered_df;
     agent_df := Some filtered_df;
     agent_chart_specs := [];
     agent_pending_message := None;
     agent_rewrite_event_index := rewrite_event_index |}.

(** Tool turns that answer a leading part of the calls of a proposal, in
    the order of the calls, each tagged with the identifier of its call. *)
Inductive answers_calls : list tool_call -> list message -> Prop :=
| answers_none tcs : answers_calls tcs []
| answers_next tc tcs r outputs :
    answers_calls tcs outputs ->
    answers_calls (tc :: tcs) (ToolTurn r (tc_id tc) :: outputs).

(** A transcript made of plain turns and of blocks, a block being a
    proposal with calls followed by tool turns that answer a leading part
    of them: no tool turn without the proposal it answers, and no entry
    that is not a message. *)
Inductive well_formed : list message -> Prop :=
| well_formed_nil : well_formed []
| well_formed_turn r text rest :
    well_formed rest -> well_formed (Turn r text :: rest)
| well_formed_block msg tcs outputs rest :
    tool_calls msg = Some tcs ->
    tcs <> [] ->
    answers_calls tcs outputs ->
    well_formed rest ->
    well_formed (Proposal (Some msg) :: outputs ++ rest).

(** [e["thought"]] of the events whose type is ["thought"]. *)
Definition thought_of (e : event) : option string :=
  match e with
  | Thought thought => Some thought
  | _ => None
  end.

Definition is_answer (e : event) : bool :=
  match e with
  | Answer _ _ => true
  | _ => false
  end.

(** No button is reported as clicked. *)
Definition no_button (w : Widgets) : Prop :=
  btn_approve w = false /\ btn_edit w = false /\ btn_reject w = false
  /\ btn_submit_edit w = false /\ btn_cancel w = false
  /\ btn_submit_rejection w = false
  /\ forall i, btn_rewind w i = false.

(** The phases in which the script works on its own; in the others it
    waits for the user. *)
Definition works_alone (ph : phase) : bool :=
  match ph with
  | thinking | acting => true
  | _ => false
  end.

(** While the edit form waits for a rewind (no proposal is pending), the
    target is there and points at an action or a chart. *)
Definition rewind_target_valid (s : AgentState) : Prop :=
  agent_phase s = awaiting_edit ->
  agent_pending_message s = None ->
  exists i e, agent_rewrite_event_index s = Some i
              /\ agent_events s !! i = Some e
              /\ is_action_or_chart e = true.

(** An answer event is the last event of the log, and the run is then
    over: the phase is [done], or [awaiting_edit] for a rewind. *)
Definition answer_is_last (s : AgentState) : Prop :=
  forall i th a,
    agent_events s !! i = Some (Answer th a) ->
    S i = length (agent_events s)
    /\ (agent_phase s = done
        \/ (agent_phase s = awaiting_edit /\ agent_pending_message s = None)).

(** The transcript is well formed, and so is what a cut at any recorded
    rewind point leaves. *)
Definition transcript_well_formed (s : AgentState) : Prop :=
  well_formed (agent_messages s)
  /\ forall rp, rp ∈ rewind_points (agent_events s) ->
                well_formed (take rp (agent_messages s)).

(** The thoughts of a log, in log order. *)
Definition thoughts (events : list event) : list string :=
  omap thought_of events.

(** Whenever a proposal is being made or decided, the log holds a
    thought; and every action or chart event has a thought before it. *)
Definition intent_recorded (s : AgentState) : Prop :=
  (agent_phase s = acting \/ is_Some (agent_pending_message s) ->
   thoughts (agent_events s) <> [])
  /\ forall i e, agent_events s !! i = Some e ->
                 is_action_or_chart e = true ->
                 thoughts (take i (agent_events s)) <> [].

End AgentPanel.

(** ** A sample world and sample sessions

    A small world to run the definitions in: the tools are stubs, and
    [json_loads] decodes the argument texts that the sample sessions use
    the way [json.loads] does (it is not asked about any other text). *)

Module Sample.

Definition dq : string := String (Ascii.ascii_of_nat 34) EmptyString.

(** [{"code": "<code>"}] and [{"vega_lite_spec": "<spec>"}] *)
Definition args_code (code : string) : string :=
  "{" ++ dq ++ "code" ++ dq ++ ": " ++ dq ++ code ++ dq ++ "}".
Definition args_spec (spec : string) : string :=
  "{" ++ dq ++ "vega_lite_spec" ++ dq ++ ": " ++ dq ++ spec ++ dq ++ "}".

Definition mean_code : string := "df.rating.mean()".
Definition median_code : string := "df.rating.median()".
Definition bar_spec : string := "bar chart of rating by year".
Definition bad_spec : string := "not a chart".

Definition loads (text : string) : option json :=
  if String.eqb text "{}" then Some (JObj [])
  else if String.eqb text (args_code mean_code)
  then Some (JObj [("code", JStr mean_code)])
  else if String.eqb text (args_code median_code)
  then Some (JObj [("code", JStr median_code)])
  else if String.eqb text (args_spec bar_spec)
  then Some (JObj [("vega_lite_spec", JStr bar_spec)])
  else if String.eqb text (args_spec bad_spec)
  then Some (JObj [("vega_lite_spec", JStr bad_spec)])
  else None.

Definition query (code : json) (df : option unit) : string :=
  match code with
  | JStr c => if String.eqb c mean_code then "7.1" else "7.3"
  | _ => "Error: code must be a string"
  end.

Definition validate (spec_str : json) : option string * string :=
  match spec_str with
  | JStr spec =>
      if String.eqb spec bar_spec then (Some spec, "Chart created successfully.")
      else (None, "Error: invalid specification")
  | _ => (None, "Error: invalid specification")
  end.

Definition world : World := {|
  tool_schema := string;
  dataframe := unit;
  chart_spec := string;
  json_loads := loads;
  get_tools := fun _ => ["QueryMovieDB"];
  get_chart_tool := "CreateChart";
  query_movie_db := query;
  validate_chart := validate;
|}.

#[local] Existing Instance world.

Definition call (id name arguments : string) : tool_call :=
  {| tc_id := id;
     tc_function := {| fn_name := name; fn_arguments := arguments |} |}.

Definition proposal (tcs : list tool_call) : chat_message :=
  {| content := None; tool_calls := Some tcs |}.

Definition query_mean : tool_call := call "call_1" "QueryMovieDB" (args_code mean_code).
Definition query_median : tool_call := call "call_2" "QueryMovieDB" (args_code median_code).
Definition chart_bar : tool_call := call "call_3" "CreateChart" (args_spec bar_spec).
Definition chart_bad : tool_call := call "call_4" "CreateChart" (args_spec bad_spec).
Definition unknown_tool : tool_call := call "call_5" "SendEmail" "{}".
(** A call whose arguments are not valid JSON. *)
Definition garbled_call : tool_call := call "call_6" "QueryMovieDB" "{code".

(** A client that gives the same decision and the same message whatever
    it is sent. *)
Definition client_of (decision : outcome Reasoning) (msg : outcome chat_message)
  : Client :=
  {| parse := fun _ => decision; create := fun _ _ => msg |}.

Definition decides_tool : Client :=
  client_of (Ok {| reason := "I need to query the data."; use_tool := true;
                   answer := None |})
            (Raised ModelCallError).
Definition decides_answer : Client :=
  client_of (Ok {| reason := "I have the result."; use_tool := false;
                   answer := Some "The average rating is 7.1" |})
            (Raised ModelCallError).
Definition decides_no_answer : Client :=
  client_of (Ok {| reason := "I have the result."; use_tool := false;
                   answer := None |})
            (Raised ModelCallError).
Definition proposes (tcs : list tool_call) : Client :=
  client_of (Raised ModelCallError) (Ok (proposal tcs)).

Definition no_click : Widgets := {|
  btn_approve := false; btn_edit := false; btn_reject := false;
  btn_submit_edit := false; btn_cancel := false;
  btn_submit_rejection := false; btn_rewind := fun _ => false;
  input_edit_prompt := ""; input_reject_feedback := "";
|}.

(** The reruns of a session: a new question, a rerun without any click
    (the model works), and the clicks. *)
Definition ask (question : string) (c : Client) : Rerun :=
  {| client := c; analyze_button := true; user_question := question;
     filtered_df := tt; show_chart := true; ui := no_click |}.

Definition click (c : Client) (w : Widgets) : Rerun :=
  {| client := c; analyze_button := false; user_question := "";
     filtered_df := tt; show_chart := true; ui := w |}.

Definition work (c : Client) : Rerun := click c no_click.

Definition click_approve : Rerun :=
  click decides_tool
    {| btn_approve := true; btn_edit := false; btn_reject := false;
       btn_submit_edit := false; btn_cancel := false;
       btn_submit_rejection := false; btn_rewind := fun _ => false;
       input_edit_prompt := ""; input_reject_feedback := "" |}.

Definition click_edit : Rerun :=
  click decides_tool
    {| btn_approve := false; btn_edit := true; btn_reject := false;
       btn_submit_edit := false; btn_cancel := false;
       btn_submit_rejection := false; btn_rewind := fun _ => false;
       input_edit_prompt := ""; input_reject_feedback := "" |}.

Definition click_rewind (i : nat) : Rerun :=
  click decides_tool
    {| btn_approve := false; btn_edit := false; btn_reject := false;
       btn_submit_edit := false; btn_cancel := false;
       btn_submit_rejection := false; btn_rewind := Nat.eqb i;
       input_edit_prompt := ""; input_reject_feedback := "" |}.

Definition submit_prompt (prompt : string) : Rerun :=
  click decides_tool
    {| btn_approve := false; btn_edit := false; btn_reject := false;
       btn_submit_edit := true; btn_cancel := false;
       btn_submit_rejection := false; btn_rewind := fun _ => false;
       input_edit_prompt := prompt; input_reject_feedback := "" |}.

Definition click_reject : Rerun :=
  click decides_tool
    {| btn_approve := false; btn_edit := false; btn_reject := true;
       btn_submit_edit := false; btn_cancel := false;
       btn_submit_rejection := false; btn_rewind := fun _ => false;
       input_edit_prompt := ""; input_reject_feedback := "" |}.

Definition click_cancel : Rerun :=
  click decides_tool
    {| btn_approve := false; btn_edit := false; btn_reject := false;
       btn_submit_edit := false; btn_cancel := true;
       btn_submit_rejection := false; btn_rewind := fun _ => false;
       input_edit_prompt := ""; input_reject_feedback := "" |}.

Definition submit_rejection (feedback : string) : Rerun :=
  click decides_tool
    {| btn_approve := false; btn_edit := false; btn_reject := false;
       btn_submit_edit := false; btn_cancel := false;
       btn_submit_rejection := true; btn_rewind := fun _ => false;
       input_edit_prompt := ""; input_reject_feedback := feedback |}.

(** A question, a decision to use a tool, and a proposal awaiting
    approval. *)
Definition proposed (tcs : list tool_call) : AgentState :=
  session [ask "average rating?" decides_tool; work (proposes tcs)]
    DEFAULT_STATE.

(** The proposal approved and executed. *)
Definition executed (tcs : list tool_call) : AgentState :=
  session [click_approve] (proposed tcs).

(** The run finished with an answer. *)
Definition answered (tcs : list tool_call) : AgentState :=
  session [work decides_answer] (executed tcs).

(** A batch of two queries, answered; then the second action rewound, and
    the model ending the run without a new proposal. *)
Definition rewound_into_batch : AgentState :=
  session [click_rewind 2; submit_prompt "use median instead";
           work (proposes [])]
    (answered [query_mean; query_median]).

(** A pending proposal edited, re-proposed and approved. *)
Definition edited_then_approved : AgentState :=
  session [click_edit; submit_prompt "filter to 2020+";
           work (proposes [query_median]); click_approve]
    (proposed [query_mean]).

(** A run answered, its action chosen for a rewind. *)
Definition rewind_chosen : AgentState :=
  session [click_rewind 1] (answered [query_mean]).

(** A rewind chosen and left open, a new question asked, and "Edit"
    clicked for the proposal of the new run: the rewind target of the old
    run is still set, and the new log has one event. *)
Definition stale_rewind_target : AgentState :=
  session [ask "median rating?" decides_tool; work (proposes [query_median]);
           click_edit]
    rewind_chosen.

(** A proposal refused, the feedback form open. *)
Definition rejecting : AgentState :=
  session [click_reject] (proposed [query_mean]).

End Sample.

(** ** Properties *)

Section Properties.

Context `{World}.

Local Open Scope list_scope.

Implicit Types (s : AgentState) (tcs : list tool_call) (tc : tool_call).

(** *** Reasoning about the monad *)

Lemma exec_bind {A B} (c : M A) (k : A -> M B) s :
  exec (bind c k) s =
  match eval c s with
  | Ok a => exec (k a) (exec c s)
  | Raised _ => exec c s
  end.
Proof. unfold exec, eval, bind. destruct (c s) as [[a|e] s']; reflexivity. Qed.

Lemma eval_bind {A B} (c : M A) (k : A -> M B) s :
  eval (bind c k) s =
  match eval c s with
  | Ok a => eval (k a) (exec c s)
  | Raised e => Raised e
  end.
Proof. unfold exec, eval, bind. destruct (c s) as [[a|e] s']; reflexivity. Qed.

Lemma run_eq {A} (c : M A) s : c s = (eval c s, exec c s).
Proof. unfold eval, exec. destruct (c s); reflexivity. Qed.

(** Two states with the same fields are the same state. *)
Lemma state_eq s s' :
  agent_phase s = agent_phase s' ->
  agent_events s = agent_events s' ->
  agent_messages s = agent_messages s' ->
  agent_tools s = agent_tools s' ->
  agent_df s = agent_df s' ->
  agent_chart_specs s = agent_chart_specs s' ->
  agent_pending_message s = agent_pending_message s' ->
  agent_rewrite_event_index s = agent_rewrite_event_index s' ->
  s = s'.
Proof. destruct s, s'; simpl; intros; congruence. Qed.

Lemma extends_by_nil s : extends_by [] [] [] s s.
Proof. unfold extends_by, same_setup. rewrite !app_nil_r. tauto. Qed.

Lemma extends_by_trans t1 e1 c1 t2 e2 c2 s1 s2 s3 :
  extends_by t1 e1 c1 s1 s2 -> extends_by t2 e2 c2 s2 s3 ->
  extends_by (t1 ++ t2) (e1 ++ e2) (c1 ++ c2) s1 s3.
Proof.
  unfold extends_by, same_setup.
  intros (? & ? & ? & ? & ? & ? & ? & ?) (? & ? & ? & ? & ? & ? & ? & ?).
  rewrite !app_assoc. repeat split; congruence.
Qed.

Ltac unfold_monad :=
  unfold exec, eval, bind, ret, lift, raise, get_state, set_state,
    append_message, append_event, append_chart_spec in *.

Ltac solve_extends :=
  unfold extends_by, same_setup; simpl; rewrite ?app_nil_r;
  repeat split; reflexivity.

(** *** The chart list derived from a log *)

Lemma recompute_chart_specs_app (l1 l2 : list event) :
  recompute_chart_specs (l1 ++ l2)
  = recompute_chart_specs l1 ++ recompute_chart_specs l2.
Proof.
  unfold recompute_chart_specs. rewrite omap_app, map_app, omap_app.
  reflexivity.
Qed.

Lemma rewind_points_app (l1 l2 : list event) :
  rewind_points (l1 ++ l2) = rewind_points l1 ++ rewind_points l2.
Proof. unfold rewind_points. apply omap_app. Qed.

(** *** One approved call *)

(** Whatever way the body of the loop ends, it has added at most one
    tool turn and one event, the event being an action or a chart stamped
    with the rewind point, and the chart list has received what the new
    event derives. *)
Lemma execute_call_extends rp df tc res s :
  exists turns evs,
    extends_by turns evs (recompute_chart_specs evs) s
      (exec (execute_call rp df tc res) s)
    /\ Forall (fun e => rewind_point_of e = Some rp) evs.
Proof.
  unfold execute_call, loads_arguments.
  destruct (json_loads _) as [args|];
    [|exists [], []; split; [apply extends_by_nil | constructor]].
  destruct (String.eqb _ "QueryMovieDB").
  { destruct (getitem args "code") as [code|e] eqn:Hc.
    - exists [ToolTurn (query_movie_db code df) (tc_id tc)],
        [Action (fn_name (tc_function tc)) code (query_movie_db code df) rp].
      unfold_monad. rewrite Hc. simpl. split; [solve_extends | repeat constructor].
    - exists [], []. unfold_monad. rewrite Hc. simpl.
      split; [apply extends_by_nil | constructor]. }
  destruct (String.eqb _ "CreateChart").
  { destruct (getitem args "vega_lite_spec") as [spec_str|e] eqn:Hc.
    - destruct (validate_chart spec_str) as [spec r] eqn:Hv.
      exists [ToolTurn r (tc_id tc)],
        [Chart (fn_name (tc_function tc)) spec_str r rp].
      unfold_monad. rewrite Hc. simpl. rewrite Hv.
      unfold recompute_chart_specs. simpl. rewrite Hv. simpl.
      destruct spec; simpl; (split; [solve_extends | repeat constructor]).
    - exists [], []. unfold_monad. rewrite Hc. simpl.
      split; [apply extends_by_nil | constructor]. }
  destruct res as [r|].
  - exists [ToolTurn r (tc_id tc)], []. unfold_monad. simpl.
    split; [solve_extends | constructor].
  - exists [], []. unfold_monad. simpl.
    split; [apply extends_by_nil | constructor].
Qed.

Lemma execute_loop_extends rp df tcs : forall res s,
  exists turns evs,
    extends_by turns evs (recompute_chart_specs evs) s
      (exec (execute_loop rp df tcs res) s)
    /\ Forall (fun e => rewind_point_of e = Some rp) evs.
Proof.
  induction tcs as [|tc rest IH]; intros res s.
  - exists [], []. split; [apply extends_by_nil | constructor].
  - simpl. rewrite exec_bind.
    destruct (execute_call_extends rp df tc res s) as (t1 & e1 & H1 & F1).
    destruct (eval _ s) as [res'|e].
    + destruct (IH res' (exec (execute_call rp df tc res) s))
        as (t2 & e2 & H2 & F2).
      exists (t1 ++ t2), (e1 ++ e2). split.
      * rewrite recompute_chart_specs_app. eapply extends_by_trans; eauto.
      * apply Forall_app; auto.
    + exists t1, e1. auto.
Qed.

(** When the call names one of the two tools and its arguments decode,
    the body of the loop returns normally, having added the tool turn
    that carries the observation, and the event. *)
Lemma execute_call_ok rp df tc ev res s :
  call_event rp df tc = Some ev ->
  eval (execute_call rp df tc res) s = Ok (Some (event_result ev))
  /\ extends_by [ToolTurn (event_result ev) (tc_id tc)] [ev]
       (recompute_chart_specs [ev]) s (exec (execute_call rp df tc res) s).
Proof.
  unfold call_event, execute_call, loads_arguments.
  destruct (json_loads _) as [[| | | | |fields]|]; try discriminate.
  destruct (String.eqb _ "QueryMovieDB").
  { unfold_monad. simpl.
    destruct (dict_get "code" fields) as [code|]; [|discriminate].
    intros [= <-]. simpl. split; [reflexivity | solve_extends]. }
  destruct (String.eqb _ "CreateChart"); [|discriminate].
  unfold_monad. simpl.
  destruct (dict_get "vega_lite_spec" fields) as [spec_str|]; [|discriminate].
  intros [= <-]. simpl.
  unfold recompute_chart_specs. simpl.
  destruct (validate_chart spec_str) as [[spec|] r]; simpl;
    (split; [reflexivity | solve_extends]).
Qed.

Lemma execute_loop_ok rp df tcs : forall evs res s,
  Forall2 (fun tc ev => call_event rp df tc = Some ev) tcs evs ->
  eval (execute_loop rp df tcs res) s = Ok tt
  /\ extends_by (tool_turns tcs evs) evs (recompute_chart_specs evs) s
       (exec (execute_loop rp df tcs res) s).
Proof.
  induction tcs as [|tc rest IH]; intros evs res s Hall; inversion Hall; subst.
  - split; [reflexivity | apply extends_by_nil].
  - simpl. rewrite eval_bind, exec_bind.
    destruct (execute_call_ok rp df tc _ res s H2) as [-> Hext].
    destruct (IH _ (Some (event_result y))
                (exec (execute_call rp df tc res) s) H4) as [-> Hext'].
    split; [reflexivity|].
    apply (extends_by_trans _ _ _ _ _ _ _ _ _ Hext) in Hext'.
    rewrite <- recompute_chart_specs_app in Hext'. exact Hext'.
Qed.

(** *** The loops of rejection and edit *)

Lemma reject_loop_spec fb tcs : forall s,
  eval (reject_loop fb tcs) s = Ok tt
  /\ extends_by
       (map (fun tc => ToolTurn (rejection_msg fb) (tc_id tc)) tcs)
       (map (fun tc => Rejected (fn_name (tc_function tc)) fb) tcs)
       [] s (exec (reject_loop fb tcs) s).
Proof.
  induction tcs as [|tc rest IH]; intros s.
  - split; [reflexivity | apply extends_by_nil].
  - simpl. rewrite !eval_bind, !exec_bind. simpl.
    destruct (IH (exec (append_message (ToolTurn (rejection_msg fb) (tc_id tc)))
                   (exec (append_event
                            (Rejected (fn_name (tc_function tc)) fb)) s)))
      as [-> Hext].
    split; [reflexivity|].
    eapply (extends_by_trans [_] [_] [] _ _ []); [|exact Hext].
    solve_extends.
Qed.

Lemma edit_loop_spec p tcs : forall s,
  eval (edit_loop p tcs) s = Ok tt
  /\ extends_by (map (fun tc => ToolTurn (edit_msg p) (tc_id tc)) tcs)
       [] [] s (exec (edit_loop p tcs) s).
Proof.
  induction tcs as [|tc rest IH]; intros s.
  - split; [reflexivity | apply extends_by_nil].
  - simpl. rewrite !eval_bind, !exec_bind. simpl.
    destruct (IH (exec (append_message (ToolTurn (edit_msg p) (tc_id tc))) s))
      as [-> Hext].
    split; [reflexivity|].
    eapply (extends_by_trans [_] [] [] _ _ []); [|exact Hext].
    solve_extends.
Qed.

(** *** Stepping through a computation *)

Lemma exec_ret {A} (a : A) s : exec (ret a) s = s.
Proof. reflexivity. Qed.
Lemma eval_ret {A} (a : A) s : eval (ret a) s = Ok a.
Proof. reflexivity. Qed.
Lemma exec_lift {A} (o : outcome A) s : exec (lift o) s = s.
Proof. reflexivity. Qed.
Lemma eval_lift {A} (o : outcome A) s : eval (lift o) s = o.
Proof. reflexivity. Qed.
Lemma exec_raise {A} e s : exec (raise (A:=A) e) s = s.
Proof. reflexivity. Qed.
Lemma eval_raise {A} e s : eval (raise (A:=A) e) s = Raised e.
Proof. reflexivity. Qed.
Lemma exec_get_state {A} (key : AgentState -> A) s : exec (get_state key) s = s.
Proof. reflexivity. Qed.
Lemma eval_get_state {A} (key : AgentState -> A) s :
  eval (get_state key) s = Ok (key s).
Proof. reflexivity. Qed.
Lemma exec_set_state {A} (setter : A -> AgentState -> AgentState) v s :
  exec (set_state setter v) s = setter v s.
Proof. reflexivity. Qed.
Lemma eval_set_state {A} (setter : A -> AgentState -> AgentState) v s :
  eval (set_state setter v) s = Ok tt.
Proof. reflexivity. Qed.
Lemma exec_append_message m s :
  exec (append_message m) s = set_agent_messages (agent_messages s ++ [m]) s.
Proof. reflexivity. Qed.
Lemma eval_append_message m s : eval (append_message m) s = Ok tt.
Proof. reflexivity. Qed.
Lemma exec_append_event e s :
  exec (append_event e) s = set_agent_events (agent_events s ++ [e]) s.
Proof. reflexivity. Qed.
Lemma eval_append_event e s : eval (append_event e) s = Ok tt.
Proof. reflexivity. Qed.

Create Rewrite HintDb monad.
Hint Rewrite @exec_bind @eval_bind @exec_ret @eval_ret @exec_lift @eval_lift
  @exec_raise @eval_raise @exec_get_state @eval_get_state
  @exec_set_state @eval_set_state exec_append_message eval_append_message
  exec_append_event eval_append_event : monad.

Ltac step := repeat (autorewrite with monad; cbn beta iota).

(** Reading a field of a state that a setter has just written. *)
Ltac fields :=
  cbn [agent_phase agent_events agent_messages agent_tools agent_df
       agent_chart_specs agent_pending_message agent_rewrite_event_index
       set_agent_phase set_agent_events set_agent_messages set_agent_tools
       set_agent_df set_agent_chart_specs set_agent_pending_message
       set_agent_rewrite_event_index].
Ltac steps := repeat (step; fields).

Lemma advances_refl s : advances s s.
Proof. exists [], []. rewrite !app_nil_r. repeat split; constructor. Qed.

Lemma extends_advances turns evs s s' :
  extends_by turns evs [] s s' ->
  Forall (fun e => rewind_point_of e = None) evs ->
  recompute_chart_specs evs = [] ->
  advances s s'.
Proof.
  intros (Hm & He & Hc & _) Hno Hre. exists turns, evs.
  rewrite Hre. repeat split; try assumption.
  eapply Forall_impl; [exact Hno|]. simpl. intros e -> rp [=].
Qed.

Lemma execute_pending_tools_extends s :
  exists turns evs,
    extends_by (Proposal (agent_pending_message s) :: turns) evs
      (recompute_chart_specs evs) s
      (set_agent_phase (agent_phase s)
         (set_agent_pending_message (agent_pending_message s)
            (exec execute_pending_tools s)))
    /\ Forall (fun e => rewind_point_of e = Some (length (agent_messages s))) evs.
Proof.
  unfold execute_pending_tools. step.
  destruct (iter_tool_calls _) as [tcs|e].
  - step.
    destruct (execute_loop_extends (length (agent_messages s)) (agent_df s) tcs
                None (set_agent_messages
                        (agent_messages s ++ [Proposal (agent_pending_message s)]) s))
      as (turns & evs & Hext & Hrp).
    exists turns, evs. split; [|exact Hrp].
    destruct Hext as (Hm & He & Hc & Hp & Hpm & Hr & Ht & Hd). simpl in *.
    destruct (eval _ _); step; unfold extends_by, same_setup; simpl;
      rewrite Hm, He, Hc, Hr, Ht, Hd, <- app_assoc; repeat split; reflexivity.
  - exists [], []. split; [solve_extends | constructor].
Qed.

Lemma execute_pending_tools_advances s :
  advances s (exec execute_pending_tools s).
Proof.
  destruct (execute_pending_tools_extends s)
    as (turns & evs & (Hm & He & Hc & _) & Hrp).
  simpl in *. eexists _, evs. repeat split; eauto.
  eapply Forall_impl; [exact Hrp|]. simpl. intros e -> rp [= <-].
  split; [reflexivity | discriminate].
Qed.

Lemma execute_pending_tools_consumes s :
  consumes thinking execute_pending_tools s.
Proof.
  unfold consumes, execute_pending_tools. step.
  destruct (iter_tool_calls _) as [tcs|e]; [|right; eauto].
  step.
  destruct (execute_loop_extends (length (agent_messages s)) (agent_df s) tcs
              None (set_agent_messages
                      (agent_messages s ++ [Proposal (agent_pending_message s)]) s))
    as (turns & evs & (_ & _ & _ & Hp & Hpm & _) & _).
  destruct (eval _ _); step; [left | right]; eauto.
Qed.

Lemma recompute_chart_specs_none (evs : list event) :
  Forall (fun e => rewind_point_of e = None) evs ->
  recompute_chart_specs evs = [].
Proof.
  induction 1 as [|e evs He _ IH]; [reflexivity|].
  change (e :: evs) with ([e] ++ evs).
  rewrite recompute_chart_specs_app, IH.
  destruct e; try discriminate; reflexivity.
Qed.

Lemma reject_pending_tools_extends fb s :
  exists turns evs,
    extends_by (Proposal (agent_pending_message s) :: turns) evs [] s
      (set_agent_phase (agent_phase s)
         (set_agent_pending_message (agent_pending_message s)
            (exec (reject_pending_tools fb) s)))
    /\ Forall (fun e => rewind_point_of e = None) evs.
Proof.
  unfold reject_pending_tools. step.
  destruct (iter_tool_calls _) as [tcs|e].
  - step.
    destruct (reject_loop_spec fb tcs
                (set_agent_messages
                   (agent_messages s ++ [Proposal (agent_pending_message s)]) s))
      as (-> & Hm & He & Hc & Hp & Hpm & Hr & Ht & Hd).
    step.
    exists (map (fun tc => ToolTurn (rejection_msg fb) (tc_id tc)) tcs),
      (map (fun tc => Rejected (fn_name (tc_function tc)) fb) tcs).
    split.
    + unfold extends_by, same_setup; simpl in *.
      rewrite Hm, He, Hc, Hr, Ht, Hd, <- app_assoc.
      repeat split; reflexivity.
    + apply Forall_map, Forall_true. reflexivity.
  - exists [], []. split; [solve_extends | constructor].
Qed.

Lemma reject_pending_tools_advances fb s :
  advances s (exec (reject_pending_tools fb) s).
Proof.
  destruct (reject_pending_tools_extends fb s)
    as (turns & evs & (Hm & He & Hc & _) & Hrp).
  simpl in *. eexists _, evs.
  rewrite (recompute_chart_specs_none _ Hrp). repeat split; eauto.
  eapply Forall_impl; [exact Hrp|]. simpl. intros e -> rp [=].
Qed.

Lemma reject_pending_tools_consumes fb s :
  consumes thinking (reject_pending_tools fb) s.
Proof.
  unfold consumes, reject_pending_tools. step.
  destruct (iter_tool_calls _) as [tcs|e]; [|right; eauto].
  step.
  destruct (reject_loop_spec fb tcs
              (set_agent_messages
                 (agent_messages s ++ [Proposal (agent_pending_message s)]) s))
    as (-> & _).
  step. left. eauto.
Qed.

Lemma edit_pending_tools_extends p s :
  exists turns evs,
    extends_by (Proposal (agent_pending_message s) :: turns) evs [] s
      (set_agent_phase (agent_phase s)
         (set_agent_pending_message (agent_pending_message s)
            (exec (edit_pending_tools p) s)))
    /\ Forall (fun e => rewind_point_of e = None) evs.
Proof.
  unfold edit_pending_tools. step.
  destruct (iter_tool_calls _) as [tcs|e].
  - step.
    destruct (edit_loop_spec p tcs
                (set_agent_messages
                   (agent_messages s ++ [Proposal (agent_pending_message s)]) s))
      as (-> & Hm & He & Hc & Hp & Hpm & Hr & Ht & Hd).
    step.
    exists (map (fun tc => ToolTurn (edit_msg p) (tc_id tc)) tcs), [Edited p].
    split.
    + unfold extends_by, same_setup; simpl in *.
      rewrite Hm, He, Hc, Hr, Ht, Hd, <- app_assoc, !app_nil_r.
      repeat split; reflexivity.
    + repeat constructor.
  - exists [], []. split; [solve_extends | constructor].
Qed.

Lemma edit_pending_tools_advances p s :
  advances s (exec (edit_pending_tools p) s).
Proof.
  destruct (edit_pending_tools_extends p s)
    as (turns & evs & (Hm & He & Hc & _) & Hrp).
  simpl in *. eexists _, evs.
  rewrite (recompute_chart_specs_none _ Hrp). repeat split; eauto.
  eapply Forall_impl; [exact Hrp|]. simpl. intros e -> rp [=].
Qed.

Lemma edit_pending_tools_consumes p s :
  consumes acting (edit_pending_tools p) s.
Proof.
  unfold consumes, edit_pending_tools. step.
  destruct (iter_tool_calls _) as [tcs|e]; [|right; eauto].
  step.
  destruct (edit_loop_spec p tcs
              (set_agent_messages
                 (agent_messages s ++ [Proposal (agent_pending_message s)]) s))
    as (-> & _).
  step. left. eauto.
Qed.

Lemma advances_plain turns evs s s' :
  agent_messages s' = agent_messages s ++ turns ->
  agent_events s' = agent_events s ++ evs ->
  agent_chart_specs s' = agent_chart_specs s ->
  Forall (fun e => rewind_point_of e = None) evs ->
  advances s s'.
Proof.
  intros Hm He Hc Hno. exists turns, evs.
  rewrite (recompute_chart_specs_none _ Hno), app_nil_r.
  repeat split; try assumption.
  eapply Forall_impl; [exact Hno|]. simpl. intros e -> rp [=].
Qed.

(** The thinking and the acting step. *)
Lemma run_step_advances c s : advances s (exec (run_step c) s).
Proof.
  unfold run_step. step.
  destruct (agent_phase s); step; try apply advances_refl.
  - destruct (parse c _) as [r|e]; step; [|apply advances_refl].
    destruct (use_tool r); step.
    + apply (advances_plain [Turn assistant (reason r)] [Thought (reason r)]);
        try reflexivity. repeat constructor.
    + apply (advances_plain [Turn assistant (reason r)]
               [Answer (reason r) (answer r)]); try reflexivity.
      repeat constructor.
  - destruct (create c _ _) as [msg|e]; step; [|apply advances_refl].
    destruct (has_tool_calls msg); step;
      apply (advances_plain [] []); simpl; rewrite ?app_nil_r;
      try reflexivity; constructor.
Qed.

(** The control fields after a model step. *)
Lemma run_step_thinking c s :
  agent_phase s = thinking ->
  agent_pending_message (exec (run_step c) s) = agent_pending_message s
  /\ agent_phase (exec (run_step c) s) <> awaiting_approval
  /\ agent_phase (exec (run_step c) s) <> awaiting_feedback
  /\ agent_phase (exec (run_step c) s) <> awaiting_edit.
Proof.
  intros Hp. unfold run_step. step. rewrite Hp. step.
  destruct (parse c _) as [r|e]; step;
    [destruct (use_tool r); step|]; simpl; rewrite ?Hp;
    repeat split; discriminate || reflexivity.
Qed.

Lemma run_step_acting c s :
  agent_phase s = acting ->
  (agent_pending_message (exec (run_step c) s) = agent_pending_message s
   /\ (agent_phase (exec (run_step c) s) = acting
       \/ agent_phase (exec (run_step c) s) = done))
  \/ (exists msg, create c (agent_messages s) (agent_tools s) = Ok msg
                 /\ has_tool_calls msg = true
                 /\ agent_pending_message (exec (run_step c) s) = Some msg
                 /\ agent_phase (exec (run_step c) s) = awaiting_approval).
Proof.
  intros Hp. unfold run_step. step. rewrite Hp. step.
  destruct (create c _ _) as [msg|e]; step; [|left; auto].
  destruct (has_tool_calls msg) eqn:Hc; step; simpl; [right | left]; eauto.
Qed.

(** A rewind either raises before it has touched anything, or cuts both
    logs, derives the chart list again, and appends the edit. *)
Lemma rewind_and_edit_spec i p s :
  (exists e, eval (rewind_and_edit i p) s = Raised e
             /\ exec (rewind_and_edit i p) s = s
             /\ forall ev rp, agent_events s !! i = Some ev ->
                              rewind_point_of ev = Some rp -> False)
  \/ (exists ev rp,
        agent_events s !! i = Some ev /\ rewind_point_of ev = Some rp
        /\ eval (rewind_and_edit i p) s = Ok tt
        /\ exec (rewind_and_edit i p) s =
           {| agent_phase := acting;
              agent_events := take i (agent_events s) ++ [Edited p];
              agent_messages :=
                take rp (agent_messages s) ++ [Turn user (rewind_msg p)];
              agent_tools := agent_tools s;
              agent_df := agent_df s;
              agent_chart_specs :=
                recompute_chart_specs (take i (agent_events s));
              agent_pending_message := agent_pending_message s;
              agent_rewrite_event_index := None |}).
Proof.
  unfold rewind_and_edit. step.
  destruct (agent_events s !! i) as [ev|] eqn:Hev; step.
  - destruct (rewind_point_of ev) as [rp|] eqn:Hrp; step.
    + right. exists ev, rp. repeat split; auto.
    + left. eexists. repeat split. intros ev' rp' [= <-]. congruence.
  - left. eexists. repeat split. intros ev' rp' [=].
Qed.

Lemma restart_agent_spec q df sc s :
  eval (restart_agent q df sc) s = Ok tt
  /\ exec (restart_agent q df sc) s =
     {| agent_phase := thinking;
        agent_events := [];
        agent_messages :=
          [Turn system (if sc then (system_content_base ++ system_content_chart)%string
                        else system_content_base);
           Turn user q];
        agent_tools := if sc then get_tools df ++ [get_chart_tool]
                       else get_tools df;
        agent_df := Some df;
        agent_chart_specs := [];
        agent_pending_message := None;
        agent_rewrite_event_index := agent_rewrite_event_index s |}.
Proof. split; reflexivity. Qed.

(** *** Rendering *)

Lemma exec_render_events ui ar iei s : exec (render_events ui ar iei) s = s.
Proof. reflexivity. Qed.

Lemma eval_render_events ui ar iei s :
  eval (render_events ui ar iei) s
  = Ok (render_events_loop ui ar iei 0 (agent_events s) None None).
Proof. reflexivity. Qed.

Lemma exec_render_pending_msg s : exec render_pending_msg s = s.
Proof.
  unfold render_pending_msg. step.
  destruct (iter_tool_calls _); step; reflexivity.
Qed.

Hint Rewrite exec_render_events eval_render_events exec_render_pending_msg
  : monad.

(** Rendering reads the state and never writes it. *)
Lemma exec_render_panel ui s : exec (render_panel ui) s = s.
Proof.
  unfold render_panel, render_pending_approval, render_pending_edit,
    render_pending_feedback.
  step. destruct (agent_phase s); step; try reflexivity.
  - destruct (eval render_pending_msg s); step; reflexivity.
  - destruct (agent_rewrite_event_index s); step.
    + destruct (snd _); reflexivity.
    + destruct (eval render_pending_msg s); step; reflexivity.
Qed.

(** The button next to an event is offered for actions and charts only. *)
Lemma render_events_loop_clicked ui ar iei events : forall k ci ia i,
  fst (render_events_loop ui ar iei k events ci ia) = Some i ->
  ci = Some i
  \/ exists e, k <= i /\ events !! (i - k) = Some e
               /\ is_action_or_chart e = true.
Proof.
  induction events as [|e rest IH]; intros k ci ia i; simpl.
  - auto.
  - intros Hc. apply IH in Hc as [Hc | (e' & Hle & Hl & Ha)].
    + destruct (is_action_or_chart e) eqn:Ha; simpl in Hc; [|auto].
      destruct (ar && btn_rewind ui k); [|auto].
      injection Hc as <-. right. exists e. rewrite Nat.sub_diag. auto.
    + right. exists e'. split; [lia|]. split; [|exact Ha].
      replace (i - k) with (S (i - S k)) by lia. exact Hl.
Qed.

(** What the controller learns from a rendering that did not raise. *)
Lemma eval_render_panel_ok ui s a :
  eval (render_panel ui) s = Ok a ->
  match agent_phase s with
  | awaiting_approval => eval render_pending_msg s = Ok tt
  | done =>
      forall i, rewind_index a = Some i ->
        exists e, agent_events s !! i = Some e /\ is_action_or_chart e = true
  | _ => True
  end.
Proof.
  unfold render_panel, render_pending_approval. step.
  destruct (agent_phase s); step; try exact (fun _ => I).
  - destruct (eval render_pending_msg s) as [[]|]; step;
      [intros _; reflexivity | discriminate].
  - intros [= <-] i Hi. simpl in Hi.
    apply render_events_loop_clicked in Hi as [[=] | (e & _ & Hl & Ha)].
    rewrite Nat.sub_0_r in Hl. eauto.
Qed.

(** *** The controller performs transitions of the state machine *)

Lemma agent_panel_restart c q df sc ui s :
  truthy q = true ->
  exec (agent_panel c true q df sc ui) s
  = exec (agent_panel c false q df sc ui) (exec (restart_agent q df sc) s).
Proof. intros Hq. unfold agent_panel. rewrite Hq. reflexivity. Qed.

Lemma agent_panel_no_restart c b q df sc ui s :
  b && truthy q = false ->
  exec (agent_panel c b q df sc ui) s = exec (agent_panel c false q df sc ui) s.
Proof. intros Hq. unfold agent_panel. rewrite Hq. reflexivity. Qed.

Lemma agent_panel_transition (ok : Client -> Prop) c q df sc ui s :
  ok c ->
  exec (agent_panel c false q df sc ui) s = s
  \/ transition ok s (exec (agent_panel c false q df sc ui) s).
Proof.
  intros Hok.
  unfold agent_panel. cbn [andb]. step. rewrite exec_render_panel.
  destruct (eval (render_panel ui) s) as [a|e] eqn:Hr; [|left; reflexivity].
  apply eval_render_panel_ok in Hr. step.
  destruct (agent_phase s) eqn:Hp.
  - left; reflexivity.
  - right. apply model_step; auto.
  - right. apply model_step; auto.
  - destruct (get_flag (approved a)); [right; apply approve; auto|].
    destruct (get_flag (edited a)); [right; apply choose_edit; auto|].
    destruct (get_flag (rejected a)); [right; apply choose_reject; auto|].
    left; reflexivity.
  - destruct (get_flag (edit_cancelled a)); step.
    { right. destruct (agent_pending_message s) as [msg|] eqn:Hm; simpl; step.
      - apply cancel_edit; [auto | rewrite Hm; eauto].
      - apply (cancel_rewind ok s); auto. }
    destruct (get_flag (edit_submitted a) && get_text (edit_prompt a)) eqn:Hs;
      [|left; reflexivity].
    apply andb_prop in Hs as [_ Hs]. step.
    assert (truthy (default "" (edit_prompt a)) = true) as Ht
      by (destruct (edit_prompt a); [exact Hs | discriminate]).
    destruct (agent_pending_message s) as [msg|] eqn:Hm; simpl.
    + right. apply submit_edit; [auto | rewrite Hm; eauto | auto].
    + destruct (agent_rewrite_event_index s) eqn:Hi; [|left; reflexivity].
      right. apply submit_rewind; auto.
  - destruct (get_flag (submitted a)); [|left; reflexivity].
    right. apply submit_feedback; auto.
  - destruct (rewind_index a) as [i|] eqn:Hi; [|left; reflexivity]. step.
    destruct (Hr i eq_refl) as (e & He & Ha).
    right. eapply select_rewind; eauto.
Qed.

Lemma agent_panel_transitions (ok : Client -> Prop) c q df sc ui s :
  ok c ->
  rtc (transition ok) s (exec (agent_panel c false q df sc ui) s).
Proof.
  intros Hok.
  destruct (agent_panel_transition ok c q df sc ui s Hok) as [-> | Ht];
    [constructor | apply rtc_once, Ht].
Qed.

Lemma rerun_transitions (ok : Client -> Prop) r s :
  ok (client r) -> rtc (transition ok) s (exec (rerun r) s).
Proof.
  intros Hok. unfold rerun.
  destruct (analyze_button r && truthy (user_question r)) eqn:Hb.
  - apply andb_prop in Hb as [-> Hq]. rewrite agent_panel_restart by exact Hq.
    eapply rtc_l; [apply new_question | apply agent_panel_transitions, Hok].
  - rewrite agent_panel_no_restart by exact Hb.
    apply agent_panel_transitions, Hok.
Qed.

(** Whatever the state machine preserves holds in every state of a
    session. *)
Lemma reachable_with_ind_transition (ok : Client -> Prop)
    (P : AgentState -> Prop) :
  P DEFAULT_STATE ->
  (forall s s', P s -> transition ok s s' -> P s') ->
  forall s, reachable_with ok s -> P s.
Proof.
  intros H0 Hstep s Hs. induction Hs as [|r s Hok _ IH]; [exact H0|].
  pose proof (rerun_transitions ok r s Hok) as Hrtc.
  induction Hrtc as [|x y z Hxy _ IHz]; eauto.
Qed.

Lemma reachable_ind_transition (P : AgentState -> Prop) :
  P DEFAULT_STATE ->
  (forall s s', P s -> transition any_client s s' -> P s') ->
  forall s, reachable s -> P s.
Proof. apply reachable_with_ind_transition. Qed.

(** A session of a model that meets [ok] is a session. *)
Lemma reachable_with_reachable (ok : Client -> Prop) s :
  reachable_with ok s -> reachable s.
Proof.
  induction 1 as [|r s _ _ IH]; [constructor|].
  apply reachable_rerun; [exact I | exact IH].
Qed.

Lemma reachable_with_session (ok : Client -> Prop) rs : forall s,
  Forall (fun r => ok (client r)) rs ->
  reachable_with ok s -> reachable_with ok (session rs s).
Proof.
  induction rs as [|r rs IH]; intros s Hall Hs; [exact Hs|].
  inversion Hall; subst. simpl. apply IH; [assumption|].
  constructor; assumption.
Qed.

Lemma reachable_session rs s : reachable s -> reachable (session rs s).
Proof.
  apply reachable_with_session.
  apply Forall_true. intros r. exact I.
Qed.

(** *** What a transition does to the logs *)

Lemma advances_set_phase ph s : advances s (set_agent_phase ph s).
Proof.
  apply (advances_plain [] []); simpl; rewrite ?app_nil_r;
    try reflexivity; constructor.
Qed.

Lemma transition_logs (ok : Client -> Prop) s s' :
  transition ok s s' ->
  advances s s'
  \/ (agent_events s' = [] /\ agent_chart_specs s' = [])
  \/ (exists i p ev rp,
        agent_events s !! i = Some ev /\ rewind_point_of ev = Some rp
        /\ s' = rewound i rp p s).
Proof.
  destruct 1 as
    [q df sc s | c s Hokc Hph | s Hph Hrender | s Hph | s Hph | s Hph Hsome
     | s Hph Hnone | p s Hph Hsome Htr | i p s Hph Hnone Hidx Htr
     | i e s Hph Hev Hact | fb s Hph].
  - right; left. split; reflexivity.
  - left. apply run_step_advances.
  - left. apply execute_pending_tools_advances.
  - left. apply advances_set_phase.
  - left. apply advances_set_phase.
  - left. apply advances_set_phase.
  - left. apply (advances_plain [] []); simpl; rewrite ?app_nil_r;
      try reflexivity; constructor.
  - left. apply edit_pending_tools_advances.
  - destruct (rewind_and_edit_spec i p s)
      as [(e & _ & -> & _) | (ev & rp & Hev & Hrp & _ & ->)].
    + left. apply advances_refl.
    + right; right. exists i, p, ev, rp. auto.
  - left. apply (advances_plain [] []); simpl; rewrite ?app_nil_r;
      try reflexivity; constructor.
  - left. apply reject_pending_tools_advances.
Qed.

(** *** The chart list *)

Lemma chart_list_derived_transition (ok : Client -> Prop) s s' :
  chart_list_derived s -> transition ok s s' -> chart_list_derived s'.
Proof.
  unfold chart_list_derived. intros Hinv Ht.
  apply transition_logs in Ht
    as [(turns & evs & _ & He & Hc & _) | [[He Hc] | (i & p & ev & rp & _ & _ & ->)]].
  - rewrite Hc, He, recompute_chart_specs_app, Hinv. reflexivity.
  - rewrite He, Hc. reflexivity.
  - simpl. rewrite recompute_chart_specs_app. simpl. rewrite app_nil_r.
    reflexivity.
Qed.

(** *** The rewind points *)

Lemma rewind_points_new n (turns : list message) (evs : list event) :
  Forall (fun e => forall rp, rewind_point_of e = Some rp ->
                     rp = n /\ turns <> []) evs ->
  Forall (fun rp => rp = n /\ turns <> []) (rewind_points evs).
Proof.
  induction 1 as [|e evs He _ IH]; [constructor|].
  unfold rewind_points in *. simpl.
  destruct (rewind_point_of e) as [rp|]; simpl; [|exact IH].
  constructor; auto.
Qed.

Lemma rewind_points_ordered_advances s s' :
  rewind_points_ordered s -> advances s s' -> rewind_points_ordered s'.
Proof.
  intros [Hs Hb] (turns & evs & Hm & He & _ & Hnew).
  apply rewind_points_new in Hnew.
  apply (Sorted_StronglySorted _) in Hs.
  unfold rewind_points_ordered. rewrite He, Hm, rewind_points_app, length_app.
  split.
  - apply StronglySorted_Sorted, StronglySorted_app_2; [|exact Hs|].
    + intros x1 x2 H1 H2.
      rewrite Forall_forall in Hb, Hnew.
      specialize (Hb _ H1). destruct (Hnew _ H2) as [-> _]. lia.
    + induction Hnew as [|rp rps [-> _] Hrest IH]; constructor; [exact IH|].
      eapply Forall_impl; [exact Hrest|]. simpl. intros ? [-> _]. lia.
  - apply Forall_app. split.
    + eapply Forall_impl; [exact Hb|]. simpl. lia.
    + eapply Forall_impl; [exact Hnew|]. simpl. intros rp [-> Hne].
      destruct turns; [congruence | simpl; lia].
Qed.

Lemma rewind_points_take (events : list event) i ev rp :
  events !! i = Some ev -> rewind_point_of ev = Some rp ->
  rewind_points events
  = rewind_points (take i events) ++ rp :: rewind_points (drop (S i) events).
Proof.
  intros Hev Hrp.
  rewrite <- (take_drop_middle events i ev Hev) at 1.
  rewrite rewind_points_app. unfold rewind_points at 2. simpl.
  rewrite Hrp. reflexivity.
Qed.

Lemma rewind_points_ordered_rewound i p ev rp s :
  agent_events s !! i = Some ev -> rewind_point_of ev = Some rp ->
  rewind_points_ordered s -> rewind_points_ordered (rewound i rp p s).
Proof.
  intros Hev Hrp [Hs Hb]. unfold rewind_points_ordered. simpl.
  apply (Sorted_StronglySorted _) in Hs.
  rewrite (rewind_points_take _ _ _ _ Hev Hrp) in Hs, Hb.
  rewrite rewind_points_app. simpl. rewrite app_nil_r.
  apply Forall_app in Hb as [_ Hb]. apply Forall_cons in Hb as [Hb _].
  split.
  - apply StronglySorted_Sorted. eapply StronglySorted_app_1_l. exact Hs.
  - apply Forall_forall. intros x Hx.
    rewrite length_app, length_take. simpl.
    assert (x <= rp); [|lia].
    eapply (StronglySorted_app_1_elem_of le); [exact Hs | exact Hx | left].
Qed.

Lemma rewind_points_ordered_transition (ok : Client -> Prop) s s' :
  rewind_points_ordered s -> transition ok s s' -> rewind_points_ordered s'.
Proof.
  intros Hinv Ht.
  apply transition_logs in Ht
    as [Ha | [[He Hc] | (i & p & ev & rp & Hev & Hrp & ->)]].
  - eapply rewind_points_ordered_advances; eauto.
  - unfold rewind_points_ordered. rewrite He. split; constructor.
  - eapply rewind_points_ordered_rewound; eauto.
Qed.

(** *** The pending slot *)

Lemma pending_by_phase_consumes next {A} (c : M A) s :
  (next = thinking \/ next = acting) ->
  pending_by_phase s -> consumes next c s -> pending_by_phase (exec c s).
Proof.
  unfold pending_by_phase.
  intros Hn Hinv [(a & _ & Hm & Hp) | (e & _ & Hm & Hp)]; rewrite Hm, Hp.
  - destruct Hn as [-> | ->]; reflexivity.
  - exact Hinv.
Qed.

Lemma pending_by_phase_transition (ok : Client -> Prop) s s' :
  pending_by_phase s -> transition ok s s' -> pending_by_phase s'.
Proof.
  intros Hinv Ht.
  destruct Ht as
    [q df sc s | c s Hokc Hph | s Hph Hrender | s Hph | s Hph | s Hph Hsome
     | s Hph Hnone | p s Hph Hsome Htr | i p s Hph Hnone Hidx Htr
     | i e s Hph Hev Hact | fb s Hph].
  - reflexivity.
  - unfold pending_by_phase in *. destruct Hph as [Hp | Hp].
    + destruct (run_step_thinking c s Hp) as (Hm & N1 & N2 & N3).
      rewrite Hp in Hinv. rewrite Hm.
      destruct (agent_phase (exec (run_step c) s)); congruence.
    + rewrite Hp in Hinv.
      destruct (run_step_acting c s Hp)
        as [[Hm [Hq | Hq]] | (msg & _ & Hc & Hm & Hq)]; rewrite Hq, Hm; eauto.
  - apply (pending_by_phase_consumes thinking); auto.
    apply execute_pending_tools_consumes.
  - unfold pending_by_phase in *. simpl. rewrite Hph in Hinv.
    destruct Hinv as (msg & -> & Hc). exact Hc.
  - unfold pending_by_phase in *. simpl. rewrite Hph in Hinv. exact Hinv.
  - unfold pending_by_phase in *. simpl. rewrite Hph in Hinv.
    destruct Hsome as [msg Hm]. rewrite Hm in *. eauto.
  - unfold pending_by_phase. simpl. assumption.
  - apply (pending_by_phase_consumes acting); auto.
    apply edit_pending_tools_consumes.
  - destruct (rewind_and_edit_spec i p s)
      as [(e & _ & -> & _) | (ev & rp & _ & _ & _ & ->)]; [exact Hinv|].
    unfold pending_by_phase. simpl. assumption.
  - unfold pending_by_phase in *. simpl. rewrite Hph in Hinv. rewrite Hinv.
    exact I.
  - apply (pending_by_phase_consumes thinking); auto.
    apply reject_pending_tools_consumes.
Qed.

(** The slot is filled by the acting step only, with what the model
    proposed. *)
Lemma pending_set_by_acting (ok : Client -> Prop) s s' msg :
  transition ok s s' ->
  agent_pending_message s' = Some msg ->
  agent_pending_message s = Some msg
  \/ (agent_phase s = acting
      /\ exists c, ok c
                   /\ create c (agent_messages s) (agent_tools s) = Ok msg
                   /\ has_tool_calls msg = true).
Proof.
  intros Ht Hm.
  destruct Ht as
    [q df sc s | c s Hokc Hph | s Hph Hrender | s Hph | s Hph | s Hph Hsome
     | s Hph Hnone | p s Hph Hsome Htr | i p s Hph Hnone Hidx Htr
     | i e s Hph Hev Hact | fb s Hph].
  - discriminate.
  - destruct Hph as [Hp | Hp].
    + destruct (run_step_thinking c s Hp) as (<- & _). auto.
    + destruct (run_step_acting c s Hp)
        as [[<- _] | (msg' & Hc & Hh & Hm' & _)]; [auto|].
      right. split; [exact Hp|]. exists c.
      rewrite Hm' in Hm. injection Hm as <-. auto.
  - destruct (execute_pending_tools_consumes s)
      as [(a & _ & Hn & _) | (e & _ & <- & _)]; [congruence | auto].
  - auto.
  - auto.
  - auto.
  - auto.
  - destruct (edit_pending_tools_consumes p s)
      as [(a & _ & Hn & _) | (e & _ & <- & _)]; [congruence | auto].
  - destruct (rewind_and_edit_spec i p s)
      as [(e' & _ & Heq & _) | (ev & rp & _ & _ & _ & Heq)];
      rewrite Heq in Hm; auto.
  - auto.
  - destruct (reject_pending_tools_consumes fb s)
      as [(a & _ & Hn & _) | (e & _ & <- & _)]; [congruence | auto].
Qed.

Lemma pending_by_phase_reachable s : reachable s -> pending_by_phase s.
Proof.
  apply reachable_ind_transition; [reflexivity|].
  intros; eapply pending_by_phase_transition; eauto.
Qed.

Lemma call_event_rewind_point rp df tc ev :
  call_event rp df tc = Some ev -> rewind_point_of ev = Some rp.
Proof.
  unfold call_event.
  destruct (json_loads _) as [[| | | | |fields]|]; try discriminate.
  destruct (String.eqb _ "QueryMovieDB").
  { destruct (dict_get "code" fields); [|discriminate].
    intros [= <-]. reflexivity. }
  destruct (String.eqb _ "CreateChart"); [|discriminate].
  destruct (dict_get "vega_lite_spec" fields); [|discriminate].
  intros [= <-]. reflexivity.
Qed.

(** The whole of an approval that meets no unknown tool and no
    undecodable arguments. *)
Lemma execute_pending_tools_ok s msg tcs evs :
  agent_pending_message s = Some msg ->
  tool_calls msg = Some tcs ->
  Forall2 (fun tc ev =>
             call_event (length (agent_messages s)) (agent_df s) tc = Some ev)
    tcs evs ->
  eval execute_pending_tools s = Ok tt
  /\ exec execute_pending_tools s
     = {| agent_phase := thinking;
          agent_events := agent_events s ++ evs;
          agent_messages :=
            agent_messages s ++ Proposal (Some msg) :: tool_turns tcs evs;
          agent_tools := agent_tools s;
          agent_df := agent_df s;
          agent_chart_specs := agent_chart_specs s ++ recompute_chart_specs evs;
          agent_pending_message := None;
          agent_rewrite_event_index := agent_rewrite_event_index s |}.
Proof.
  intros Hm Htcs Hevs.
  unfold execute_pending_tools. step. rewrite Hm. simpl. rewrite Htcs. step.
  destruct (execute_loop_ok (length (agent_messages s)) (agent_df s) tcs evs None
              (set_agent_messages (agent_messages s ++ [Proposal (Some msg)]) s)
              Hevs)
    as (-> & Hmsg & Hev & Hc & _ & _ & Hr & Ht & Hd).
  step. split; [reflexivity|].
  apply state_eq; simpl in *; try reflexivity; try assumption.
  rewrite Hmsg, <- app_assoc. reflexivity.
Qed.

(** *** Sessions in which every proposal has one call *)

(** A call for which no event is due ends the body of the loop with an
    exception, the state untouched, when no earlier call left a result. *)
Lemma execute_call_none rp df tc s :
  call_event rp df tc = None ->
  exists e, eval (execute_call rp df tc None) s = Raised e
            /\ exec (execute_call rp df tc None) s = s.
Proof.
  unfold call_event, execute_call, loads_arguments.
  destruct (json_loads _) as [args|]; [|intros _; eexists; split; reflexivity].
  destruct (String.eqb _ "QueryMovieDB").
  { step. destruct args as [| | | | |fields]; simpl;
      try (intros _; eexists; split; reflexivity).
    destruct (dict_get "code" fields); [discriminate|].
    intros _; eexists; split; reflexivity. }
  destruct (String.eqb _ "CreateChart").
  { step. destruct args as [| | | | |fields]; simpl;
      try (intros _; eexists; split; reflexivity).
    destruct (dict_get "vega_lite_spec" fields); [discriminate|].
    intros _; eexists; split; reflexivity. }
  intros _. step. eexists; split; reflexivity.
Qed.

(** Approving a proposal of one call either records its event and its
    tool turn, or raises with nothing but the proposal appended. *)
Lemma execute_pending_tools_one_call s :
  pending_one_call s ->
  (exists msg tc ev,
      agent_pending_message s = Some msg
      /\ tool_calls msg = Some [tc]
      /\ rewind_point_of ev = Some (length (agent_messages s))
      /\ agent_events (exec execute_pending_tools s) = agent_events s ++ [ev]
      /\ agent_messages (exec execute_pending_tools s)
         = agent_messages s
           ++ [Proposal (Some msg); ToolTurn (event_result ev) (tc_id tc)])
  \/ (agent_events (exec execute_pending_tools s) = agent_events s
      /\ agent_messages (exec execute_pending_tools s)
         = agent_messages s ++ [Proposal (agent_pending_message s)]).
Proof.
  intros Hone.
  destruct (agent_pending_message s) as [msg|] eqn:Hm.
  - destruct (Hone msg Hm) as [tc Htc].
    destruct (call_event (length (agent_messages s)) (agent_df s) tc)
      as [ev|] eqn:Hev.
    + left. exists msg, tc, ev.
      destruct (execute_pending_tools_ok s msg [tc] [ev] Hm Htc) as [_ ->];
        [repeat constructor; exact Hev|].
      simpl. repeat split; eauto using call_event_rewind_point.
    + right. unfold execute_pending_tools. step. rewrite Hm. simpl.
      rewrite Htc. step. simpl. step.
      destruct (execute_call_none _ _ _
                  (set_agent_messages
                     (agent_messages s ++ [Proposal (Some msg)]) s) Hev)
        as (e & -> & ->).
      split; reflexivity.
  - right. unfold execute_pending_tools. step. rewrite Hm. split; reflexivity.
Qed.

Lemma extends_grows_plain turns evs specs s s' ph pm :
  extends_by turns evs specs s (set_agent_phase ph (set_agent_pending_message pm s')) ->
  Forall (fun e => rewind_point_of e = None) evs ->
  grows_plain s s'.
Proof. intros (Hm & He & _) Hno. exists turns, evs. auto. Qed.

Lemma run_step_grows_plain c s : grows_plain s (exec (run_step c) s).
Proof.
  unfold run_step. step.
  destruct (agent_phase s); step;
    try (exists [], []; simpl; rewrite !app_nil_r; repeat split; constructor).
  - destruct (parse c _) as [r|e]; step;
      [|exists [], []; simpl; rewrite !app_nil_r; repeat split; constructor].
    destruct (use_tool r); step.
    + exists [Turn assistant (reason r)], [Thought (reason r)].
      repeat split; repeat constructor.
    + exists [Turn assistant (reason r)], [Answer (reason r) (answer r)].
      repeat split; repeat constructor.
  - destruct (create c _ _) as [msg|e]; step;
      [|exists [], []; simpl; rewrite !app_nil_r; repeat split; constructor].
    destruct (has_tool_calls msg); step;
      exists [], []; simpl; rewrite !app_nil_r; repeat split; constructor.
Qed.

Lemma rewind_points_none (evs : list event) :
  Forall (fun e => rewind_point_of e = None) evs -> rewind_points evs = [].
Proof.
  induction 1 as [|e evs He _ IH]; [reflexivity|].
  unfold rewind_points in *. simpl. rewrite He. exact IH.
Qed.

Lemma proposals_in_place_grows s s' :
  grows_plain s s' -> proposals_in_place s -> proposals_in_place s'.
Proof.
  intros (turns & evs & Hm & He & Hno) Hin i ev rp Hev Hrp.
  rewrite He in Hev. apply lookup_app_Some in Hev as [Hev | [_ Hev]].
  - destruct (Hin i ev rp Hev Hrp) as (msg & tc & Htc & H1 & H2).
    exists msg, tc. rewrite Hm. auto using lookup_app_l_Some.
  - apply list_elem_of_lookup_2 in Hev. rewrite Forall_forall in Hno.
    rewrite (Hno _ Hev) in Hrp. discriminate.
Qed.

Lemma sorted_lt_grows s s' :
  grows_plain s s' ->
  Sorted lt (rewind_points (agent_events s)) ->
  Sorted lt (rewind_points (agent_events s')).
Proof.
  intros (turns & evs & _ & He & Hno). rewrite He, rewind_points_app.
  rewrite (rewind_points_none _ Hno), app_nil_r. auto.
Qed.

Lemma proposals_in_place_rewound i p ev rp s :
  agent_events s !! i = Some ev -> rewind_point_of ev = Some rp ->
  proposals_in_place s ->
  Sorted lt (rewind_points (agent_events s)) ->
  proposals_in_place (rewound i rp p s).
Proof.
  intros Hev Hrp Hin Hs j ev' rp' Hev' Hrp'. simpl in *.
  apply lookup_app_Some in Hev' as [Hev' | [_ Hev']].
  2:{ destruct (j - _) as [|k]; simpl in Hev'; [|discriminate].
      injection Hev' as <-. discriminate. }
  apply lookup_take_Some in Hev' as [Hev' Hlt].
  destruct (Hin i ev rp Hev Hrp) as (msg & tc & _ & Hprop & _).
  destruct (Hin j ev' rp' Hev' Hrp') as (msg' & tc' & Htc' & H1 & H2).
  assert (rp' < rp) as Hlt'.
  { apply (Sorted_StronglySorted _) in Hs.
    rewrite (rewind_points_take _ _ _ _ Hev Hrp) in Hs.
    eapply (StronglySorted_app_1_elem_of lt); [exact Hs | | left].
    apply list_elem_of_omap. exists ev'. split; [|exact Hrp'].
    apply elem_of_take. eauto. }
  assert (S rp' <> rp) as Hne by (intros <-; congruence).
  exists msg', tc'. split; [exact Htc'|].
  split; apply lookup_app_l_Some; apply lookup_take_Some; split; auto; lia.
Qed.

Lemma one_call_invariant_transition s s' :
  transition proposes_one_call s s' ->
  rewind_points_ordered s ->
  one_call_invariant s -> one_call_invariant s'.
Proof.
  intros Ht [_ Hbound] (Hone & Hin & Hsorted).
  split.
  { intros msg Hm.
    destruct (pending_set_by_acting _ _ _ _ Ht Hm)
      as [Hold | (_ & c & Hok & Hc & Hh)]; [apply Hone, Hold|].
    eapply Hok; eauto. }
  destruct Ht as
    [q df sc s | c s Hokc Hph | s Hph Hrender | s Hph | s Hph | s Hph Hsome
     | s Hph Hnone | p s Hph Hsome Htr | i p s Hph Hnone Hidx Htr
     | i e s Hph Hev Hact | fb s Hph].
  - split; [intros i ev rp Hev; discriminate Hev | constructor].
  - pose proof (run_step_grows_plain c s) as Hg.
    split; [eapply proposals_in_place_grows | eapply sorted_lt_grows]; eauto.
  - destruct (execute_pending_tools_one_call s Hone)
      as [(msg & tc & ev & Hm & Htc & Hrp & He & Hmsg) | [He Hmsg]].
    + split.
      * intros i ev' rp' Hev' Hrp'. rewrite He in Hev'. rewrite Hmsg.
        apply lookup_app_Some in Hev' as [Hev' | [_ Hev']].
        -- destruct (Hin i ev' rp' Hev' Hrp') as (msg' & tc' & ? & ? & ?).
           exists msg', tc'. auto using lookup_app_l_Some.
        -- destruct (i - _) as [|k]; simpl in Hev'; [|discriminate].
           injection Hev' as <-. rewrite Hrp in Hrp'. injection Hrp' as <-.
           exists msg, tc. split; [exact Htc|].
           split; rewrite lookup_app_r by lia.
           ++ rewrite Nat.sub_diag. reflexivity.
           ++ replace (S (length (agent_messages s)) - length (agent_messages s))
                with 1 by lia. reflexivity.
      * rewrite He, rewind_points_app. unfold rewind_points at 2. simpl.
        rewrite Hrp. simpl.
        apply StronglySorted_Sorted, StronglySorted_app_2.
        -- intros x1 x2 H1 H2. apply list_elem_of_singleton in H2 as ->.
           rewrite Forall_forall in Hbound. auto.
        -- apply (Sorted_StronglySorted _), Hsorted.
        -- repeat constructor.
    + assert (grows_plain s (exec execute_pending_tools s)) as Hg
        by (exists [Proposal (agent_pending_message s)], [];
            rewrite He, app_nil_r; repeat split; auto).
      split; [eapply proposals_in_place_grows | eapply sorted_lt_grows]; eauto.
  - split; assumption.
  - split; assumption.
  - split; assumption.
  - split; assumption.
  - destruct (edit_pending_tools_extends p s) as (turns & evs & Hext & Hno).
    pose proof (extends_grows_plain _ _ _ _ _ _ _ Hext Hno) as Hg.
    split; [eapply proposals_in_place_grows | eapply sorted_lt_grows]; eauto.
  - destruct (rewind_and_edit_spec i p s)
      as [(e' & _ & -> & _) | (ev & rp & Hev & Hrp & _ & Heq)];
      [split; assumption|].
    rewrite Heq. fold (rewound i rp p s). split.
    + eapply proposals_in_place_rewound; eauto.
    + simpl. rewrite rewind_points_app. simpl. rewrite app_nil_r.
      apply (Sorted_StronglySorted _) in Hsorted.
      rewrite (rewind_points_take _ _ _ _ Hev Hrp) in Hsorted.
      apply StronglySorted_Sorted. eapply StronglySorted_app_1_l, Hsorted.
  - split; assumption.
  - destruct (reject_pending_tools_extends fb s) as (turns & evs & Hext & Hno).
    pose proof (extends_grows_plain _ _ _ _ _ _ _ Hext Hno) as Hg.
    split; [eapply proposals_in_place_grows | eapply sorted_lt_grows]; eauto.
Qed.

Lemma one_call_invariant_reachable s :
  reachable_with proposes_one_call s -> one_call_invariant s.
Proof.
  intros Hs.
  assert (rewind_points_ordered s /\ one_call_invariant s) as [_ Hinv];
    [|exact Hinv].
  revert s Hs. apply reachable_with_ind_transition.
  - split; [split; constructor|].
    split; [intros msg [=]|].
    split; [intros i ev rp [=] | constructor].
  - intros s s' [Hord Hinv] Ht. split.
    + eapply rewind_points_ordered_transition; eauto.
    + eapply one_call_invariant_transition; eauto.
Qed.

(** *** The claims *)

(** C1. In every state of a session at most one proposal is pending: the
    state has one slot for it; the slot is empty outside the three
    waiting phases and holds a proposal with calls in [awaiting_approval]
    and [awaiting_feedback]; a rerun fills the slot with a new proposal
    only when it starts in the acting phase; and approving, editing and
    rejecting each either end normally with the slot cleared and the
    phase moved on, or raise with the slot and the phase as they were. *)
Theorem at_most_one_pending_proposal s :
  reachable s ->
  length (pending_proposals s) <= 1
  /\ pending_by_phase s
  /\ (forall r msg,
        agent_pending_message (exec (rerun r) s) = Some msg ->
        agent_pending_message s = Some msg \/ agent_phase s = acting)
  /\ (forall p fb,
        consumes thinking execute_pending_tools s
        /\ consumes acting (edit_pending_tools p) s
        /\ consumes thinking (reject_pending_tools fb) s).
Proof.
  intros Hs. split; [|split; [|split]].
  - unfold pending_proposals. destruct (agent_pending_message s); simpl; lia.
  - apply pending_by_phase_reachable, Hs.
  - intros r msg. unfold rerun.
    destruct (analyze_button r && truthy (user_question r)) eqn:Hb.
    + apply andb_prop in Hb as [-> Hq].
      rewrite agent_panel_restart by exact Hq.
      destruct (agent_panel_transition any_client (client r) (user_question r)
                  (filtered_df r) (show_chart r) (ui r)
                  (exec (restart_agent (user_question r) (filtered_df r)
                           (show_chart r)) s) I) as [-> | Ht].
      * discriminate.
      * intros Hm. apply (pending_set_by_acting _ _ _ _ Ht) in Hm.
        destruct Hm as [Hm | [Hm _]]; discriminate.
    + rewrite agent_panel_no_restart by exact Hb.
      destruct (agent_panel_transition any_client (client r) (user_question r)
                  (filtered_df r) (show_chart r) (ui r) s I) as [-> | Ht];
        [auto | intros Hm; apply (pending_set_by_acting _ _ _ _ Ht) in Hm; tauto].
  - intros p fb. split; [|split].
    + apply execute_pending_tools_consumes.
    + apply edit_pending_tools_consumes.
    + apply reject_pending_tools_consumes.
Qed.

(** Membership in the derived chart list: a spec is in it exactly when
    the log holds a chart event whose spec text validates to it. *)
Lemma elem_of_recompute_chart_specs (events : list event) c :
  c ∈ recompute_chart_specs events
  <-> exists n spec_str r rp,
        Chart n spec_str r rp ∈ events
        /\ fst (validate_chart spec_str) = Some c.
Proof.
  unfold recompute_chart_specs.
  rewrite list_elem_of_omap. split.
  - intros (o & Ho & ->).
    apply list_elem_of_In, in_map_iff in Ho as (spec_str & Hv & Hin).
    apply list_elem_of_In, list_elem_of_omap in Hin as (e & He & Hc).
    destruct e; try discriminate. injection Hc as ->. eauto 6.
  - intros (n & spec_str & r & rp & Hin & Hv). exists (Some c).
    split; [|reflexivity].
    apply list_elem_of_In, in_map_iff. exists spec_str. split; [auto|].
    apply list_elem_of_In, list_elem_of_omap. eauto.
Qed.

(** C4. In every state of a session the chart list is the list that
    [rewind_and_edit] would derive from the event log at that moment:
    a spec is in the chart list exactly when the log holds a chart event
    whose spec text validates to it. *)
Theorem chart_list_matches_log s :
  reachable s ->
  agent_chart_specs s = recompute_chart_specs (agent_events s)
  /\ forall c,
       c ∈ agent_chart_specs s
       <-> exists n spec_str r rp,
             Chart n spec_str r rp ∈ agent_events s
             /\ fst (validate_chart spec_str) = Some c.
Proof.
  intros Hs.
  assert (chart_list_derived s) as Hd.
  { revert s Hs. apply reachable_ind_transition; [reflexivity|].
    intros; eapply chart_list_derived_transition; eauto. }
  split; [exact Hd|]. intros c. rewrite Hd.
  apply elem_of_recompute_chart_specs.
Qed.

Lemma rewind_points_ordered_reachable s :
  reachable s -> rewind_points_ordered s.
Proof.
  revert s. apply reachable_ind_transition.
  - split; constructor.
  - intros; eapply rewind_points_ordered_transition; eauto.
Qed.

(** C8, as amended. In every state of a session the rewind points of the
    action and chart events never decrease along the event log (the
    events of one approved batch share one), and each is below the
    length of the transcript; they increase strictly in a session in
    which every proposal had one call. *)
Theorem rewind_points_never_decrease s :
  reachable s ->
  Sorted le (rewind_points (agent_events s))
  /\ Forall (fun rp => rp < length (agent_messages s))
       (rewind_points (agent_events s))
  /\ (reachable_with proposes_one_call s ->
      Sorted lt (rewind_points (agent_events s))).
Proof.
  intros Hs. destruct (rewind_points_ordered_reachable s Hs) as [Hsorted Hb].
  split; [exact Hsorted|]. split; [exact Hb|].
  intros Hone. apply one_call_invariant_reachable in Hone. apply Hone.
Qed.

(** The inline edit form, when it is rendered, is the one form there is. *)
Lemma render_events_loop_inline ui ar iei events : forall k ci ia,
  ia = None \/ ia = Some (_render_inline_edit ui) ->
  snd (render_events_loop ui ar iei k events ci ia) = None
  \/ snd (render_events_loop ui ar iei k events ci ia)
     = Some (_render_inline_edit ui).
Proof.
  induction events as [|e rest IH]; intros k ci ia Hia; simpl; [exact Hia|].
  apply IH. destruct (is_action_or_chart e && _); auto.
Qed.

(** What the edit form hands to the controller. *)
Lemma eval_render_panel_edit ui s a :
  agent_phase s = awaiting_edit ->
  eval (render_panel ui) s = Ok a ->
  (get_flag (edit_cancelled a) = true -> btn_cancel ui = true)
  /\ (get_text (edit_prompt a) = true -> truthy (input_edit_prompt ui) = true).
Proof.
  intros Hp. unfold render_panel, render_pending_edit. step. rewrite Hp. step.
  destruct (agent_rewrite_event_index s) as [i|]; step.
  - destruct (render_events_loop_inline ui false (Some i) (agent_events s)
                0 None None (or_introl eq_refl)) as [-> | ->];
      step; intros [= <-]; simpl; auto. split; discriminate.
  - destruct (eval render_pending_msg s) as [[]|]; step; [|discriminate].
    intros [= <-]. simpl. auto.
Qed.

(** C10. In the [awaiting_edit] phase a rerun in which no new question is
    asked, "Cancel" is not clicked and the edit prompt is empty leaves the
    whole state as it was. *)
Theorem empty_edit_prompt_changes_nothing c b q df sc w s :
  agent_phase s = awaiting_edit ->
  b && truthy q = false ->
  btn_cancel w = false ->
  input_edit_prompt w = "" ->
  exec (agent_panel c b q df sc w) s = s.
Proof.
  intros Hp Hb Hc Hq. rewrite agent_panel_no_restart by exact Hb.
  unfold agent_panel. cbn [andb]. step. rewrite exec_render_panel.
  destruct (eval (render_panel w) s) as [a|e] eqn:Hr; [|reflexivity].
  destruct (eval_render_panel_edit w s a Hp Hr) as [Hcancel Hprompt].
  step. rewrite Hp.
  destruct (get_flag (edit_cancelled a)); [specialize (Hcancel eq_refl); congruence|].
  destruct (get_text (edit_prompt a)).
  - specialize (Hprompt eq_refl). rewrite Hq in Hprompt. discriminate.
  - rewrite andb_false_r. reflexivity.
Qed.

(** The approval form decodes the arguments of every call to show them,
    so a proposal that was shown and names only the two tools of the code
    has an event due for every call. *)
Lemma render_tool_calls_executable rp df tcs :
  render_tool_calls tcs = Ok tt ->
  Forall (fun tc => fn_name (tc_function tc) = "QueryMovieDB"
                    \/ fn_name (tc_function tc) = "CreateChart") tcs ->
  exists evs, mapM (call_event rp df) tcs = Some evs.
Proof.
  intros Hshown Hnames. induction Hnames as [|tc rest Hname _ IH].
  - exists []. reflexivity.
  - simpl in Hshown. unfold loads_arguments in Hshown.
    assert (exists ev, call_event rp df tc = Some ev
                       /\ render_tool_calls rest = Ok tt) as (ev & Hev & Hrest).
    { unfold call_event.
      destruct (json_loads _) as [args|]; [|discriminate].
      destruct Hname as [Hn | Hn]; rewrite Hn in *; simpl in *.
      - destruct args as [| | | | |fields]; simpl in Hshown; try discriminate.
        destruct (dict_get "code" fields); [eauto | discriminate].
      - destruct args as [| | | | |fields]; simpl in Hshown; try discriminate.
        destruct (dict_get "vega_lite_spec" fields); [eauto | discriminate]. }
    destruct (IH Hrest) as [evs Hevs]. exists (ev :: evs).
    apply mapM_Some. constructor; [exact Hev | apply mapM_Some, Hevs].
Qed.


(** C5. Rejecting a pending proposal: the transcript receives the
    proposal and one tool turn for each call with the rejection text,
    which is "User rejected this action." followed by the feedback when
    there is some and by "Try a different approach." when there is none;
    the event log receives one rejected event for each call, carrying
    the feedback; the slot is cleared and the phase becomes [thinking]. *)
Theorem reject_records_feedback s msg tcs fb :
  agent_pending_message s = Some msg ->
  tool_calls msg = Some tcs ->
  let s' := exec (reject_pending_tools fb) s in
  eval (reject_pending_tools fb) s = Ok tt
  /\ agent_messages s'
     = agent_messages s
       ++ Proposal (Some msg)
          :: map (fun tc => ToolTurn (rejection_msg fb) (tc_id tc)) tcs
  /\ agent_events s'
     = agent_events s
       ++ map (fun tc => Rejected (fn_name (tc_function tc)) fb) tcs
  /\ rejection_msg fb
     = (if String.eqb fb "" then
          "User rejected this action. Try a different approach."
        else "User rejected this action. User feedback: " ++ fb)%string
  /\ agent_pending_message s' = None
  /\ agent_phase s' = thinking
  /\ agent_chart_specs s' = agent_chart_specs s
  /\ same_setup s s'
  /\ agent_rewrite_event_index s' = agent_rewrite_event_index s.
Proof.
  intros Hm Htcs.
  unfold reject_pending_tools. step. rewrite Hm. simpl. rewrite Htcs. step.
  destruct (reject_loop_spec fb tcs
              (set_agent_messages (agent_messages s ++ [Proposal (Some msg)]) s))
    as (-> & Hmsg & Hev & Hc & _ & _ & Hr & Hset).
  step. simpl in *. rewrite Hmsg, Hev, Hc, <- app_assoc, app_nil_r.
  repeat split; try reflexivity; try apply Hset; try assumption.
  unfold rejection_msg, truthy. destruct (String.eqb fb ""); reflexivity.
Qed.

(** C7, as amended. A thinking step whose model call returns: the
    reason is appended to the transcript as an assistant turn; when
    [use_tool] is false an answer event with the reason and the answer,
    whatever the answer is, is appended and the phase becomes [done];
    when it is true a thought event is appended and the phase becomes
    [acting]. *)
Theorem thinking_step_records_decision c s r :
  agent_phase s = thinking ->
  parse c (agent_messages s) = Ok r ->
  let s' := exec (run_step c) s in
  eval (run_step c) s = Ok tt
  /\ agent_messages s' = agent_messages s ++ [Turn assistant (reason r)]
  /\ (use_tool r = false ->
      agent_events s' = agent_events s ++ [Answer (reason r) (answer r)]
      /\ agent_phase s' = done)
  /\ (use_tool r = true ->
      agent_events s' = agent_events s ++ [Thought (reason r)]
      /\ agent_phase s' = acting)
  /\ agent_pending_message s' = agent_pending_message s
  /\ agent_chart_specs s' = agent_chart_specs s.
Proof.
  intros Hp Hr. unfold run_step. step. rewrite Hp. step. rewrite Hr. step.
  destruct (use_tool r); step; simpl; repeat split; intros; congruence.
Qed.

(** C3, as amended. A rewind to an action or chart event of a session:
    the transcript is cut at the event's rewind point, which lies inside
    the transcript, so every turn before it stays and every turn from it
    on goes; the event log is cut at the event, which drops it and all
    later events; the chart list is derived again from the events that
    stay; a user turn with the edit prompt and an edited event are
    appended; the phase becomes [acting] and the rewind target is
    cleared. In a session in which every proposal had one call, the
    turns that go begin with the event's proposal and its tool output. *)
Theorem rewind_cuts_both_logs s i ev rp p :
  reachable s ->
  agent_events s !! i = Some ev ->
  rewind_point_of ev = Some rp ->
  let s' := exec (rewind_and_edit i p) s in
  eval (rewind_and_edit i p) s = Ok tt
  /\ agent_messages s'
     = take rp (agent_messages s) ++ [Turn user (rewind_msg p)]
  /\ take rp (agent_messages s') = take rp (agent_messages s)
  /\ length (take rp (agent_messages s)) = rp
  /\ agent_events s' = take i (agent_events s) ++ [Edited p]
  /\ agent_chart_specs s' = recompute_chart_specs (take i (agent_events s))
  /\ agent_chart_specs s' = recompute_chart_specs (agent_events s')
  /\ agent_phase s' = acting
  /\ agent_rewrite_event_index s' = None
  /\ agent_pending_message s' = agent_pending_message s
  /\ (reachable_with proposes_one_call s ->
      removes_proposal_and_outputs ev rp (agent_messages s)).
Proof.
  intros Hs Hev Hrp.
  assert (rp < length (agent_messages s)) as Hlt.
  { destruct (rewind_points_ordered_reachable s Hs) as [_ Hb].
    rewrite (rewind_points_take _ _ _ _ Hev Hrp) in Hb.
    apply Forall_app in Hb as [_ Hb]. apply Forall_cons in Hb as [Hb _].
    exact Hb. }
  assert (length (take rp (agent_messages s)) = rp) as Hlen
    by (rewrite length_take; lia).
  destruct (rewind_and_edit_spec i p s)
    as [(e & _ & _ & Hno) | (ev' & rp' & Hev' & Hrp' & Hok & Hex)].
  { exfalso. eauto. }
  assert (rp' = rp) as -> by congruence.
  cbv zeta. rewrite Hok, Hex. simpl.
  repeat split; try reflexivity; try assumption.
  - rewrite take_app_le by lia. rewrite take_ge by lia. reflexivity.
  - rewrite recompute_chart_specs_app. simpl. rewrite app_nil_r. reflexivity.
  - intros Hone. apply one_call_invariant_reachable in Hone as (_ & Hin & _).
    destruct (Hin i ev rp Hev Hrp) as (msg & tc & Htc & H1 & H2).
    exists msg, [tc], [ToolTurn (event_result ev) (tc_id tc)],
      (drop (S (S rp)) (agent_messages s)).
    split; [rewrite (drop_S _ _ _ H1), (drop_S _ _ _ H2); reflexivity|].
    split; [exact Htc|]. split; [repeat constructor; eauto|].
    exists tc. split; apply list_elem_of_singleton; reflexivity.
Qed.

(** *** Where the edit instruction lands *)





Lemma edit_pending_tools_ok s msg tcs p :
  agent_pending_message s = Some msg ->
  tool_calls msg = Some tcs ->
  eval (edit_pending_tools p) s = Ok tt
  /\ exec (edit_pending_tools p) s
     = {| agent_phase := acting;
          agent_events := agent_events s ++ [Edited p];
          agent_messages :=
            agent_messages s
            ++ Proposal (Some msg)
               :: map (fun tc => ToolTurn (edit_msg p) (tc_id tc)) tcs;
          agent_tools := agent_tools s;
          agent_df := agent_df s;
          agent_chart_specs := agent_chart_specs s;
          agent_pending_message := None;
          agent_rewrite_event_index := agent_rewrite_event_index s |}.
Proof.
  intros Hm Htcs.
  unfold edit_pending_tools. step. rewrite Hm. simpl. rewrite Htcs. step.
  destruct (edit_loop_spec p tcs
              (set_agent_messages (agent_messages s ++ [Proposal (Some msg)]) s))
    as (-> & Hmsg & Hev & Hc & _ & _ & Hr & Ht & Hd).
  step. split; [reflexivity|].
  apply state_eq; simpl in *; try reflexivity; try assumption.
  - rewrite Hev, app_nil_r. reflexivity.
  - rewrite Hmsg, <- app_assoc. reflexivity.
  - rewrite Hc, app_nil_r. reflexivity.
Qed.



(** A call that names neither tool leaves [result] as it found it: when
    it is the first call of the batch the variable is unbound and the
    approval raises, the proposal already appended and nothing else
    done. *)
Lemma unknown_first_call_raises s msg tc rest args :
  agent_pending_message s = Some msg ->
  tool_calls msg = Some (tc :: rest) ->
  json_loads (fn_arguments (tc_function tc)) = Some args ->
  String.eqb (fn_name (tc_function tc)) "QueryMovieDB" = false ->
  String.eqb (fn_name (tc_function tc)) "CreateChart" = false ->
  eval execute_pending_tools s = Raised (UnboundLocalError "result")
  /\ exec execute_pending_tools s
     = set_agent_messages (agent_messages s ++ [Proposal (Some msg)]) s.
Proof.
  intros Hm Htcs Hargs Hq Hc.
  unfold execute_pending_tools. step. rewrite Hm. simpl. rewrite Htcs.
  step. simpl. step. unfold execute_call, loads_arguments.
  rewrite Hargs, Hq, Hc. step. split; reflexivity.
Qed.

(** *** What the controller does in each phase *)

Lemma run_pair {A} (c1 c2 : M A) s :
  eval c1 s = eval c2 s -> exec c1 s = exec c2 s -> c1 s = c2 s.
Proof. rewrite (run_eq c1), (run_eq c2). congruence. Qed.

(** Without a new question, in the two working phases a rerun is one
    model step. *)
Lemma agent_panel_works c q df sc ui s :
  works_alone (agent_phase s) = true ->
  agent_panel c false q df sc ui s = run_step c s.
Proof.
  intros Hp. destruct (agent_phase s) eqn:E; try discriminate;
    apply run_pair; unfold agent_panel, render_panel; cbn [andb];
    repeat (step; rewrite ?E); reflexivity.
Qed.

(** The fields that a model step never writes. *)
Lemma run_step_frame c s :
  agent_tools (exec (run_step c) s) = agent_tools s
  /\ agent_df (exec (run_step c) s) = agent_df s
  /\ agent_chart_specs (exec (run_step c) s) = agent_chart_specs s
  /\ agent_rewrite_event_index (exec (run_step c) s)
     = agent_rewrite_event_index s.
Proof.
  unfold run_step. step. destruct (agent_phase s); step; auto.
  - destruct (parse c _) as [r|e]; step; auto. destruct (use_tool r); step; auto.
  - destruct (create c _ _) as [msg|e]; step; auto.
    destruct (has_tool_calls msg); step; auto.
Qed.

(** X1. A rerun with a new question is a thinking step on a fresh run:
    of the state it finds, nothing is carried over but the rewind
    target, which [restart_agent] leaves as it was. *)
Theorem new_question_discards_run c q df sc w s :
  truthy q = true ->
  agent_panel c true q df sc w s
  = run_step c (fresh_run q df sc (agent_rewrite_event_index s))
  /\ agent_rewrite_event_index (exec (agent_panel c true q df sc w) s)
     = agent_rewrite_event_index s.
Proof.
  intros Hq.
  assert (agent_panel c true q df sc w s
          = agent_panel c false q df sc w
              (fresh_run q df sc (agent_rewrite_event_index s))) as Heq
    by (unfold agent_panel; rewrite Hq; reflexivity).
  rewrite agent_panel_works in Heq by reflexivity.
  split; [exact Heq|].
  unfold exec at 1. rewrite Heq.
  apply (run_step_frame c (fresh_run q df sc (agent_rewrite_event_index s))).
Qed.

(** X2. A model call that raises costs nothing: the rerun raises the same
    exception and leaves the state as it was, so that it can be run
    again. *)
Theorem failed_model_call_changes_nothing c q df sc w s e :
  (agent_phase s = thinking /\ parse c (agent_messages s) = Raised e)
  \/ (agent_phase s = acting
      /\ create c (agent_messages s) (agent_tools s) = Raised e) ->
  agent_panel c false q df sc w s = (Raised e, s).
Proof.
  intros [[Hp Hc] | [Hp Hc]];
    (rewrite agent_panel_works by (rewrite Hp; reflexivity));
    rewrite run_eq; unfold run_step; step; rewrite Hp; step; rewrite Hc;
    reflexivity.
Qed.

(** X3. The acting step writes neither the transcript nor the event log
    nor the chart list. When the model answers without a call the rerun
    only moves the phase to [done], with no answer event; when it answers
    with calls the rerun stores the message in the pending slot and moves
    the phase to [awaiting_approval]. *)
Theorem acting_step_only_proposes c q df sc w s msg :
  agent_phase s = acting ->
  create c (agent_messages s) (agent_tools s) = Ok msg ->
  agent_panel c false q df sc w s
  = (Ok tt,
     if has_tool_calls msg
     then set_agent_phase awaiting_approval
            (set_agent_pending_message (Some msg) s)
     else set_agent_phase done s).
Proof.
  intros Hp Hc. rewrite agent_panel_works by (rewrite Hp; reflexivity).
  rewrite run_eq. unfold run_step. step. rewrite Hp. step. rewrite Hc. step.
  destruct (has_tool_calls msg); reflexivity.
Qed.

(** X4. Editing a pending proposal: the transcript receives the proposal
    and one tool turn for each call with the text that asks for the
    change; the event log receives one edited event, however many calls
    there are; the slot is cleared, the phase becomes [acting], and the
    chart list is as it was. *)
Theorem edit_records_instruction s msg tcs p :
  agent_pending_message s = Some msg ->
  tool_calls msg = Some tcs ->
  let s' := exec (edit_pending_tools p) s in
  eval (edit_pending_tools p) s = Ok tt
  /\ agent_messages s'
     = agent_messages s
       ++ Proposal (Some msg)
          :: map (fun tc => ToolTurn (edit_msg p) (tc_id tc)) tcs
  /\ agent_events s' = agent_events s ++ [Edited p]
  /\ agent_pending_message s' = None
  /\ agent_phase s' = acting
  /\ agent_chart_specs s' = agent_chart_specs s
  /\ same_setup s s'
  /\ agent_rewrite_event_index s' = agent_rewrite_event_index s.
Proof.
  intros Hm Htcs. destruct (edit_pending_tools_ok s msg tcs p Hm Htcs) as [Hok Hex].
  cbv zeta. rewrite Hex. simpl. unfold same_setup. auto 10.
Qed.

(** A call whose arguments do not decode stops the rendering of the
    form, at that call or at an earlier one. *)
Lemma render_tool_calls_undecodable tcs tc :
  tc ∈ tcs ->
  json_loads (fn_arguments (tc_function tc)) = None ->
  exists e, render_tool_calls tcs = Raised e.
Proof.
  intros Hin Hbad. induction Hin as [tc rest | tc tc' rest _ IH]; simpl.
  - unfold loads_arguments. rewrite Hbad. eauto.
  - destruct (loads_arguments tc') as [args|e]; [|eauto].
    destruct (if String.eqb _ "QueryMovieDB" then _ else _); eauto.
Qed.

(** X5. A proposal with a call whose arguments are not valid JSON cannot
    be decided: the approval form decodes the arguments before it offers
    its buttons, so every rerun without a new question raises and leaves
    the state as it was, whatever is clicked. *)
Theorem undecodable_proposal_blocks_run c q df sc w s msg tcs tc :
  agent_phase s = awaiting_approval ->
  agent_pending_message s = Some msg ->
  tool_calls msg = Some tcs ->
  tc ∈ tcs ->
  json_loads (fn_arguments (tc_function tc)) = None ->
  exists e, agent_panel c false q df sc w s = (Raised e, s).
Proof.
  intros Hp Hm Htcs Hin Hbad.
  destruct (render_tool_calls_undecodable tcs tc Hin Hbad) as [e He].
  exists e. rewrite run_eq.
  unfold agent_panel, render_panel, render_pending_approval, render_pending_msg.
  cbn [andb]. step. rewrite Hp. step. rewrite Hm. simpl. rewrite Htcs. step.
  rewrite He. reflexivity.
Qed.

Lemma execute_call_unknown rp df tc r s args :
  json_loads (fn_arguments (tc_function tc)) = Some args ->
  String.eqb (fn_name (tc_function tc)) "QueryMovieDB" = false ->
  String.eqb (fn_name (tc_function tc)) "CreateChart" = false ->
  eval (execute_call rp df tc (Some r)) s = Ok (Some r)
  /\ exec (execute_call rp df tc (Some r)) s
     = set_agent_messages (agent_messages s ++ [ToolTurn r (tc_id tc)]) s.
Proof.
  intros Hargs Hq Hc. unfold execute_call, loads_arguments.
  rewrite Hargs, Hq, Hc. step. split; reflexivity.
Qed.

(** X6. A call that names neither tool and follows an executed call is
    answered with the observation of that earlier call: approving the two
    calls ends normally, with one event, and with two tool turns that
    carry the same text. *)
Theorem unknown_call_repeats_observation s msg tc1 tc2 ev args :
  agent_pending_message s = Some msg ->
  tool_calls msg = Some [tc1; tc2] ->
  call_event (length (agent_messages s)) (agent_df s) tc1 = Some ev ->
  json_loads (fn_arguments (tc_function tc2)) = Some args ->
  String.eqb (fn_name (tc_function tc2)) "QueryMovieDB" = false ->
  String.eqb (fn_name (tc_function tc2)) "CreateChart" = false ->
  let s' := exec execute_pending_tools s in
  eval execute_pending_tools s = Ok tt
  /\ agent_messages s'
     = agent_messages s
       ++ [Proposal (Some msg);
           ToolTurn (event_result ev) (tc_id tc1);
           ToolTurn (event_result ev) (tc_id tc2)]
  /\ agent_events s' = agent_events s ++ [ev]
  /\ agent_pending_message s' = None
  /\ agent_phase s' = thinking.
Proof.
  intros Hm Htcs Hev Hargs Hq Hc.
  unfold execute_pending_tools. step. rewrite Hm. simpl. rewrite Htcs. step.
  simpl. step.
  destruct (execute_call_ok _ _ _ _ None
              (set_agent_messages (agent_messages s ++ [Proposal (Some msg)]) s)
              Hev)
    as (-> & Hmsg & Hevs & _ & Hp & Hpm & _).
  step.
  destruct (execute_call_unknown (length (agent_messages s)) (agent_df s) tc2
              (event_result ev)
              (exec (execute_call (length (agent_messages s)) (agent_df s)
                       tc1 None)
                 (set_agent_messages
                    (agent_messages s ++ [Proposal (Some msg)]) s))
              args Hargs Hq Hc) as [-> ->].
  step. simpl in *. rewrite Hmsg, Hevs, <- !app_assoc. auto.
Qed.

(** The inline form is rendered next to the target and nowhere else. *)
Lemma render_events_loop_no_inline ui ar i events : forall k ci,
  (forall e, events !! (i - k) = Some e -> k <= i -> is_action_or_chart e = false) ->
  snd (render_events_loop ui ar (Some i) k events ci None) = None.
Proof.
  induction events as [|e rest IH]; intros k ci Hno; simpl; [reflexivity|].
  destruct (Nat.eqb_spec k i) as [-> | Hne].
  - rewrite (Hno e) by (rewrite ?Nat.sub_diag; auto). simpl.
    apply IH. intros e' _ Hle. lia.
  - rewrite andb_false_r. apply IH. intros e' He' Hle.
    apply (Hno e'); [|lia].
    replace (i - k) with (S (i - S k)) by lia. exact He'.
Qed.

(** X7. A rewind target that does not point at an action or chart event
    hides the edit form: in [awaiting_edit] the form is rendered next to
    the target event only, so a rerun without a new question does
    nothing, whatever is clicked and whether or not a proposal is
    pending. *)
Theorem stale_rewind_target_hides_edit_form c q df sc w s i :
  agent_phase s = awaiting_edit ->
  agent_rewrite_event_index s = Some i ->
  (forall e, agent_events s !! i = Some e -> is_action_or_chart e = false) ->
  agent_panel c false q df sc w s = (Ok tt, s).
Proof.
  intros Hp Hi Hno. rewrite run_eq.
  unfold agent_panel, render_panel. cbn [andb]. step. rewrite Hp. step.
  rewrite Hi. step.
  rewrite (render_events_loop_no_inline w false i (agent_events s) 0 None)
    by (intros e He _; rewrite Nat.sub_0_r in He; auto).
  step. rewrite Hp. step. reflexivity.
Qed.

(** *** The buttons and the forms of [render_events] *)

(** The index that [render_events] returns, from position [k] on: the
    last event that is an action or a chart and whose button is clicked,
    when rewinding is offered. *)
Lemma render_events_loop_fst ui ar iei events : forall k ci ia i,
  fst (render_events_loop ui ar iei k events ci ia) = Some i
  <-> ((exists e, k <= i /\ events !! (i - k) = Some e
                 /\ is_action_or_chart e && ar && btn_rewind ui i = true)
       /\ forall j e, i < j -> events !! (j - k) = Some e ->
                     is_action_or_chart e && ar && btn_rewind ui j = false)
      \/ (ci = Some i
          /\ forall j e, k <= j -> events !! (j - k) = Some e ->
                        is_action_or_chart e && ar && btn_rewind ui j = false).
Proof.
  induction events as [|e rest IH]; intros k ci ia i; simpl.
  - split; [intros ->; right; split; [reflexivity | intros j e _ [=]]|].
    intros [[(e & _ & [=] & _) _] | [-> _]]. reflexivity.
  - rewrite IH. clear IH.
    set (hit := fun (j : nat) (e : event) =>
                  is_action_or_chart e && ar && btn_rewind ui j).
    change (is_action_or_chart e && ar && btn_rewind ui k) with (hit k e).
    assert (forall j, S k <= j -> (e :: rest) !! (j - k) = rest !! (j - S k)) as Hshift
      by (intros j Hj; replace (j - k) with (S (j - S k)) by lia; reflexivity).
    split.
    + intros [[(e' & Hle & He' & Hhit) Hlater] | [Hci Hnone]].
      * left. split.
        -- exists e'. split; [lia|]. split; [rewrite Hshift by lia; exact He' | exact Hhit].
        -- intros j e'' Hj He''. rewrite Hshift in He'' by lia. eauto.
      * destruct (hit k e) eqn:Hk.
        -- injection Hci as <-. left. split.
           ++ exists e. rewrite Nat.sub_diag. auto.
           ++ intros j e'' Hj He''. rewrite Hshift in He'' by lia.
              apply (Hnone j e''); [lia | exact He''].
        -- right. split; [exact Hci|]. intros j e'' Hj He''.
           destruct (decide (j = k)) as [-> | Hne].
           ++ rewrite Nat.sub_diag in He''. injection He'' as <-. exact Hk.
           ++ rewrite Hshift in He'' by lia. apply (Hnone j e''); [lia | exact He''].
    + intros [[(e' & Hle & He' & Hhit) Hlater] | [Hci Hnone]].
      * destruct (decide (i = k)) as [-> | Hne].
        -- rewrite Nat.sub_diag in He'. injection He' as <-.
           fold (hit k e) in Hhit. rewrite Hhit. right. split; [reflexivity|].
           intros j e'' Hj He''. rewrite <- Hshift in He'' by lia.
           apply (Hlater j e''); [lia | exact He''].
        -- left. split.
           ++ exists e'. split; [lia|]. rewrite <- Hshift by lia. auto.
           ++ intros j e'' Hj He''. rewrite <- Hshift in He'' by lia. eauto.
      * right. assert (hit k e = false) as ->
          by (apply (Hnone k e); [lia | rewrite Nat.sub_diag; reflexivity]).
        split; [exact Hci|]. intros j e'' Hj He''.
        rewrite <- Hshift in He'' by lia. apply (Hnone j e''); [lia | exact He''].
Qed.

(** The index that the loop of [render_events] hands back, started as the
    function starts it. *)
Lemma render_events_loop_last_clicked ui ar iei (events : list event) i :
  fst (render_events_loop ui ar iei 0 events None None) = Some i
  <-> ar = true
      /\ (exists e, events !! i = Some e /\ is_action_or_chart e = true)
      /\ btn_rewind ui i = true
      /\ forall j e, i < j -> events !! j = Some e ->
                    is_action_or_chart e = true -> btn_rewind ui j = false.
Proof.
  rewrite render_events_loop_fst. split.
  - intros [[(e & _ & He & Hhit) Hlater] | [[=] _]].
    rewrite Nat.sub_0_r in He.
    apply andb_prop in Hhit as [Hhit Hbtn]. apply andb_prop in Hhit as [Hact ->].
    repeat split; eauto.
    intros j e' Hj He' Hact'. specialize (Hlater j e' Hj).
    rewrite Nat.sub_0_r, Hact' in Hlater. apply Hlater, He'.
  - intros (-> & (e & He & Hact) & Hbtn & Hlater). left. split.
    + exists e. rewrite Nat.sub_0_r, Hact, Hbtn. auto with lia.
    + intros j e' Hj He'. rewrite Nat.sub_0_r in He'.
      destruct (is_action_or_chart e') eqn:Hact'; [|reflexivity].
      rewrite (Hlater j e' Hj He' Hact'). reflexivity.
Qed.

(** X8. [render_events] never raises and never writes the state, and the
    index it hands back is the last event, in log order, that is an action
    or a chart and whose "Edit" button is reported as clicked; there is
    none when rewinding is not offered. *)
Theorem render_events_returns_last_clicked ui ar iei s :
  exists r,
    render_events ui ar iei s = (Ok r, s)
    /\ forall i,
         fst r = Some i
         <-> ar = true
             /\ (exists e, agent_events s !! i = Some e
                           /\ is_action_or_chart e = true)
             /\ btn_rewind ui i = true
             /\ forall j e, i < j -> agent_events s !! j = Some e ->
                           is_action_or_chart e = true ->
                           btn_rewind ui j = false.
Proof.
  exists (render_events_loop ui ar iei 0 (agent_events s) None None).
  split; [reflexivity|]. intros i. apply render_events_loop_last_clicked.
Qed.

(** Once rendered, the inline form stays. *)
Lemma render_events_loop_inline_keep ui ar iei events : forall k ci,
  snd (render_events_loop ui ar iei k events ci (Some (_render_inline_edit ui)))
  = Some (_render_inline_edit ui).
Proof.
  induction events as [|e rest IH]; intros k ci; simpl; [reflexivity|].
  match goal with
  | |- context [if ?b then Some ?x else Some ?x] =>
      replace (if b then Some x else Some x) with (Some x)
        by (destruct b; reflexivity)
  end.
  apply IH.
Qed.

(** The inline form is rendered when the target is an action or a chart. *)
Lemma render_events_loop_inline_at ui ar i events : forall k ci ia e,
  k <= i -> events !! (i - k) = Some e -> is_action_or_chart e = true ->
  snd (render_events_loop ui ar (Some i) k events ci ia)
  = Some (_render_inline_edit ui).
Proof.
  induction events as [|e' rest IH]; intros k ci ia e Hle He Hact;
    [discriminate|]. simpl.
  destruct (decide (k = i)) as [-> | Hne].
  - rewrite Nat.sub_diag in He. injection He as ->.
    rewrite Hact, Nat.eqb_refl. simpl. apply render_events_loop_inline_keep.
  - eapply (IH (S k)); [lia | | exact Hact].
    replace (i - k) with (S (i - S k)) in He by lia. exact He.
Qed.

(** What the controller reads from the inline form. *)
Lemma eval_render_panel_inline ui s i e :
  agent_phase s = awaiting_edit ->
  agent_rewrite_event_index s = Some i ->
  agent_events s !! i = Some e -> is_action_or_chart e = true ->
  eval (render_panel ui) s = Ok (_render_inline_edit ui).
Proof.
  intros Hp Hi He Hact. unfold render_panel. step. rewrite Hp. step.
  rewrite Hi. step.
  rewrite (render_events_loop_inline_at ui false i (agent_events s) 0 None None e)
    by (rewrite ?Nat.sub_0_r; auto with lia).
  reflexivity.
Qed.

(** *** The rewind target *)

Lemma action_or_chart_rewind_point e :
  is_action_or_chart e = true <-> exists rp, rewind_point_of e = Some rp.
Proof.
  destruct e; simpl; split; intros Hx; eauto; try discriminate;
    destruct Hx as [rp [=]].
Qed.

Lemma rewind_target_valid_transition (ok : Client -> Prop) s s' :
  pending_by_phase s -> rewind_target_valid s -> transition ok s s' ->
  rewind_target_valid s'.
Proof.
  unfold rewind_target_valid. intros Hpend Hinv Ht.
  destruct Ht as
    [q df sc s | c s Hokc Hph | s Hph Hrender | s Hph | s Hph | s Hph Hsome
     | s Hph Hnone | p s Hph Hsome Htr | i p s Hph Hnone Hidx Htr
     | i e s Hph Hev Hact | fb s Hph].
  - discriminate.
  - destruct Hph as [Hp | Hp].
    + destruct (run_step_thinking c s Hp) as (_ & _ & _ & N). congruence.
    + destruct (run_step_acting c s Hp)
        as [[_ [Hq | Hq]] | (msg & _ & _ & _ & Hq)]; congruence.
  - destruct (execute_pending_tools_consumes s)
      as [(a & _ & _ & Hq) | (e & _ & _ & Hq)]; congruence.
  - simpl. intros _ Hnone. unfold pending_by_phase in Hpend.
    rewrite Hph in Hpend. destruct Hpend as (msg & Hm & _). congruence.
  - discriminate.
  - discriminate.
  - discriminate.
  - destruct (edit_pending_tools_consumes p s)
      as [(a & _ & _ & Hq) | (e & _ & Hm & Hq)]; [congruence|].
    intros _ Hnone. rewrite Hm in Hnone. destruct Hsome as [msg Hsome].
    congruence.
  - destruct (rewind_and_edit_spec i p s)
      as [(e' & _ & -> & _) | (ev & rp & _ & _ & _ & ->)];
      [exact Hinv | discriminate].
  - simpl. intros _ _. eauto.
  - destruct (reject_pending_tools_consumes fb s)
      as [(a & _ & _ & Hq) | (e & _ & _ & Hq)]; congruence.
Qed.

Lemma rewind_target_valid_reachable s :
  reachable s -> rewind_target_valid s.
Proof.
  intros Hs.
  assert (pending_by_phase s /\ rewind_target_valid s) as [_ Hinv];
    [|exact Hinv].
  revert s Hs. apply reachable_ind_transition.
  - split; [reflexivity | discriminate].
  - intros s s' [Hp Hinv] Ht. split.
    + eapply pending_by_phase_transition; eauto.
    + eapply rewind_target_valid_transition; eauto.
Qed.

(** X9. While the edit form waits for a rewind, the target is an action
    or chart event of the log, so the rewind cannot fail: submitting a
    prompt that is not empty ends normally in the rewound state. *)
Theorem rewind_submission_succeeds s :
  reachable s ->
  agent_phase s = awaiting_edit ->
  agent_pending_message s = None ->
  exists i ev rp,
    agent_rewrite_event_index s = Some i
    /\ agent_events s !! i = Some ev
    /\ rewind_point_of ev = Some rp
    /\ forall c q df sc w,
         btn_cancel w = false ->
         btn_submit_edit w = true ->
         truthy (input_edit_prompt w) = true ->
         agent_panel c false q df sc w s
         = (Ok tt, rewound i rp (input_edit_prompt w) s).
Proof.
  intros Hs Hp Hnone.
  destruct (rewind_target_valid_reachable s Hs Hp Hnone) as (i & ev & Hi & Hev & Hact).
  destruct (proj1 (action_or_chart_rewind_point ev) Hact) as [rp Hrp].
  exists i, ev, rp. repeat split; try assumption.
  intros c q df sc w Hcancel Hsubmit Hprompt. rewrite run_eq.
  destruct (rewind_and_edit_spec i (input_edit_prompt w) s)
    as [(e & _ & _ & Hno) | (ev' & rp' & Hev' & Hrp' & Hok & Hex)];
    [exfalso; eauto|].
  assert (rp' = rp) as -> by congruence.
  unfold agent_panel. cbn [andb]. step. rewrite exec_render_panel.
  rewrite (eval_render_panel_inline w s i ev Hp Hi Hev Hact).
  step. rewrite Hp. unfold get_flag, get_text. simpl.
  rewrite Hcancel, Hsubmit, Hprompt. cbn [andb]. step. rewrite Hnone, Hi.
  simpl. rewrite Hok, Hex. reflexivity.
Qed.

(** X10. Choosing an event to rewind and then cancelling is a round
    trip: the state is the one before the choice. *)
Theorem select_then_cancel_restores c q df sc w1 w2 s i e :
  agent_phase s = done ->
  agent_pending_message s = None ->
  agent_rewrite_event_index s = None ->
  agent_events s !! i = Some e ->
  is_action_or_chart e = true ->
  (forall j, btn_rewind w1 j = Nat.eqb i j) ->
  btn_cancel w2 = true ->
  let s1 := exec (agent_panel c false q df sc w1) s in
  agent_phase s1 = awaiting_edit
  /\ agent_rewrite_event_index s1 = Some i
  /\ exec (agent_panel c false q df sc w2) s1 = s.
Proof.
  intros Hp Hnone Hidx He Hact Hbtn Hcancel.
  assert (exec (agent_panel c false q df sc w1) s
          = set_agent_phase awaiting_edit
              (set_agent_rewrite_event_index (Some i) s)) as ->.
  { unfold agent_panel, render_panel. cbn [andb]. step. rewrite Hp. step.
    rewrite Hp. step. simpl.
    assert (fst (render_events_loop w1 true None 0 (agent_events s) None None)
            = Some i) as ->; [|reflexivity].
    apply render_events_loop_last_clicked.
    split; [reflexivity|]. split; [eauto|].
    split; [rewrite Hbtn; apply Nat.eqb_refl|].
    intros j e' Hj _ _. rewrite Hbtn. apply Nat.eqb_neq. lia. }
  cbv zeta. split; [reflexivity|]. split; [reflexivity|].
  set (s1 := set_agent_phase awaiting_edit
               (set_agent_rewrite_event_index (Some i) s)).
  unfold agent_panel. cbn [andb]. step. rewrite exec_render_panel.
  rewrite (eval_render_panel_inline w2 s1 i e); try reflexivity; try assumption.
  step. unfold get_flag. simpl. rewrite Hcancel. step. simpl.
  rewrite Hnone. simpl. step.
  apply state_eq; simpl; auto.
Qed.



(** *** What a rerun without a new question can do *)

(** A property of the state that every operation of the controller
    establishes is established by a rerun without a new question. *)
Lemma agent_panel_dispatch (R : AgentState -> Prop) c q df sc w s :
  R s ->
  (works_alone (agent_phase s) = true -> R (exec (run_step c) s)) ->
  (agent_phase s = awaiting_approval ->
   eval render_pending_msg s = Ok tt ->
   R (exec execute_pending_tools s)
   /\ R (set_agent_phase awaiting_edit s)
   /\ R (set_agent_phase awaiting_feedback s)) ->
  (agent_phase s = awaiting_edit ->
   forall p, truthy p = true ->
     (is_Some (agent_pending_message s) ->
      R (set_agent_phase awaiting_approval s)
      /\ R (exec (edit_pending_tools p) s))
     /\ (agent_pending_message s = None ->
         R (set_agent_phase done (set_agent_rewrite_event_index None s))
         /\ forall i, agent_rewrite_event_index s = Some i ->
                      R (exec (rewind_and_edit i p) s))) ->
  (agent_phase s = done ->
   forall i e, agent_events s !! i = Some e -> is_action_or_chart e = true ->
     R (set_agent_phase awaiting_edit
          (set_agent_rewrite_event_index (Some i) s))) ->
  (agent_phase s = awaiting_feedback ->
   forall fb, R (exec (reject_pending_tools fb) s)) ->
  R (exec (agent_panel c false q df sc w) s).
Proof.
  intros Hsame Hrun Happroval Hedit Hdone Hfeedback.
  unfold agent_panel. cbn [andb]. step. rewrite exec_render_panel.
  destruct (eval (render_panel w) s) as [a|e] eqn:Hr; [|exact Hsame].
  apply eval_render_panel_ok in Hr. step.
  destruct (agent_phase s) eqn:Hp.
  - exact Hsame.
  - apply Hrun. reflexivity.
  - apply Hrun. reflexivity.
  - destruct (Happroval eq_refl Hr) as (H1 & H2 & H3).
    destruct (get_flag (approved a)); [exact H1|].
    destruct (get_flag (edited a)); [exact H2|].
    destruct (get_flag (rejected a)); [exact H3 | exact Hsame].
  - destruct (get_flag (edit_cancelled a)); step.
    { destruct (Hedit eq_refl "x" eq_refl) as [Hsome Hnone].
      destruct (agent_pending_message s) as [msg|] eqn:Hm; simpl; step.
      - apply Hsome. eauto.
      - apply Hnone. reflexivity. }
    destruct (get_flag (edit_submitted a) && get_text (edit_prompt a)) eqn:Hs;
      [|exact Hsame].
    apply andb_prop in Hs as [_ Hs]. step.
    assert (truthy (default "" (edit_prompt a)) = true) as Ht
      by (destruct (edit_prompt a); [exact Hs | discriminate]).
    destruct (Hedit eq_refl _ Ht) as [Hsome Hnone].
    destruct (agent_pending_message s) as [msg|] eqn:Hm; simpl.
    + apply Hsome. eauto.
    + destruct (agent_rewrite_event_index s) eqn:Hi; [|exact Hsame].
      apply Hnone; reflexivity.
  - destruct (get_flag (submitted a)); [|exact Hsame].
    apply Hfeedback. reflexivity.
  - destruct (rewind_index a) as [i|] eqn:Hi; [|exact Hsame]. step.
    destruct (Hr i eq_refl) as (e & He & Ha). eapply Hdone; eauto.
Qed.

Lemma same_setup_extends turns evs specs s s' ph pm :
  extends_by turns evs specs s
    (set_agent_phase ph (set_agent_pending_message pm s')) ->
  same_setup s s'.
Proof. intros (_ & _ & _ & _ & _ & _ & Hs). exact Hs. Qed.

(** X12. The tools and the data frame of a run are fixed: a rerun without
    a new question writes neither, whatever it does and however it
    ends. *)
Theorem setup_changes_only_with_question c b q df sc w s :
  b && truthy q = false ->
  same_setup s (exec (agent_panel c b q df sc w) s).
Proof.
  intros Hb. rewrite agent_panel_no_restart by exact Hb.
  apply (agent_panel_dispatch (same_setup s)).
  - split; reflexivity.
  - intros _. destruct (run_step_frame c s) as (Ht & Hd & _). split; assumption.
  - intros _ _. split; [|split; split; reflexivity].
    destruct (execute_pending_tools_extends s) as (? & ? & Hext & _).
    eapply same_setup_extends, Hext.
  - intros _ p _. split.
    + intros _. split; [split; reflexivity|].
      destruct (edit_pending_tools_extends p s) as (? & ? & Hext & _).
      eapply same_setup_extends, Hext.
    + intros _. split; [split; reflexivity|]. intros i _.
      destruct (rewind_and_edit_spec i p s)
        as [(e & _ & -> & _) | (ev & rp & _ & _ & _ & ->)]; split; reflexivity.
  - intros _ i e _ _. split; reflexivity.
  - intros _ fb.
    destruct (reject_pending_tools_extends fb s) as (? & ? & Hext & _).
    eapply same_setup_extends, Hext.
Qed.

Lemma prefix_extends turns evs specs s s' ph pm :
  extends_by turns evs specs s
    (set_agent_phase ph (set_agent_pending_message pm s')) ->
  agent_messages s `prefix_of` agent_messages s'
  /\ agent_events s `prefix_of` agent_events s'.
Proof.
  intros (Hm & He & _). simpl in *. rewrite Hm, He.
  split; apply prefix_app_r; reflexivity.
Qed.

(** X13. Both logs are append-only but for the rewind: after a rerun
    without a new question the transcript and the event log begin with
    what they held before, unless the rerun was the rewind of an action
    or chart event, which cuts both as [rewind_and_edit] says. *)
Theorem logs_only_grow_or_rewind c b q df sc w s :
  b && truthy q = false ->
  let s' := exec (agent_panel c b q df sc w) s in
  (agent_messages s `prefix_of` agent_messages s'
   /\ agent_events s `prefix_of` agent_events s')
  \/ (agent_phase s = awaiting_edit
      /\ agent_pending_message s = None
      /\ exists i ev rp p,
           agent_rewrite_event_index s = Some i
           /\ agent_events s !! i = Some ev
           /\ rewind_point_of ev = Some rp
           /\ s' = rewound i rp p s).
Proof.
  intros Hb. cbv zeta. rewrite agent_panel_no_restart by exact Hb.
  set (grows := fun s' : AgentState =>
                  agent_messages s `prefix_of` agent_messages s'
                  /\ agent_events s `prefix_of` agent_events s').
  assert (grows s) as Hsame by (split; reflexivity).
  apply (agent_panel_dispatch
           (fun s' => grows s'
                      \/ (agent_phase s = awaiting_edit
                          /\ agent_pending_message s = None
                          /\ exists i ev rp p,
                               agent_rewrite_event_index s = Some i
                               /\ agent_events s !! i = Some ev
                               /\ rewind_point_of ev = Some rp
                               /\ s' = rewound i rp p s))).
  - left. exact Hsame.
  - intros _. left. unfold grows.
    destruct (run_step_grows_plain c s) as (turns & evs & -> & -> & _).
    split; apply prefix_app_r; reflexivity.
  - intros _ _. split; [|split; left; exact Hsame].
    left. unfold grows.
    destruct (execute_pending_tools_extends s) as (? & ? & Hext & _).
    eapply prefix_extends, Hext.
  - intros Hp p _. split.
    + intros _. split; [left; exact Hsame|].
      left. unfold grows.
      destruct (edit_pending_tools_extends p s) as (? & ? & Hext & _).
      eapply prefix_extends, Hext.
    + intros Hnone. split; [left; exact Hsame|]. intros i Hi.
      destruct (rewind_and_edit_spec i p s)
        as [(e & _ & -> & _) | (ev & rp & Hev & Hrp & _ & ->)];
        [left; exact Hsame|].
      right. split; [exact Hp|]. split; [exact Hnone|].
      exists i, ev, rp, p. auto.
  - intros _ i e _ _. left. exact Hsame.
  - intros _ fb. left. unfold grows.
    destruct (reject_pending_tools_extends fb s) as (? & ? & Hext & _).
    eapply prefix_extends, Hext.
Qed.

(** What the forms hand to the controller when no button is clicked. *)
Lemma eval_render_panel_no_button w s a :
  no_button w ->
  eval (render_panel w) s = Ok a ->
  get_flag (approved a) = false /\ get_flag (edited a) = false
  /\ get_flag (rejected a) = false /\ get_flag (edit_cancelled a) = false
  /\ get_flag (edit_submitted a) = false /\ get_flag (submitted a) = false
  /\ rewind_index a = None.
Proof.
  intros (H1 & H2 & H3 & H4 & H5 & H6 & H7).
  unfold render_panel, render_pending_approval, render_pending_edit,
    render_pending_feedback. step.
  destruct (agent_phase s); step.
  - intros [= <-]. simpl. auto 10.
  - intros [= <-]. simpl. auto 10.
  - intros [= <-]. simpl. auto 10.
  - destruct (eval render_pending_msg s) as [[]|]; step; [|discriminate].
    intros [= <-]. simpl. rewrite H1, H2, H3. auto 10.
  - destruct (agent_rewrite_event_index s) as [i|]; step.
    + destruct (render_events_loop_inline w false (Some i) (agent_events s)
                  0 None None (or_introl eq_refl)) as [-> | ->];
        step; intros [= <-]; simpl; rewrite ?H4, ?H5; auto 10.
    + destruct (eval render_pending_msg s) as [[]|]; step; [|discriminate].
      intros [= <-]. simpl. rewrite H4, H5. auto 10.
  - intros [= <-]. simpl. rewrite H6. auto 10.
  - intros [= <-]. simpl. repeat split; try reflexivity.
    destruct (fst _) as [i|] eqn:Hi; [|reflexivity].
    apply render_events_loop_last_clicked in Hi as (_ & _ & Hbtn & _).
    rewrite H7 in Hbtn. discriminate.
Qed.

(** X14. Outside the two working phases the controller waits: it never
    calls the model, so the outcome of a rerun without a new question
    does not depend on the client; and when no button is clicked the
    state stays as it is. *)
Theorem waiting_phases_wait c c' q df sc w s :
  works_alone (agent_phase s) = false ->
  agent_panel c false q df sc w s = agent_panel c' false q df sc w s
  /\ (no_button w -> exec (agent_panel c false q df sc w) s = s).
Proof.
  intros Hp. split.
  - apply run_pair; unfold agent_panel; cbn [andb]; step;
      rewrite exec_render_panel;
      (destruct (eval (render_panel w) s); [|reflexivity]); step;
      destruct (agent_phase s); try discriminate; reflexivity.
  - intros Hno. unfold agent_panel. cbn [andb]. step.
    rewrite exec_render_panel.
    destruct (eval (render_panel w) s) as [a|e] eqn:Hr; [|reflexivity].
    destruct (eval_render_panel_no_button w s a Hno Hr)
      as (H1 & H2 & H3 & H4 & H5 & H6 & H7).
    step. destruct (agent_phase s); try discriminate;
      rewrite ?H1, ?H2, ?H3, ?H4, ?H5, ?H6, ?H7; reflexivity.
Qed.

(** *** What each operation appends *)

Lemma has_tool_calls_some msg :
  has_tool_calls msg = true ->
  exists tcs, tool_calls msg = Some tcs /\ tcs <> [].
Proof.
  unfold has_tool_calls. destruct (tool_calls msg) as [[|tc tcs]|];
    try discriminate. intros _. eexists. split; [reflexivity | discriminate].
Qed.

(** A model step appends nothing, or the reason with a thought, or the
    reason with an answer. *)
Lemma run_step_appends c s :
  (agent_messages (exec (run_step c) s) = agent_messages s
   /\ agent_events (exec (run_step c) s) = agent_events s)
  \/ (agent_phase s = thinking
      /\ exists r,
           agent_messages (exec (run_step c) s)
           = agent_messages s ++ [Turn assistant (reason r)]
           /\ ((agent_events (exec (run_step c) s)
                = agent_events s ++ [Thought (reason r)]
                /\ agent_phase (exec (run_step c) s) = acting)
               \/ (agent_events (exec (run_step c) s)
                   = agent_events s ++ [Answer (reason r) (answer r)]
                   /\ agent_phase (exec (run_step c) s) = done))).
Proof.
  unfold run_step. step. destruct (agent_phase s) eqn:Hp; step; auto.
  - destruct (parse c _) as [r|e]; step; auto.
    right. split; [reflexivity|]. exists r.
    destruct (use_tool r); step; auto.
  - destruct (create c _ _) as [msg|e]; step; auto.
    destruct (has_tool_calls msg); step; auto.
Qed.

(** The body of the approval loop appends one tool turn for its call, or
    raises before it has appended any. *)
Lemma execute_call_turn rp df tc res s :
  (exists r res', eval (execute_call rp df tc res) s = Ok res'
                  /\ agent_messages (exec (execute_call rp df tc res) s)
                     = agent_messages s ++ [ToolTurn r (tc_id tc)])
  \/ (exists e, eval (execute_call rp df tc res) s = Raised e
                /\ agent_messages (exec (execute_call rp df tc res) s)
                   = agent_messages s).
Proof.
  unfold execute_call, loads_arguments.
  destruct (json_loads _) as [args|]; [|right; eexists; split; reflexivity].
  destruct (String.eqb _ "QueryMovieDB").
  { destruct (getitem args "code") as [code|e] eqn:Hc.
    - left. unfold_monad. rewrite Hc. simpl. eauto.
    - right. unfold_monad. rewrite Hc. simpl. eauto. }
  destruct (String.eqb _ "CreateChart").
  { destruct (getitem args "vega_lite_spec") as [spec_str|e] eqn:Hc.
    - left. unfold_monad. rewrite Hc. simpl.
      destruct (validate_chart spec_str) as [[spec|] r]; simpl; eauto.
    - right. unfold_monad. rewrite Hc. simpl. eauto. }
  destruct res as [r|]; [left | right]; unfold_monad; simpl; eauto.
Qed.

Lemma execute_loop_answers rp df tcs : forall res s,
  exists outputs,
    agent_messages (exec (execute_loop rp df tcs res) s)
    = agent_messages s ++ outputs
    /\ answers_calls tcs outputs.
Proof.
  induction tcs as [|tc rest IH]; intros res s.
  - exists []. rewrite app_nil_r. split; [reflexivity | constructor].
  - simpl. rewrite exec_bind.
    destruct (execute_call_turn rp df tc res s)
      as [(r & res' & -> & Hm) | (e & -> & Hm)].
    + destruct (IH res' (exec (execute_call rp df tc res) s)) as (outs & Ho & Ha).
      exists (ToolTurn r (tc_id tc) :: outs). rewrite Ho, Hm, <- app_assoc.
      split; [reflexivity | constructor; exact Ha].
    + exists []. rewrite Hm, app_nil_r. split; [reflexivity | constructor].
Qed.

Lemma answers_calls_map (text : string) tcs :
  answers_calls tcs (map (fun tc => ToolTurn text (tc_id tc)) tcs).
Proof. induction tcs; simpl; constructor; assumption. Qed.

(** What an approval appends when a proposal is pending. *)
Lemma execute_pending_tools_appends s msg tcs :
  agent_pending_message s = Some msg ->
  tool_calls msg = Some tcs ->
  exists outputs evs,
    agent_messages (exec execute_pending_tools s)
    = agent_messages s ++ Proposal (Some msg) :: outputs
    /\ answers_calls tcs outputs
    /\ agent_events (exec execute_pending_tools s) = agent_events s ++ evs
    /\ Forall (fun e => rewind_point_of e = Some (length (agent_messages s))) evs.
Proof.
  intros Hm Htcs.
  destruct (execute_pending_tools_extends s)
    as (turns & evs & (Hmsg & Hev & _) & Hrp). simpl in Hmsg, Hev.
  assert (exists outputs,
             agent_messages (exec execute_pending_tools s)
             = agent_messages s ++ Proposal (Some msg) :: outputs
             /\ answers_calls tcs outputs) as (outs & Ho & Ha).
  { unfold execute_pending_tools. step. rewrite Hm. simpl. rewrite Htcs. step.
    destruct (execute_loop_answers (length (agent_messages s)) (agent_df s) tcs
                None (set_agent_messages
                        (agent_messages s ++ [Proposal (Some msg)]) s))
      as (outs & Ho & Ha).
    exists outs. split; [|exact Ha].
    destruct (eval _ _); step; simpl in *; rewrite Ho, <- app_assoc;
      reflexivity. }
  exists outs, evs. auto.
Qed.

Lemma reject_pending_tools_ok s msg tcs fb :
  agent_pending_message s = Some msg ->
  tool_calls msg = Some tcs ->
  eval (reject_pending_tools fb) s = Ok tt
  /\ exec (reject_pending_tools fb) s
     = {| agent_phase := thinking;
          agent_events :=
            agent_events s
            ++ map (fun tc => Rejected (fn_name (tc_function tc)) fb) tcs;
          agent_messages :=
            agent_messages s
            ++ Proposal (Some msg)
               :: map (fun tc => ToolTurn (rejection_msg fb) (tc_id tc)) tcs;
          agent_tools := agent_tools s;
          agent_df := agent_df s;
          agent_chart_specs := agent_chart_specs s;
          agent_pending_message := None;
          agent_rewrite_event_index := agent_rewrite_event_index s |}.
Proof.
  intros Hm Htcs.
  unfold reject_pending_tools. step. rewrite Hm. simpl. rewrite Htcs. step.
  destruct (reject_loop_spec fb tcs
              (set_agent_messages (agent_messages s ++ [Proposal (Some msg)]) s))
    as (-> & Hmsg & Hev & Hc & _ & _ & Hr & Ht & Hd).
  step. split; [reflexivity|].
  apply state_eq; simpl in *; try reflexivity; try assumption.
  - rewrite Hmsg, <- app_assoc. reflexivity.
  - rewrite Hc, app_nil_r. reflexivity.
Qed.

(** *** The shape of the transcript *)

Lemma well_formed_app (l1 l2 : list message) :
  well_formed l1 -> well_formed l2 -> well_formed (l1 ++ l2).
Proof.
  induction 1 as [|r text rest _ IH|msg tcs outs rest Htcs Hne Ha _ IH];
    intros H2; simpl.
  - exact H2.
  - constructor. auto.
  - rewrite <- app_assoc. econstructor; eauto.
Qed.

Lemma well_formed_block_end msg tcs outputs :
  tool_calls msg = Some tcs -> tcs <> [] -> answers_calls tcs outputs ->
  well_formed (Proposal (Some msg) :: outputs).
Proof.
  intros Htcs Hne Ha. rewrite <- (app_nil_r outputs).
  econstructor; eauto. constructor.
Qed.

(** Appending whole blocks, with new events stamped with the length the
    transcript had, keeps the transcript and every cut well formed. *)
Lemma transcript_well_formed_append s s' suffix evs :
  transcript_well_formed s ->
  rewind_points_ordered s ->
  agent_messages s' = agent_messages s ++ suffix ->
  well_formed suffix ->
  agent_events s' = agent_events s ++ evs ->
  Forall (fun rp => rp = length (agent_messages s)) (rewind_points evs) ->
  transcript_well_formed s'.
Proof.
  intros [Hwf Hcuts] [_ Hb] Hm Hsuffix He Hnew. unfold transcript_well_formed.
  rewrite Hm, He, rewind_points_app. split.
  - apply well_formed_app; assumption.
  - intros rp Hin. apply elem_of_app in Hin as [Hin | Hin].
    + rewrite Forall_forall in Hb. specialize (Hb rp Hin).
      rewrite take_app_le by lia. auto.
    + rewrite Forall_forall in Hnew. rewrite (Hnew rp Hin).
      rewrite take_app_length. exact Hwf.
Qed.

Lemma rewind_points_all (evs : list event) rp :
  Forall (fun e => rewind_point_of e = Some rp) evs ->
  Forall (fun x => x = rp) (rewind_points evs).
Proof.
  induction 1 as [|e evs He _ IH]; [constructor|].
  unfold rewind_points in *. simpl. rewrite He. constructor; auto.
Qed.

Lemma rewind_points_rejected fb (tcs : list tool_call) :
  rewind_points (map (fun tc => Rejected (fn_name (tc_function tc)) fb) tcs)
  = [].
Proof. induction tcs; [reflexivity | exact IHtcs]. Qed.

Lemma transcript_well_formed_transition (ok : Client -> Prop) s s' :
  pending_by_phase s -> rewind_points_ordered s ->
  transcript_well_formed s -> transition ok s s' ->
  transcript_well_formed s'.
Proof.
  intros Hpend Hord Hinv Ht.
  assert (forall msg, agent_pending_message s = Some msg ->
                      exists tcs, tool_calls msg = Some tcs /\ tcs <> [])
    as Hcalls.
  { intros msg Hm. apply has_tool_calls_some.
    unfold pending_by_phase in Hpend. rewrite Hm in Hpend.
    destruct (agent_phase s); try discriminate; try exact Hpend;
      destruct Hpend as (msg' & [= <-] & Hc); exact Hc. }
  destruct Ht as
    [q df sc s | c s Hokc Hph | s Hph Hrender | s Hph | s Hph | s Hph Hsome
     | s Hph Hnone | p s Hph Hsome Htr | i p s Hph Hnone Hidx Htr
     | i e s Hph Hev Hact | fb s Hph].
  - split; [repeat constructor | intros rp Hin; inversion Hin].
  - destruct (run_step_appends c s)
      as [[Hm He] | (_ & r & Hm & [[He _] | [He _]])].
    + eapply (transcript_well_formed_append s _ [] []); eauto;
        rewrite ?app_nil_r; auto; constructor.
    + eapply (transcript_well_formed_append s _ [_] [_]); eauto;
        repeat constructor.
    + eapply (transcript_well_formed_append s _ [_] [_]); eauto;
        repeat constructor.
  - unfold pending_by_phase in Hpend. rewrite Hph in Hpend.
    destruct Hpend as (msg & Hm & _).
    destruct (Hcalls msg Hm) as (tcs & Htcs & Hne).
    destruct (execute_pending_tools_appends s msg tcs Hm Htcs)
      as (outs & evs & Hmsg & Ha & He & Hrp).
    eapply transcript_well_formed_append; eauto.
    + eapply well_formed_block_end; eauto.
    + apply rewind_points_all, Hrp.
  - exact Hinv.
  - exact Hinv.
  - exact Hinv.
  - exact Hinv.
  - destruct Hsome as [msg Hm]. destruct (Hcalls msg Hm) as (tcs & Htcs & Hne).
    destruct (edit_pending_tools_ok s msg tcs p Hm Htcs) as [_ ->].
    eapply (transcript_well_formed_append s _ _ [Edited p]);
      [exact Hinv | exact Hord | reflexivity | | reflexivity | constructor].
    eapply well_formed_block_end; eauto. apply answers_calls_map.
  - destruct (rewind_and_edit_spec i p s)
      as [(e' & _ & -> & _) | (ev & rp & Hev & Hrp & _ & ->)]; [exact Hinv|].
    destruct Hinv as [Hwf Hcuts]. destruct Hord as [Hs Hb].
    assert (rp ∈ rewind_points (agent_events s)) as Hin.
    { rewrite (rewind_points_take _ _ _ _ Hev Hrp).
      apply elem_of_app. right. left. }
    assert (rp < length (agent_messages s)) as Hlt
      by (rewrite Forall_forall in Hb; auto).
    split; simpl.
    + apply well_formed_app; [auto | repeat constructor].
    + intros rp' Hin'. rewrite rewind_points_app in Hin'. simpl in Hin'.
      rewrite app_nil_r in Hin'.
      assert (rp' <= rp) as Hle.
      { apply (Sorted_StronglySorted _) in Hs.
        rewrite (rewind_points_take _ _ _ _ Hev Hrp) in Hs.
        eapply (StronglySorted_app_1_elem_of le); [exact Hs | exact Hin' | left]. }
      rewrite take_app_le by (rewrite length_take; lia).
      rewrite take_take. replace (rp' `min` rp) with rp' by lia.
      apply Hcuts. rewrite (rewind_points_take _ _ _ _ Hev Hrp).
      apply elem_of_app. left. exact Hin'.
  - exact Hinv.
  - unfold pending_by_phase in Hpend. rewrite Hph in Hpend.
    destruct Hpend as (msg & Hm & _).
    destruct (Hcalls msg Hm) as (tcs & Htcs & Hne).
    destruct (reject_pending_tools_ok s msg tcs fb Hm Htcs) as [_ ->].
    eapply (transcript_well_formed_append s _ _ _);
      [exact Hinv | exact Hord | reflexivity | | reflexivity | ].
    + eapply well_formed_block_end; eauto. apply answers_calls_map.
    + simpl. rewrite rewind_points_rejected. constructor.
Qed.

(** The states that a model step can leave. *)
Lemma run_step_cases c s :
  exec (run_step c) s = s
  \/ (agent_phase s = thinking
      /\ exists r,
           exec (run_step c) s
           = set_agent_phase (if use_tool r then acting else done)
               (set_agent_events
                  (agent_events s
                   ++ [if use_tool r then Thought (reason r)
                       else Answer (reason r) (answer r)])
                  (set_agent_messages
                     (agent_messages s ++ [Turn assistant (reason r)]) s)))
  \/ (agent_phase s = acting
      /\ (exec (run_step c) s = set_agent_phase done s
          \/ exists msg,
               has_tool_calls msg = true
               /\ exec (run_step c) s
                  = set_agent_phase awaiting_approval
                      (set_agent_pending_message (Some msg) s))).
Proof.
  unfold run_step. step. destruct (agent_phase s) eqn:Hp; step; auto.
  - destruct (parse c _) as [r|e]; step; auto.
    right. left. split; [reflexivity|]. exists r.
    destruct (use_tool r); step; reflexivity.
  - destruct (create c _ _) as [msg|e]; step; auto.
    right. right. split; [reflexivity|].
    destruct (has_tool_calls msg) eqn:Hc; step; eauto.
Qed.

Lemma well_formed_cut_transition (ok : Client -> Prop) s s' :
  pending_by_phase s /\ rewind_points_ordered s /\ transcript_well_formed s ->
  transition ok s s' ->
  pending_by_phase s' /\ rewind_points_ordered s' /\ transcript_well_formed s'.
Proof.
  intros (Hp & Ho & Hw) Ht. split; [|split].
  - eapply pending_by_phase_transition; eauto.
  - eapply rewind_points_ordered_transition; eauto.
  - eapply transcript_well_formed_transition; eauto.
Qed.

Lemma transcript_well_formed_reachable s :
  reachable s -> transcript_well_formed s.
Proof.
  intros Hs.
  assert (pending_by_phase s /\ rewind_points_ordered s
          /\ transcript_well_formed s) as (_ & _ & Hinv);
    [|exact Hinv].
  revert s Hs. apply reachable_ind_transition.
  - split; [reflexivity|]. split; [split; constructor|].
    split; [constructor | intros rp Hin; inversion Hin].
  - apply well_formed_cut_transition.
Qed.

Lemma answers_calls_lookup tcs outputs k m :
  answers_calls tcs outputs -> outputs !! k = Some m ->
  exists r tc, tcs !! k = Some tc /\ m = ToolTurn r (tc_id tc).
Proof.
  intros Ha. revert k. induction Ha as [|tc tcs r outs _ IH]; intros k Hk.
  - discriminate.
  - destruct k as [|k]; simpl in *.
    + injection Hk as <-. eauto.
    + auto.
Qed.

(** In a well-formed transcript every tool turn belongs to a proposal
    before it: it answers one of that proposal's calls, the one at its
    distance from the proposal, and carries that call's identifier. *)
Lemma well_formed_tool_turn (msgs : list message) :
  well_formed msgs ->
  forall k r id,
    msgs !! k = Some (ToolTurn r id) ->
    exists j msg tcs tc,
      j < k /\ msgs !! j = Some (Proposal (Some msg))
      /\ tool_calls msg = Some tcs
      /\ tcs !! (k - S j) = Some tc /\ tc_id tc = id.
Proof.
  induction 1 as [|r0 text rest _ IH|msg tcs outs rest Htcs Hne Ha _ IH];
    intros k r id Hk.
  - discriminate.
  - destruct k as [|k]; [discriminate|]. simpl in Hk.
    destruct (IH k r id Hk) as (j & msg & tcs & tc & Hj & Hl & Ht & Hc & Hid).
    exists (S j), msg, tcs, tc. repeat split; auto. lia.
  - destruct k as [|k]; [discriminate|]. simpl in Hk.
    apply lookup_app_Some in Hk as [Hk | [Hlen Hk]].
    + destruct (answers_calls_lookup _ _ _ _ Ha Hk) as (r' & tc & Hc & [= -> ->]).
      exists 0, msg, tcs, tc. repeat split; auto; try lia.
      replace (S k - 1) with k by lia. exact Hc.
    + destruct (IH _ r id Hk) as (j & msg' & tcs' & tc & Hj & Hl & Ht & Hc & Hid).
      exists (S (length outs + j)), msg', tcs', tc. repeat split; auto.
      * lia.
      * simpl. rewrite lookup_app_r by lia.
        replace (length outs + j - length outs) with j by lia. exact Hl.
      * replace (S k - S (S (length outs + j))) with (k - length outs - S j)
          by lia.
        exact Hc.
Qed.

Lemma well_formed_no_empty_entry (msgs : list message) :
  well_formed msgs -> Proposal None ∉ msgs.
Proof.
  induction 1 as [|r0 text rest _ IH|msg tcs outs rest Htcs Hne Ha _ IH];
    intros Hin.
  - inversion Hin.
  - apply elem_of_cons in Hin as [Hin | Hin]; [discriminate | auto].
  - apply elem_of_cons in Hin as [Hin | Hin]; [discriminate|].
    apply elem_of_app in Hin as [Hin | Hin]; [|auto].
    apply list_elem_of_lookup in Hin as [k Hk].
    destruct (answers_calls_lookup _ _ _ _ Ha Hk) as (? & ? & _ & ?).
    discriminate.
Qed.

(** X15. The transcript that is sent to the model is well formed in every
    state of a session, and a rewind to any event leaves it well formed:
    it is made of plain turns and of proposals with calls, each followed
    by tool turns for a leading part of its calls. So no entry is the
    empty proposal, and every tool turn answers a call of a proposal that
    is still in the transcript before it, with that call's identifier. *)
Theorem transcript_stays_well_formed s :
  reachable s ->
  well_formed (agent_messages s)
  /\ (forall i p, well_formed (agent_messages (exec (rewind_and_edit i p) s)))
  /\ (Proposal None ∉ agent_messages s)
  /\ forall k r id,
       agent_messages s !! k = Some (ToolTurn r id) ->
       exists j msg tcs tc,
         j < k /\ agent_messages s !! j = Some (Proposal (Some msg))
         /\ tool_calls msg = Some tcs
         /\ tcs !! (k - S j) = Some tc /\ tc_id tc = id.
Proof.
  intros Hs. pose proof (transcript_well_formed_reachable s Hs) as [Hwf Hcuts].
  split; [exact Hwf|]. split; [|split].
  - intros i p.
    destruct (rewind_and_edit_spec i p s)
      as [(e' & _ & -> & _) | (ev & rp & Hev & Hrp & _ & ->)]; [exact Hwf|].
    simpl. apply well_formed_app; [|repeat constructor].
    apply Hcuts. rewrite (rewind_points_take _ _ _ _ Hev Hrp).
    apply elem_of_app. right. left.
  - apply well_formed_no_empty_entry, Hwf.
  - apply well_formed_tool_turn, Hwf.
Qed.

(** *** The answer ends the log *)

Lemma no_answer_answer_is_last s :
  Forall (fun e => is_answer e = false) (agent_events s) -> answer_is_last s.
Proof.
  intros Hall i th a Hi. rewrite Forall_lookup in Hall.
  specialize (Hall i _ Hi). discriminate.
Qed.

Lemma answer_is_last_busy s :
  answer_is_last s ->
  agent_phase s <> done ->
  (agent_phase s = awaiting_edit -> is_Some (agent_pending_message s)) ->
  Forall (fun e => is_answer e = false) (agent_events s).
Proof.
  intros Hinv Hd He. apply Forall_lookup. intros i e Hi.
  destruct e; try reflexivity.
  destruct (Hinv _ _ _ Hi) as [_ [Hp | [Hp Hn]]]; [contradiction|].
  specialize (He Hp). rewrite Hn in He. destruct He; discriminate.
Qed.

Lemma answer_is_last_transition (ok : Client -> Prop) s s' :
  pending_by_phase s -> answer_is_last s -> transition ok s s' ->
  answer_is_last s'.
Proof.
  intros Hpend Hinv Ht.
  assert (forall msg, agent_pending_message s = Some msg ->
                      exists tcs, tool_calls msg = Some tcs /\ tcs <> [])
    as Hcalls.
  { intros msg Hm. apply has_tool_calls_some.
    unfold pending_by_phase in Hpend. rewrite Hm in Hpend.
    destruct (agent_phase s); try discriminate; try exact Hpend;
      destruct Hpend as (msg' & [= <-] & Hc); exact Hc. }
  pose proof (answer_is_last_busy s Hinv) as Hbusy.
  destruct Ht as
    [q df sc s | c s Hokc Hph | s Hph Hrender | s Hph | s Hph | s Hph Hsome
     | s Hph Hnone | p s Hph Hsome Htr | i p s Hph Hnone Hidx Htr
     | i e s Hph Hev Hact | fb s Hph].
  - apply no_answer_answer_is_last. unfold restart_agent. steps. constructor.
  - assert (Forall (fun e => is_answer e = false) (agent_events s)) as Hno.
    { apply Hbusy; destruct Hph as [Hp | Hp]; rewrite Hp; discriminate. }
    destruct (run_step_cases c s)
      as [-> | [(_ & r & ->) | (_ & [-> | (msg & _ & ->)])]];
      try (apply no_answer_answer_is_last; exact Hno).
    destruct (use_tool r).
    + apply no_answer_answer_is_last. simpl. apply Forall_app. split; auto.
    + intros i th a Hi. simpl in *.
      apply lookup_app_Some in Hi as [Hi | [Hlen Hi]].
      * rewrite Forall_lookup in Hno. specialize (Hno _ _ Hi). discriminate.
      * destruct (i - length (agent_events s)) eqn:Hd; [|discriminate].
        rewrite length_app. simpl. split; [lia | auto].
  - apply no_answer_answer_is_last.
    destruct (execute_pending_tools_extends s)
      as (turns & evs & (_ & He & _) & Hrp). simpl in He. rewrite He.
    apply Forall_app. split.
    + apply Hbusy; rewrite Hph; discriminate.
    + eapply Forall_impl; [exact Hrp|]. intros [] Hx; try reflexivity.
      discriminate.
  - apply no_answer_answer_is_last. apply Hbusy; rewrite Hph; discriminate.
  - apply no_answer_answer_is_last. apply Hbusy; rewrite Hph; discriminate.
  - apply no_answer_answer_is_last. apply Hbusy; [rewrite Hph; discriminate|].
    auto.
  - intros i th a Hi. destruct (Hinv i th a Hi) as [Hl _]. simpl. auto.
  - destruct Hsome as [msg Hm]. destruct (Hcalls msg Hm) as (tcs & Htcs & Hne).
    destruct (edit_pending_tools_ok s msg tcs p Hm Htcs) as [_ ->].
    apply no_answer_answer_is_last. simpl. apply Forall_app. split.
    + apply Hbusy; [rewrite Hph; discriminate | rewrite Hm; eauto].
    + repeat constructor.
  - destruct (rewind_and_edit_spec i p s)
      as [(e' & _ & -> & _) | (ev & rp & Hev & Hrp & _ & ->)]; [exact Hinv|].
    apply no_answer_answer_is_last. simpl. apply Forall_app.
    split; [|repeat constructor].
    apply Forall_lookup. intros j e Hj.
    apply lookup_take_Some in Hj as [Hj Hlt].
    destruct e; try reflexivity.
    destruct (Hinv _ _ _ Hj) as [Hl _].
    apply lookup_lt_Some in Hev. lia.
  - intros j th a Hj. destruct (Hinv j th a Hj) as [Hl _]. simpl in *.
    split; [exact Hl|]. right. split; [reflexivity|].
    unfold pending_by_phase in Hpend. rewrite Hph in Hpend. exact Hpend.
  - unfold pending_by_phase in Hpend. rewrite Hph in Hpend.
    destruct Hpend as (msg & Hm & _).
    destruct (Hcalls msg Hm) as (tcs & Htcs & Hne).
    destruct (reject_pending_tools_ok s msg tcs fb Hm Htcs) as [_ ->].
    apply no_answer_answer_is_last. simpl. apply Forall_app. split.
    + apply Hbusy; rewrite Hph; discriminate.
    + apply Forall_map, Forall_true. reflexivity.
Qed.

(** X16. In every state of a session an answer event is the last event of
    the log, so a log holds at most one answer, and the run is over when
    there is one: the phase is [done], or [awaiting_edit] with no pending
    proposal, the form of a rewind. *)
Theorem answer_ends_the_log s i th a :
  reachable s ->
  agent_events s !! i = Some (Answer th a) ->
  S i = length (agent_events s)
  /\ (agent_phase s = done
      \/ (agent_phase s = awaiting_edit /\ agent_pending_message s = None))
  /\ forall j th' a', agent_events s !! j = Some (Answer th' a') ->
                       j = i /\ th' = th /\ a' = a.
Proof.
  intros Hs Hi.
  assert (pending_by_phase s /\ answer_is_last s) as [_ Hinv].
  { revert s Hs Hi. intros s Hs _. revert s Hs.
    apply reachable_ind_transition.
    - split; [reflexivity|]. intros j ? ? Hj. discriminate.
    - intros s s' [Hp Hinv] Ht. split.
      + eapply pending_by_phase_transition; eauto.
      + eapply answer_is_last_transition; eauto. }
  destruct (Hinv _ _ _ Hi) as [Hl Hp]. split; [exact Hl|]. split; [exact Hp|].
  intros j th' a' Hj. destruct (Hinv _ _ _ Hj) as [Hl' _].
  assert (j = i) as -> by lia. rewrite Hi in Hj. injection Hj as -> ->. auto.
Qed.

(** *** The intent on record *)

Lemma latest_thought_loop_last (events : list event) :
  latest_thought_loop (rev events) = last (thoughts events).
Proof.
  induction events as [|e events IH] using rev_ind; [reflexivity|].
  rewrite rev_app_distr. unfold thoughts. rewrite omap_app. simpl.
  destruct e; simpl; rewrite ?app_nil_r; try exact IH.
  rewrite last_snoc. reflexivity.
Qed.

Lemma thoughts_app (l1 l2 : list event) :
  thoughts (l1 ++ l2) = thoughts l1 ++ thoughts l2.
Proof. apply omap_app. Qed.

Lemma thoughts_app_nonempty (l1 l2 : list event) :
  thoughts l1 <> [] -> thoughts (l1 ++ l2) <> [].
Proof.
  rewrite thoughts_app. destruct (thoughts l1); [congruence | discriminate].
Qed.

(** Appending events keeps the intent on record when the log already has
    a thought, or when nothing in the new state asks for one. *)
Lemma intent_recorded_append s s' evs :
  intent_recorded s ->
  agent_events s' = agent_events s ++ evs ->
  (thoughts (agent_events s) <> []
   \/ (Forall (fun e => is_action_or_chart e = false) evs
       /\ agent_phase s' <> acting /\ agent_pending_message s' = None)) ->
  intent_recorded s'.
Proof.
  intros [HA HB] He Hor. split.
  - rewrite He. intros Hpre. destruct Hor as [Hth | (_ & Hp & Hn)].
    + apply thoughts_app_nonempty, Hth.
    + destruct Hpre as [Hpre | Hpre]; [contradiction|].
      rewrite Hn in Hpre. destruct Hpre; discriminate.
  - rewrite He. intros i e Hi Hact.
    apply lookup_app_Some in Hi as [Hi | [Hlen Hi]].
    + rewrite take_app_le by (apply lookup_lt_Some in Hi; lia). eauto.
    + destruct Hor as [Hth | (Hall & _)].
      * rewrite take_app_ge by lia. apply thoughts_app_nonempty, Hth.
      * rewrite Forall_lookup in Hall. specialize (Hall _ _ Hi). congruence.
Qed.

Lemma intent_recorded_transition (ok : Client -> Prop) s s' :
  pending_by_phase s -> intent_recorded s -> transition ok s s' ->
  intent_recorded s'.
Proof.
  intros Hpend Hinv Ht.
  assert (forall msg, agent_pending_message s = Some msg ->
                      exists tcs, tool_calls msg = Some tcs /\ tcs <> [])
    as Hcalls.
  { intros msg Hm. apply has_tool_calls_some.
    unfold pending_by_phase in Hpend. rewrite Hm in Hpend.
    destruct (agent_phase s); try discriminate; try exact Hpend;
      destruct Hpend as (msg' & [= <-] & Hc); exact Hc. }
  pose proof Hinv as [HA HB].
  destruct Ht as
    [q df sc s | c s Hokc Hph | s Hph Hrender | s Hph | s Hph | s Hph Hsome
     | s Hph Hnone | p s Hph Hsome Htr | i p s Hph Hnone Hidx Htr
     | i e s Hph Hev Hact | fb s Hph].
  - unfold restart_agent. steps. split; simpl.
    + intros [Hp | Hp]; [discriminate | destruct Hp; discriminate].
    + intros i e Hi. discriminate.
  - destruct (run_step_cases c s)
      as [-> | [(Hth & r & ->) | (Hac & [-> | (msg & _ & ->)])]];
      try exact Hinv.
    + assert (agent_pending_message s = None) as Hn
          by (unfold pending_by_phase in Hpend; rewrite Hth in Hpend; auto).
      split; simpl.
      * rewrite Hn. destruct (use_tool r);
          intros [Hp | Hp]; try discriminate; try (destruct Hp; discriminate).
        rewrite thoughts_app. simpl. intros Hx.
        apply app_eq_nil in Hx as [_ Hx]. discriminate.
      * intros i e Hi Hact.
        apply lookup_app_Some in Hi as [Hi | [Hlen Hi]].
        -- rewrite take_app_le by (apply lookup_lt_Some in Hi; lia). eauto.
        -- apply list_lookup_singleton_Some in Hi as [_ <-].
           destruct (use_tool r); discriminate.
    + split; simpl; [|exact HB]. intros [Hp | Hp]; [discriminate|].
      destruct Hp as [? Hp]. unfold pending_by_phase in Hpend.
      rewrite Hac in Hpend. congruence.
    + split; simpl; [|exact HB]. intros _. apply HA. auto.
  - destruct (execute_pending_tools_extends s)
      as (turns & evs & (_ & He & _) & _). simpl in He.
    eapply intent_recorded_append; eauto. left. apply HA. right.
    unfold pending_by_phase in Hpend. rewrite Hph in Hpend.
    destruct Hpend as (msg & -> & _). eauto.
  - split; simpl; [|exact HB]. intros [Hp | Hp]; [discriminate | auto].
  - split; simpl; [|exact HB]. intros [Hp | Hp]; [discriminate | auto].
  - split; simpl; [|exact HB]. intros [Hp | Hp]; [discriminate | auto].
  - split; simpl; [|exact HB]. rewrite Hnone.
    intros [Hp | Hp]; [discriminate | destruct Hp; discriminate].
  - pose proof Hsome as [msg Hm].
    destruct (Hcalls msg Hm) as (tcs & Htcs & Hne).
    destruct (edit_pending_tools_ok s msg tcs p Hm Htcs) as [_ ->].
    eapply (intent_recorded_append s _ [Edited p]); eauto. 
  - destruct (rewind_and_edit_spec i p s)
      as [(e' & _ & -> & _) | (ev & rp & Hev & Hrp & _ & ->)]; [exact Hinv|].
    assert (thoughts (take i (agent_events s)) <> []) as Hth.
    { apply (HB i ev Hev). destruct ev; try discriminate; reflexivity. }
    split; simpl.
    + intros _. apply thoughts_app_nonempty, Hth.
    + intros j e Hj Hact.
      apply lookup_app_Some in Hj as [Hj | [Hlen Hj]].
      * pose proof (lookup_lt_Some _ _ _ Hj) as Hlt.
        apply lookup_take_Some in Hj as [Hj Hji].
        rewrite take_app_le by lia. rewrite take_take.
        replace (j `min` i) with j by lia. eauto.
      * apply list_lookup_singleton_Some in Hj as [_ <-]. discriminate.
  - split; simpl; [|exact HB]. intros [Hp | Hp]; [discriminate | auto].
  - unfold pending_by_phase in Hpend. rewrite Hph in Hpend.
    destruct Hpend as (msg & Hm & _).
    destruct (Hcalls msg Hm) as (tcs & Htcs & Hne).
    destruct (reject_pending_tools_ok s msg tcs fb Hm Htcs) as [_ ->].
    eapply (intent_recorded_append s _ _); [exact Hinv | reflexivity |].
    left. apply HA. right. rewrite Hm. eauto.
Qed.

(** X17. Whenever a session has a proposal pending, the helper that looks
    up the latest thought finds one, the last thought of the log, and
    leaves the state as it is; and every action or chart event of the log
    has a thought somewhere before it. *)
Theorem pending_proposal_has_intent s :
  reachable s ->
  (is_Some (agent_pending_message s) ->
   exists t, _get_latest_thought s = (Ok (Some t), s)
             /\ last (thoughts (agent_events s)) = Some t)
  /\ forall i e, agent_events s !! i = Some e ->
                 is_action_or_chart e = true ->
                 exists j t, j < i /\ agent_events s !! j = Some (Thought t).
Proof.
  intros Hs.
  assert (pending_by_phase s /\ intent_recorded s) as [_ [HA HB]].
  { revert s Hs. apply reachable_ind_transition.
    - split; [reflexivity|]. split; simpl.
      + intros [Hp | Hp]; [discriminate | destruct Hp; discriminate].
      + intros i e Hi. discriminate.
    - intros s s' [Hp Hinv] Ht. split.
      + eapply pending_by_phase_transition; eauto.
      + eapply intent_recorded_transition; eauto. }
  split.
  - intros Hsome. specialize (HA (or_intror Hsome)).
    unfold _get_latest_thought, bind, get_state, ret.
    rewrite latest_thought_loop_last.
    destruct (last (thoughts (agent_events s))) as [t|] eqn:Hl.
    + exists t. auto.
    + apply last_None in Hl. contradiction.
  - intros i e Hi Hact. specialize (HB i e Hi Hact).
    destruct (thoughts (take i (agent_events s))) as [|t ts] eqn:Hth;
      [contradiction|].
    assert (t ∈ thoughts (take i (agent_events s))) as Hin
        by (rewrite Hth; left).
    unfold thoughts in Hin. apply list_elem_of_omap in Hin as (e' & Hin & He').
    destruct e'; try discriminate. injection He' as ->.
    apply list_elem_of_lookup in Hin as [j Hj].
    apply lookup_take_Some in Hj as [Hj Hlt]. eauto.
Qed.

(** X18. In a session, a submitted rejection always goes through: while
    the feedback form is shown a proposal with calls is pending, the form
    decodes nothing, and the rerun that sees the submit button appends the
    proposal, one refusal turn for each call and one rejected event for
    each call with the text of the input, whatever that text is (an empty
    feedback is taken as it is), and goes back to thinking. Without the
    button the rerun changes nothing. *)
Theorem feedback_submission_succeeds s :
  reachable s ->
  agent_phase s = awaiting_feedback ->
  exists msg tcs,
    agent_pending_message s = Some msg
    /\ tool_calls msg = Some tcs /\ tcs <> []
    /\ forall c q df sc w,
         agent_panel c false q df sc w s
         = (Ok tt,
            if btn_submit_rejection w then
              {| agent_phase := thinking;
                 agent_events :=
                   agent_events s
                   ++ map (fun tc => Rejected (fn_name (tc_function tc))
                                       (input_reject_feedback w)) tcs;
                 agent_messages :=
                   agent_messages s
                   ++ Proposal (Some msg)
                      :: map (fun tc =>
                                ToolTurn
                                  (rejection_msg (input_reject_feedback w))
                                  (tc_id tc)) tcs;
                 agent_tools := agent_tools s;
                 agent_df := agent_df s;
                 agent_chart_specs := agent_chart_specs s;
                 agent_pending_message := None;
                 agent_rewrite_event_index := agent_rewrite_event_index s |}
            else s).
Proof.
  intros Hs Hph. pose proof (pending_by_phase_reachable s Hs) as Hpend.
  unfold pending_by_phase in Hpend. rewrite Hph in Hpend.
  destruct Hpend as (msg & Hm & Hc).
  destruct (has_tool_calls_some msg Hc) as (tcs & Htcs & Hne).
  exists msg, tcs. repeat split; auto.
  intros c q df sc w.
  destruct (reject_pending_tools_ok s msg tcs (input_reject_feedback w) Hm Htcs)
    as [Hev Hex].
  rewrite <- Hex, (run_eq (agent_panel c false q df sc w)).
  destruct (btn_submit_rejection w) eqn:Hb; f_equal;
    unfold agent_panel, render_panel, render_pending_feedback; cbn [andb];
    repeat (step; rewrite ?Hph; rewrite ?Hb; fields); auto.
Qed.

End Properties.

(** ** The claims on the sample sessions *)

Section OnSample.

Import Sample.

#[local] Existing Instance Sample.world.

Local Open Scope list_scope.

Ltac conjs := repeat match goal with |- _ /\ _ => split end.

Ltac reach :=
  match goal with |- reachable ?x => try unfold x end;
  unfold rejecting, stale_rewind_target, rewind_chosen;
  unfold rewound_into_batch, edited_then_approved, answered, executed, proposed;
  repeat match goal with
         | |- reachable (session _ _) => apply reachable_session
         end;
  apply reachable_default.

(** The sample session that answers after one query is a session in
    which every proposal had one call. *)
Lemma answered_one_call :
  reachable_with proposes_one_call (answered [query_mean]).
Proof.
  unfold answered, executed, proposed.
  repeat (apply reachable_with_session;
          [repeat constructor; intros ms ts msg Hc Hh; vm_compute in Hc;
           try discriminate Hc; injection Hc as <-; eexists; reflexivity|]).
  constructor.
Qed.

(** C1 on the sample session that has a query awaiting approval. *)
Lemma at_most_one_pending_proposal_witness :
  reachable (proposed [query_mean])
  /\ (length (pending_proposals (proposed [query_mean])) <= 1
      /\ pending_by_phase (proposed [query_mean])
      /\ (forall r msg,
            agent_pending_message (exec (rerun r) (proposed [query_mean]))
            = Some msg ->
            agent_pending_message (proposed [query_mean]) = Some msg
            \/ agent_phase (proposed [query_mean]) = acting)
      /\ (forall p fb,
            consumes thinking execute_pending_tools (proposed [query_mean])
            /\ consumes acting (edit_pending_tools p) (proposed [query_mean])
            /\ consumes thinking (reject_pending_tools fb)
                 (proposed [query_mean]))).
Proof.
  split; [reach|].
  apply (at_most_one_pending_proposal (proposed [query_mean])).
  reach.
Defined.



(** C3, the claim as the design states it, fails: after a rewind into a
    batch of two queries, the first action is still in the log while its
    proposal is gone, and the cut at its rewind point removes the user
    turn of the earlier rewind instead. *)
Lemma rewind_removes_proposal_counterexample :
  reachable rewound_into_batch
  /\ agent_phase rewound_into_batch = done
  /\ agent_events rewound_into_batch !! 1
     = Some (Action "QueryMovieDB" (JStr mean_code) "7.1" 3)
  /\ drop 3 (agent_messages rewound_into_batch)
     = [Turn user (rewind_msg "use median instead")]
  /\ ~ rewind_removes_proposal 1 rewound_into_batch.
Proof.
  split; [reach|].
  split; [vm_compute; reflexivity|].
  split; [vm_compute; reflexivity|].
  split; [vm_compute; reflexivity|].
  intros Hclaim.
  destruct (Hclaim (Action "QueryMovieDB" (JStr mean_code) "7.1" 3) 3)
    as (msg & tcs & outputs & later & Hdrop & _).
  - vm_compute; reflexivity.
  - reflexivity.
  - vm_compute in Hdrop. discriminate Hdrop.
Qed.

(** C3 as amended, on the sample session that ended with an answer after
    one query. *)
Lemma rewind_cuts_both_logs_witness :
  let s := answered [query_mean] in
  let ev := Action "QueryMovieDB" (JStr mean_code) "7.1" 3 in
  let p := "use median instead" in
  (reachable s /\ agent_events s !! 1 = Some ev /\ rewind_point_of ev = Some 3)
  /\ (eval (rewind_and_edit 1 p) s = Ok tt
      /\ agent_messages (exec (rewind_and_edit 1 p) s)
         = take 3 (agent_messages s) ++ [Turn user (rewind_msg p)]
      /\ take 3 (agent_messages (exec (rewind_and_edit 1 p) s))
         = take 3 (agent_messages s)
      /\ length (take 3 (agent_messages s)) = 3
      /\ agent_events (exec (rewind_and_edit 1 p) s)
         = take 1 (agent_events s) ++ [Edited p]
      /\ agent_chart_specs (exec (rewind_and_edit 1 p) s)
         = recompute_chart_specs (take 1 (agent_events s))
      /\ agent_chart_specs (exec (rewind_and_edit 1 p) s)
         = recompute_chart_specs (agent_events (exec (rewind_and_edit 1 p) s))
      /\ agent_phase (exec (rewind_and_edit 1 p) s) = acting
      /\ agent_rewrite_event_index (exec (rewind_and_edit 1 p) s) = None
      /\ agent_pending_message (exec (rewind_and_edit 1 p) s)
         = agent_pending_message s
      /\ (reachable_with proposes_one_call s ->
          removes_proposal_and_outputs ev 3 (agent_messages s))).
Proof.
  intros s ev p.
  assert (reachable s) as Hs by reach.
  split; [split; [exact Hs | split; vm_compute; reflexivity]|].
  apply (rewind_cuts_both_logs s 1 ev 3 p Hs); vm_compute; reflexivity.
Defined.

(** C4 on the sample session that executed a query and two charts. *)
Lemma chart_list_matches_log_witness :
  let s := executed [query_mean; chart_bar; chart_bad] in
  reachable s
  /\ (agent_chart_specs s = recompute_chart_specs (agent_events s)
      /\ forall c,
           c ∈ agent_chart_specs s
           <-> exists n spec_str r rp,
                 Chart n spec_str r rp ∈ agent_events s
                 /\ fst (validate_chart spec_str) = Some c).
Proof.
  intros s.
  assert (reachable s) as Hs by reach.
  split; [exact Hs|]. apply (chart_list_matches_log s Hs).
Defined.

(** C5 on a pending batch of two calls, rejected as "too slow". *)
Lemma reject_records_feedback_witness :
  let s := proposed [query_mean; chart_bar] in
  let msg := proposal [query_mean; chart_bar] in
  let tcs := [query_mean; chart_bar] in
  let fb := "too slow" in
  (agent_pending_message s = Some msg /\ tool_calls msg = Some tcs)
  /\ (eval (reject_pending_tools fb) s = Ok tt
      /\ agent_messages (exec (reject_pending_tools fb) s)
         = agent_messages s
           ++ Proposal (Some msg)
              :: map (fun tc => ToolTurn (rejection_msg fb) (tc_id tc)) tcs
      /\ agent_events (exec (reject_pending_tools fb) s)
         = agent_events s
           ++ map (fun tc => Rejected (fn_name (tc_function tc)) fb) tcs
      /\ rejection_msg fb
         = (if String.eqb fb "" then
              "User rejected this action. Try a different approach."
            else "User rejected this action. User feedback: " ++ fb)%string
      /\ agent_pending_message (exec (reject_pending_tools fb) s) = None
      /\ agent_phase (exec (reject_pending_tools fb) s) = thinking
      /\ agent_chart_specs (exec (reject_pending_tools fb) s)
         = agent_chart_specs s
      /\ same_setup s (exec (reject_pending_tools fb) s)
      /\ agent_rewrite_event_index (exec (reject_pending_tools fb) s)
         = agent_rewrite_event_index s).
Proof.
  intros s msg tcs fb.
  split; [split; vm_compute; reflexivity|].
  apply (reject_records_feedback s msg tcs fb); vm_compute; reflexivity.
Defined.

(** C6. The code does not do what the claim says. A proposal whose only
    call names a tool that is neither [QueryMovieDB] nor [CreateChart] is
    shown for approval; approving it raises [UnboundLocalError] out of
    [execute_pending_tools], after the proposal has been appended to the
    transcript and before any tool turn: no error observation is
    recorded, the proposal stays pending and the phase stays
    [awaiting_approval]. When the unknown call follows a known one, its
    tool turn repeats the observation of the call before it. *)
Theorem unknown_tool_aborts_approval :
  let s := proposed [unknown_tool] in
  let s' := exec (rerun click_approve) s in
  let t := exec (rerun click_approve) (proposed [query_mean; unknown_tool]) in
  reachable s
  /\ agent_phase s = awaiting_approval
  /\ eval (rerun click_approve) s = Raised (UnboundLocalError "result")
  /\ agent_messages s'
     = agent_messages s ++ [Proposal (Some (proposal [unknown_tool]))]
  /\ agent_events s' = agent_events s
  /\ agent_pending_message s' = Some (proposal [unknown_tool])
  /\ agent_phase s' = awaiting_approval
  /\ last (agent_messages t) = Some (ToolTurn "7.1" "call_5").
Proof.
  cbv zeta. split; [reach|].
  conjs; vm_compute; reflexivity.
Qed.

(** C7, the claim as the design states it, fails: the model may decide
    to answer and give no answer, and the step records the answer event
    all the same. *)
Lemma thinking_step_counterexample :
  agent_phase (executed [query_mean]) = thinking
  /\ agent_events (exec (run_step decides_no_answer) (executed [query_mean]))
     = agent_events (executed [query_mean])
       ++ [Answer "I have the result." None]
  /\ ~ thinking_step_as_stated decides_no_answer (executed [query_mean]).
Proof.
  split; [vm_compute; reflexivity|].
  split; [vm_compute; reflexivity|].
  intros Hclaim.
  destruct (Hclaim {| reason := "I have the result."; use_tool := false;
                      answer := None |}) as (_ & Hanswer & _).
  - vm_compute; reflexivity.
  - reflexivity.
  - destruct (Hanswer eq_refl) as ((a & Ha & _) & _). discriminate Ha.
Qed.

(** C7 as amended, on the thinking step that answers after one query. *)
Lemma thinking_step_records_decision_witness :
  let s := executed [query_mean] in
  let c := decides_answer in
  let r := {| reason := "I have the result."; use_tool := false;
              answer := Some "The average rating is 7.1" |} in
  (agent_phase s = thinking /\ parse c (agent_messages s) = Ok r)
  /\ (eval (run_step c) s = Ok tt
      /\ agent_messages (exec (run_step c) s)
         = agent_messages s ++ [Turn assistant (reason r)]
      /\ (use_tool r = false ->
          agent_events (exec (run_step c) s)
          = agent_events s ++ [Answer (reason r) (answer r)]
          /\ agent_phase (exec (run_step c) s) = done)
      /\ (use_tool r = true ->
          agent_events (exec (run_step c) s)
          = agent_events s ++ [Thought (reason r)]
          /\ agent_phase (exec (run_step c) s) = acting)
      /\ agent_pending_message (exec (run_step c) s) = agent_pending_message s
      /\ agent_chart_specs (exec (run_step c) s) = agent_chart_specs s).
Proof.
  intros s c r.
  split; [split; vm_compute; reflexivity|].
  apply (thinking_step_records_decision c s r); vm_compute; reflexivity.
Defined.

(** C8, the claim as the design states it, fails: the two actions of one
    approved batch carry the same rewind point. *)
Lemma rewind_points_strict_counterexample :
  reachable (executed [query_mean; query_median])
  /\ rewind_points (agent_events (executed [query_mean; query_median])) = [3; 3]
  /\ ~ rewind_points_strict (executed [query_mean; query_median]).
Proof.
  split; [reach|].
  split; [vm_compute; reflexivity|].
  intros [Hsorted _]. vm_compute in Hsorted.
  inversion Hsorted as [|? ? _ Hhd]. inversion Hhd. lia.
Qed.

(** C8 as amended, on the same session. *)
Lemma rewind_points_never_decrease_witness :
  let s := executed [query_mean; query_median] in
  reachable s
  /\ (Sorted le (rewind_points (agent_events s))
      /\ Forall (fun rp => rp < length (agent_messages s))
           (rewind_points (agent_events s))
      /\ (reachable_with proposes_one_call s ->
          Sorted lt (rewind_points (agent_events s)))).
Proof.
  intros s.
  assert (reachable s) as Hs by reach.
  split; [exact Hs|]. apply (rewind_points_never_decrease s Hs).
Defined.



(** C10 on the sample session in which "Edit" was chosen for a pending
    query and the form is submitted with an empty prompt. *)
Lemma empty_edit_prompt_changes_nothing_witness :
  let s := session [click_edit] (proposed [query_mean]) in
  let w := ui (submit_prompt "") in
  (agent_phase s = awaiting_edit
   /\ false && truthy "average rating?" = false
   /\ btn_cancel w = false
   /\ input_edit_prompt w = "")
  /\ exec (agent_panel decides_tool false "average rating?" tt true w) s = s.
Proof.
  intros s w.
  split; [conjs; vm_compute; reflexivity|].
  apply (empty_edit_prompt_changes_nothing decides_tool false
           "average rating?" tt true w s); vm_compute; reflexivity.
Defined.

(** X1 on a new question asked while a rewind is open: the run is fresh,
    the rewind target stays. *)
Lemma new_question_discards_run_witness :
  let s := rewind_chosen in
  truthy "median rating?" = true
  /\ (agent_panel decides_tool true "median rating?" tt true no_click s
      = run_step decides_tool
          (fresh_run "median rating?" tt true (agent_rewrite_event_index s))
      /\ agent_rewrite_event_index
           (exec (agent_panel decides_tool true "median rating?" tt true
                    no_click) s)
         = agent_rewrite_event_index s).
Proof.
  intros s. split; [reflexivity|].
  apply (new_question_discards_run decides_tool "median rating?" tt true
           no_click s).
  reflexivity.
Defined.

(** X2 on a thinking step whose model call fails. *)
Lemma failed_model_call_changes_nothing_witness :
  let c := proposes [query_mean] in
  let s := session [ask "average rating?" c] DEFAULT_STATE in
  ((agent_phase s = thinking
    /\ parse c (agent_messages s) = Raised ModelCallError)
   \/ (agent_phase s = acting
       /\ create c (agent_messages s) (agent_tools s) = Raised ModelCallError))
  /\ agent_panel c false "" tt true no_click s = (Raised ModelCallError, s).
Proof.
  intros c s. split; [left; split; vm_compute; reflexivity|].
  apply (failed_model_call_changes_nothing c "" tt true no_click s
           ModelCallError).
  left; split; vm_compute; reflexivity.
Defined.

(** X3 on the acting step that proposes a query. *)
Lemma acting_step_only_proposes_witness :
  let c := proposes [query_mean] in
  let msg := proposal [query_mean] in
  let s := session [ask "average rating?" decides_tool] DEFAULT_STATE in
  (agent_phase s = acting
   /\ create c (agent_messages s) (agent_tools s) = Ok msg)
  /\ agent_panel c false "" tt true no_click s
     = (Ok tt,
        if has_tool_calls msg
        then set_agent_phase awaiting_approval
               (set_agent_pending_message (Some msg) s)
        else set_agent_phase done s).
Proof.
  intros c msg s. split; [conjs; vm_compute; reflexivity|].
  apply (acting_step_only_proposes c "" tt true no_click s msg);
    vm_compute; reflexivity.
Defined.

(** X4 on the edit of a pending query. *)
Lemma edit_records_instruction_witness :
  let s := proposed [query_mean] in
  let msg := proposal [query_mean] in
  let p := "filter to 2020+" in
  (agent_pending_message s = Some msg
   /\ tool_calls msg = Some [query_mean])
  /\ (eval (edit_pending_tools p) s = Ok tt
      /\ agent_messages (exec (edit_pending_tools p) s)
         = agent_messages s
           ++ Proposal (Some msg)
              :: map (fun tc => ToolTurn (edit_msg p) (tc_id tc)) [query_mean]
      /\ agent_events (exec (edit_pending_tools p) s)
         = agent_events s ++ [Edited p]
      /\ agent_pending_message (exec (edit_pending_tools p) s) = None
      /\ agent_phase (exec (edit_pending_tools p) s) = acting
      /\ agent_chart_specs (exec (edit_pending_tools p) s)
         = agent_chart_specs s
      /\ same_setup s (exec (edit_pending_tools p) s)
      /\ agent_rewrite_event_index (exec (edit_pending_tools p) s)
         = agent_rewrite_event_index s).
Proof.
  intros s msg p. split; [conjs; vm_compute; reflexivity|].
  apply (edit_records_instruction s msg [query_mean] p);
    vm_compute; reflexivity.
Defined.

(** X5 on a proposal whose arguments do not decode: no click gets the
    session past it. *)
Lemma undecodable_proposal_blocks_run_witness :
  let s := proposed [garbled_call] in
  let msg := proposal [garbled_call] in
  (reachable s
   /\ agent_phase s = awaiting_approval
   /\ agent_pending_message s = Some msg
   /\ tool_calls msg = Some [garbled_call]
   /\ garbled_call ∈ [garbled_call]
   /\ json_loads (fn_arguments (tc_function garbled_call)) = None)
  /\ exists e,
       agent_panel decides_tool false "" tt true (ui click_approve) s
       = (Raised e, s).
Proof.
  intros s msg.
  split; [split; [reach|]; conjs; try (vm_compute; reflexivity); left|].
  apply (undecodable_proposal_blocks_run decides_tool "" tt true
           (ui click_approve) s msg [garbled_call] garbled_call);
    try (vm_compute; reflexivity).
  left.
Defined.

(** X6 on a query followed by a call to a tool that does not exist: the
    second tool turn repeats the query's result. *)
Lemma unknown_call_repeats_observation_witness :
  let s := proposed [query_mean; unknown_tool] in
  let msg := proposal [query_mean; unknown_tool] in
  let ev := Action "QueryMovieDB" (JStr mean_code) "7.1" 3 in
  (agent_pending_message s = Some msg
   /\ tool_calls msg = Some [query_mean; unknown_tool]
   /\ call_event (length (agent_messages s)) (agent_df s) query_mean = Some ev
   /\ json_loads (fn_arguments (tc_function unknown_tool)) = Some (JObj [])
   /\ String.eqb (fn_name (tc_function unknown_tool)) "QueryMovieDB" = false
   /\ String.eqb (fn_name (tc_function unknown_tool)) "CreateChart" = false)
  /\ (eval execute_pending_tools s = Ok tt
      /\ agent_messages (exec execute_pending_tools s)
         = agent_messages s
           ++ [Proposal (Some msg);
               ToolTurn (event_result ev) (tc_id query_mean);
               ToolTurn (event_result ev) (tc_id unknown_tool)]
      /\ agent_events (exec execute_pending_tools s) = agent_events s ++ [ev]
      /\ agent_pending_message (exec execute_pending_tools s) = None
      /\ agent_phase (exec execute_pending_tools s) = thinking).
Proof.
  intros s msg ev. split; [conjs; vm_compute; reflexivity|].
  apply (unknown_call_repeats_observation s msg query_mean unknown_tool ev
           (JObj []));
    vm_compute; reflexivity.
Defined.

(** X7 on a session: the rewind target of an earlier run is left over,
    and the edit form of the new run's proposal never shows. *)
Lemma stale_rewind_target_hides_edit_form_witness :
  let s := stale_rewind_target in
  let w := ui (submit_prompt "use median instead") in
  (reachable s
   /\ agent_phase s = awaiting_edit
   /\ is_Some (agent_pending_message s)
   /\ agent_rewrite_event_index s = Some 1
   /\ (forall e, agent_events s !! 1 = Some e -> is_action_or_chart e = false))
  /\ agent_panel decides_tool false "" tt true w s = (Ok tt, s).
Proof.
  intros s w. split.
  - split; [reach|]. conjs; try (vm_compute; reflexivity).
    + vm_compute. eauto.
    + intros e He. vm_compute in He. discriminate He.
  - apply (stale_rewind_target_hides_edit_form decides_tool "" tt true w s 1);
      try (vm_compute; reflexivity).
    intros e He. vm_compute in He. discriminate He.
Defined.

(** X9 on the rewind form of the sample session. *)
Lemma rewind_submission_succeeds_witness :
  let s := rewind_chosen in
  (reachable s /\ agent_phase s = awaiting_edit
   /\ agent_pending_message s = None)
  /\ exists i ev rp,
       agent_rewrite_event_index s = Some i
       /\ agent_events s !! i = Some ev
       /\ rewind_point_of ev = Some rp
       /\ forall c q df sc w,
            btn_cancel w = false ->
            btn_submit_edit w = true ->
            truthy (input_edit_prompt w) = true ->
            agent_panel c false q df sc w s
            = (Ok tt, rewound i rp (input_edit_prompt w) s).
Proof.
  intros s. split; [split; [reach|]; conjs; vm_compute; reflexivity|].
  apply (rewind_submission_succeeds s); [reach | |]; vm_compute; reflexivity.
Defined.

(** X10 on the answered sample session. *)
Lemma select_then_cancel_restores_witness :
  let s := answered [query_mean] in
  let e := Action "QueryMovieDB" (JStr mean_code) "7.1" 3 in
  let w1 := ui (click_rewind 1) in
  let w2 := ui click_cancel in
  let s1 := exec (agent_panel decides_tool false "" tt true w1) s in
  (agent_phase s = done
   /\ agent_pending_message s = None
   /\ agent_rewrite_event_index s = None
   /\ agent_events s !! 1 = Some e
   /\ is_action_or_chart e = true
   /\ (forall j, btn_rewind w1 j = Nat.eqb 1 j)
   /\ btn_cancel w2 = true)
  /\ (agent_phase s1 = awaiting_edit
      /\ agent_rewrite_event_index s1 = Some 1
      /\ exec (agent_panel decides_tool false "" tt true w2) s1 = s).
Proof.
  intros s e w1 w2 s1.
  split; [conjs; vm_compute; reflexivity|].
  apply (select_then_cancel_restores decides_tool "" tt true w1 w2 s 1 e);
    vm_compute; reflexivity.
Defined.


(** X12 on an approval. *)
Lemma setup_changes_only_with_question_witness :
  let s := proposed [query_mean] in
  false && truthy "" = false
  /\ same_setup s
       (exec (agent_panel decides_tool false "" tt true (ui click_approve)) s).
Proof.
  intros s. split; [reflexivity|].
  apply (setup_changes_only_with_question decides_tool false "" tt true
           (ui click_approve) s).
  reflexivity.
Defined.

(** X13 on a submitted rewind. *)
Lemma logs_only_grow_or_rewind_witness :
  let s := rewind_chosen in
  let w := ui (submit_prompt "use median instead") in
  let s' := exec (agent_panel decides_tool false "" tt true w) s in
  false && truthy "" = false
  /\ ((agent_messages s `prefix_of` agent_messages s'
       /\ agent_events s `prefix_of` agent_events s')
      \/ (agent_phase s = awaiting_edit
          /\ agent_pending_message s = None
          /\ exists i ev rp p,
               agent_rewrite_event_index s = Some i
               /\ agent_events s !! i = Some ev
               /\ rewind_point_of ev = Some rp
               /\ s' = rewound i rp p s)).
Proof.
  intros s w s'. split; [reflexivity|].
  apply (logs_only_grow_or_rewind decides_tool false "" tt true w s).
  reflexivity.
Defined.

(** X14 on a proposal awaiting approval. *)
Lemma waiting_phases_wait_witness :
  let s := proposed [query_mean] in
  works_alone (agent_phase s) = false
  /\ (agent_panel decides_tool false "" tt true no_click s
      = agent_panel decides_answer false "" tt true no_click s
      /\ (no_button no_click ->
          exec (agent_panel decides_tool false "" tt true no_click) s = s)).
Proof.
  intros s. split; [vm_compute; reflexivity|].
  apply (waiting_phases_wait decides_tool decides_answer "" tt true no_click s).
  vm_compute; reflexivity.
Defined.

(** X15 on the session that edits, re-proposes and approves. *)
Lemma transcript_stays_well_formed_witness :
  let s := edited_then_approved in
  reachable s
  /\ (well_formed (agent_messages s)
      /\ (forall i p,
            well_formed (agent_messages (exec (rewind_and_edit i p) s)))
      /\ (Proposal None ∉ agent_messages s)
      /\ forall k r id,
           agent_messages s !! k = Some (ToolTurn r id) ->
           exists j msg tcs tc,
             j < k /\ agent_messages s !! j = Some (Proposal (Some msg))
             /\ tool_calls msg = Some tcs
             /\ tcs !! (k - S j) = Some tc /\ tc_id tc = id).
Proof.
  intros s. split; [reach|].
  apply (transcript_stays_well_formed s). reach.
Defined.

(** X16 on the answered sample session. *)
Lemma answer_ends_the_log_witness :
  let s := answered [query_mean] in
  let th := "I have the result." in
  let a := Some "The average rating is 7.1" in
  (reachable s /\ agent_events s !! 2 = Some (Answer th a))
  /\ (3 = length (agent_events s)
      /\ (agent_phase s = done
          \/ (agent_phase s = awaiting_edit
              /\ agent_pending_message s = None))
      /\ forall j th' a', agent_events s !! j = Some (Answer th' a') ->
                           j = 2 /\ th' = th /\ a' = a).
Proof.
  intros s th a. split; [split; [reach | vm_compute; reflexivity]|].
  apply (answer_ends_the_log s 2 th a); [reach | vm_compute; reflexivity].
Defined.

(** X17 on a proposal awaiting approval. *)
Lemma pending_proposal_has_intent_witness :
  let s := proposed [query_mean] in
  reachable s
  /\ ((is_Some (agent_pending_message s) ->
       exists t, _get_latest_thought s = (Ok (Some t), s)
                 /\ last (thoughts (agent_events s)) = Some t)
      /\ forall i e, agent_events s !! i = Some e ->
                     is_action_or_chart e = true ->
                     exists j t, j < i
                                 /\ agent_events s !! j = Some (Thought t)).
Proof.
  intros s. split; [reach|].
  apply (pending_proposal_has_intent s). reach.
Defined.

(** X18 on a refused query. *)
Lemma feedback_submission_succeeds_witness :
  let s := rejecting in
  (reachable s /\ agent_phase s = awaiting_feedback)
  /\ exists msg tcs,
       agent_pending_message s = Some msg
       /\ tool_calls msg = Some tcs /\ tcs <> []
       /\ forall c q df sc w,
            agent_panel c false q df sc w s
            = (Ok tt,
               if btn_submit_rejection w then
                 {| agent_phase := thinking;
                    agent_events :=
                      agent_events s
                      ++ map (fun tc => Rejected (fn_name (tc_function tc))
                                          (input_reject_feedback w)) tcs;
                    agent_messages :=
                      agent_messages s
                      ++ Proposal (Some msg)
                         :: map (fun tc =>
                                   ToolTurn
                                     (rejection_msg (input_reject_feedback w))
                                     (tc_id tc)) tcs;
                    agent_tools := agent_tools s;
                    agent_df := agent_df s;
                    agent_chart_specs := agent_chart_specs s;
                    agent_pending_message := None;
                    agent_rewrite_event_index := agent_rewrite_event_index s |}
               else s).
Proof.
  intros s. split; [split; [reach | vm_compute; reflexivity]|].
  apply (feedback_submission_succeeds s); [reach | vm_compute; reflexivity].
Defined.

End OnSample.
